(** * THREE.VRController (resources/VRController.js): model and verification

    The file follows the layout of the JavaScript source: the values the
    code manipulates, the capability catalog ([supported],
    [getSupportedById]), the adapter built by the constructor
    [THREE.VRController], change detection ([pollForChanges]), haptics
    ([setVibe], [renderVibes], [applyVibes]), the arm model
    ([OrientationArmModel]), the per-adapter [update], and the static
    registry with its poll loop.  JavaScript numbers are IEEE binary64
    values and are modelled by Rocq's primitive floats. *)

From Stdlib Require Import Floats.FloatClass Floats.PrimFloat ZArith Lia.
From Stdlib Require Floats.SpecFloat Floats.FloatOps Floats.FloatAxioms.
From stdpp Require Import base option strings list gmap pretty.

Set Warnings "-inexact-float".

(** ** JavaScript values *)

Module JS.

Abbreviation number := float (only parsing).

(** Abrupt completions the modelled code can produce. *)
Inductive error :=
| ReferenceError (ident : string)
| TypeError (what : string).

Inductive completion (A : Type) :=
| Normal (a : A)
| Throw (e : error).
Arguments Normal {A} a.
Arguments Throw {A} e.

Definition bind {A B} (m : completion A) (k : A -> completion B) : completion B :=
  match m with
  | Normal a => k a
  | Throw e => Throw e
  end.

(** The primitive values that reach the haptics entry points. *)
Inductive value :=
| VUndefined
| VNull
| VBool (b : bool)
| VNum (n : number)
| VStr (s : string).

Definition is_NaN (v : number) : bool := negb (v =? v)%float.

(** [ToBoolean] on a number: [0], [-0] and [NaN] are falsy. *)
Definition truthy (v : number) : bool :=
  negb (v =? 0)%float && negb (is_NaN v).

(** [ToBoolean] on the result of an array read, [undefined] when the
    index is out of range. *)
Definition truthy_opt (v : option number) : bool :=
  match v with
  | Some x => truthy x
  | None => false
  end.

(** [a !== b] on numbers: IEEE inequality, so [NaN !== NaN] holds and
    [0 !== -0] does not. *)
Definition strict_ne (a b : number) : bool := negb (a =? b)%float.

(** [a !== b] where either side may be [undefined]. *)
Definition strict_ne_opt (a b : option number) : bool :=
  match a, b with
  | Some x, Some y => strict_ne x y
  | None, None => false
  | _, _ => true
  end.

(** Unary plus, [ToNumber], on the primitive values above (strings are
    never converted by the modelled code). *)
Definition to_number (v : value) : number :=
  match v with
  | VUndefined => nan
  | VNull => 0%float
  | VBool true => 1%float
  | VBool false => 0%float
  | VNum n => n
  | VStr _ => nan
  end.

Definition typeof_number (v : value) : bool :=
  match v with VNum _ => true | _ => false end.

(** [Math.max] and [Math.min] on two arguments: [NaN] is contagious and
    [+0] is larger than [-0]. *)
Definition Math_max (a b : number) : number :=
  if is_NaN a || is_NaN b then nan
  else if (a <? b)%float then b
  else if (b <? a)%float then a
  else match classify a with NZero => b | _ => a end.

Definition Math_min (a b : number) : number :=
  if is_NaN a || is_NaN b then nan
  else if (a <? b)%float then a
  else if (b <? a)%float then b
  else match classify a with PZero => b | _ => a end.

Definition Math_abs (v : number) : number := abs v.

(** [s.indexOf(key)]: the first position at which [key] occurs in [s],
    [-1] when there is none. *)
Fixpoint indexOf_from (pos : Z) (s key : string) : Z :=
  if String.prefix key s then pos
  else match s with
       | EmptyString => (-1)%Z
       | String _ s' => indexOf_from (pos + 1) s' key
       end.

Definition indexOf (s key : string) : Z := indexOf_from 0 s key.

(** [s.startsWith(p)]. *)
Definition startsWith (s p : string) : bool := String.prefix p s.

(** ['' + n] for a non-negative integer [n]. *)
Definition string_of_nat (n : nat) : string := pretty n.

End JS.

Import JS.

#[global] Instance completion_ret : MRet completion := @Normal.
#[global] Instance completion_bind : MBind completion :=
  fun A B k m => JS.bind m k.

(** ** The host's device handle (Gamepad API) *)

Module GamepadButton.
Record t := mk { value : number; touched : bool; pressed : bool }.
End GamepadButton.

Module GamepadPose.
(** [orientation] and [position] are [null] ([None]) or arrays. *)
Record t := mk {
  hasOrientation : bool;
  hasPosition : bool;
  orientation : option (list number);
  position : option (list number)
}.
End GamepadPose.

Module Gamepad.
(** [pose] is [None] for [null] or [undefined].  [hapticActuators] is
    [None] when the property is missing; an entry of the array is
    [true] for an actuator object and [false] for [null]. *)
Record t := mk {
  id : string;
  index : nat;
  hand : string;
  axes : list number;
  buttons : list GamepadButton.t;
  pose : option GamepadPose.t;
  hapticActuators : option (list bool)
}.
End Gamepad.

(** ** Capability catalog *)

Module AxesMap.
Record t := mk { name : string; indexes : nat * nat }.
End AxesMap.

Module Supported.
(** A catalog entry; a field the object literal omits is [None]. *)
Record t := mk {
  style : string;
  axes : option (list AxesMap.t);
  buttons : option (list string);
  primary : option string
}.
End Supported.

Definition xbox : Supported.t :=
  Supported.mk "xbox"
    (Some [AxesMap.mk "thumbstick-left" (0, 1); AxesMap.mk "thumbstick-right" (2, 3)])
    (Some ["a"; "b"; "x"; "y"; "bumper-left"; "bumper-right"; "trigger-left";
           "trigger-right"; "select"; "start"; "thumbstick-left";
           "thumbstick-right"; "d-up"; "d-down"; "d-left"; "d-right"])
    (Some "a").

(** The object literal [THREE.VRController.supported], in definition
    order (the order [Object.keys] reports for string keys). *)
Definition supported_literal : list (string * Supported.t) :=
  [ ("Daydream Controller",
     Supported.mk "daydream" (Some [AxesMap.mk "thumbpad" (0, 1)])
       (Some ["thumbpad"]) (Some "thumbpad"));
    ("OpenVR Gamepad",
     Supported.mk "vive" (Some [AxesMap.mk "thumbpad" (0, 1)])
       (Some ["thumbpad"; "trigger"; "grip"; "menu"]) (Some "trigger"));
    ("Oculus Touch (Right)",
     Supported.mk "oculus-touch-right" (Some [AxesMap.mk "thumbstick" (0, 1)])
       (Some ["thumbstick"; "trigger"; "grip"; "A"; "B"; "thumbrest"])
       (Some "trigger"));
    ("Oculus Touch (Left)",
     Supported.mk "oculus-touch-left" (Some [AxesMap.mk "thumbstick" (0, 1)])
       (Some ["thumbstick"; "trigger"; "grip"; "X"; "Y"; "thumbrest"])
       (Some "trigger"));
    ("Spatial Controller (Spatial Interaction Source)",
     Supported.mk "microsoft"
       (Some [AxesMap.mk "thumbstick" (0, 1); AxesMap.mk "thumbpad" (2, 3)])
       (Some ["thumbstick"; "trigger"; "grip"; "menu"; "thumbpad"])
       (Some "trigger"));
    ("Gear VR Controller",
     Supported.mk "gearvr-controller" (Some [AxesMap.mk "thumbpad" (0, 1)])
       (Some ["touchpad"; "trigger"]) (Some "touchpad"));
    ("Gear VR Touchpad",
     Supported.mk "gearvr-touchpad" (Some [AxesMap.mk "thumbpad" (0, 1)])
       (Some ["touchpad"]) (Some "touchpad"));
    ("Oculus Remote",
     Supported.mk "oculus-remote" None
       (Some ["a"; "b"; "d-up"; "d-down"; "d-left"; "d-right"]) (Some "a"));
    ("xbox", xbox) ].

(** Property read [o[key]] on an object kept as an association list. *)
Fixpoint assoc_get {A} (o : list (string * A)) (key : string) : option A :=
  match o with
  | [] => None
  | (k, v) :: o' => if String.eqb k key then Some v else assoc_get o' key
  end.

(** Property write [o[key] = v]: an existing key keeps its place, a new
    key goes last. *)
Fixpoint assoc_set {A} (o : list (string * A)) (key : string) (v : A)
  : list (string * A) :=
  match o with
  | [] => [(key, v)]
  | (k, w) :: o' =>
      if String.eqb k key then (k, v) :: o' else (k, w) :: assoc_set o' key v
  end.

Definition xids : list string :=
  [ "Xbox 360 Controller (XInput STANDARD GAMEPAD)";
    "Xbox One Wired Controller (STANDARD GAMEPAD Vendor: 045e Product: 02dd)";
    "xinput" ].

Definition addSupportedControllers (sup : list (string * Supported.t))
  : list (string * Supported.t) :=
  fold_left
    (fun sup id =>
       match assoc_get sup "xbox" with
       | Some x => assoc_set sup id x
       | None => sup
       end)
    xids sup.

Definition supported : list (string * Supported.t) :=
  addSupportedControllers supported_literal.

Definition supportedKeys : list string := map fst supported.

Fixpoint getSupportedById_loop (keys : list string) (id : string)
  : option Supported.t :=
  match keys with
  | [] => None
  | key :: keys' =>
      if (0 <=? indexOf id key)%Z then assoc_get supported key
      else getSupportedById_loop keys' id
  end.

Definition getSupportedById (id : string) : option Supported.t :=
  getSupportedById_loop supportedKeys id.

(** ** The three.js mathematics the adapter relies on

    [THREE.Quaternion], [THREE.Vector3], [THREE.Matrix4], [THREE.Euler] and
    the transcendental functions behind them belong to the three.js library
    and to the host's [Math] object, not to this program.  The model takes
    them as an interface.  A method that mutates its receiver is a function
    that returns the receiver's new value. *)

Class ThreeMath := {
  Quaternion : Type;
  Vector3 : Type;
  Matrix4 : Type;
  (** [new THREE.Quaternion()], [new THREE.Vector3( x, y, z )],
      [new THREE.Matrix4()] *)
  Quaternion_new : Quaternion;
  Vector3_new : number -> number -> number -> Vector3;
  Matrix4_new : Matrix4;
  (** [q.fromArray( a )], [v.fromArray( a )] *)
  Quaternion_fromArray : list number -> Quaternion;
  Vector3_fromArray : list number -> Vector3;
  (** [q.slerp( qb, t )], [q.inverse()], [q.multiply( p )] *)
  Quaternion_slerp : Quaternion -> Quaternion -> number -> Quaternion;
  Quaternion_inverse : Quaternion -> Quaternion;
  Quaternion_multiply : Quaternion -> Quaternion -> Quaternion;
  (** [new THREE.Euler().setFromQuaternion( q, 'YXZ' )] as [(x, y, z)], and
      [new THREE.Quaternion().setFromEuler( e )] for an Euler triple of
      order ['YXZ'] *)
  Euler_setFromQuaternion_YXZ : Quaternion -> number * number * number;
  Quaternion_setFromEuler_YXZ : number * number * number -> Quaternion;
  (** [v.applyQuaternion( q )], [v.add( w )], [v.multiplyScalar( s )],
      [v.angleTo( w )] *)
  Vector3_applyQuaternion : Vector3 -> Quaternion -> Vector3;
  Vector3_add : Vector3 -> Vector3 -> Vector3;
  Vector3_multiplyScalar : Vector3 -> number -> Vector3;
  Vector3_angleTo : Vector3 -> Vector3 -> number;
  (** [m.compose( position, quaternion, scale )],
      [m.multiplyMatrices( a, b )] *)
  Matrix4_compose : Vector3 -> Quaternion -> Vector3 -> Matrix4;
  Matrix4_multiplyMatrices : Matrix4 -> Matrix4 -> Matrix4;
  (** [THREE.Math.radToDeg( x )], [Math.pow( x, y )] *)
  Math_radToDeg : number -> number;
  Math_pow : number -> number -> number
}.

(** ** Arm model *)

Module OrientationArmModel.
Section WithMath.
Context {M : ThreeMath}.

Record Pose := mkPose { orientation : Quaternion; position : Vector3 }.

(** [time] and [lastTime] are [null] ([None]) until the first update. *)
Record t := mk {
  isLeftHanded : bool;
  controllerQ : Quaternion;
  lastControllerQ : Quaternion;
  headQ : Quaternion;
  headPos : Vector3;
  elbowPos : Vector3;
  wristPos : Vector3;
  time : option number;
  lastTime : option number;
  rootQ : Quaternion;
  pose : Pose
}.

(** [new OrientationArmModel()] *)
Definition new : t :=
  {| isLeftHanded := false;
     controllerQ := Quaternion_new;
     lastControllerQ := Quaternion_new;
     headQ := Quaternion_new;
     headPos := Vector3_new 0 0 0;
     elbowPos := Vector3_new 0 0 0;
     wristPos := Vector3_new 0 0 0;
     time := None;
     lastTime := None;
     rootQ := Quaternion_new;
     pose := mkPose Quaternion_new (Vector3_new 0 0 0) |}.

Definition HEAD_ELBOW_OFFSET : Vector3 := Vector3_new 0.155 (-0.465) (-0.15).
Definition ELBOW_WRIST_OFFSET : Vector3 := Vector3_new 0 0 (-0.25).
Definition WRIST_CONTROLLER_OFFSET : Vector3 := Vector3_new 0 0 0.05.
Definition ARM_EXTENSION_OFFSET : Vector3 := Vector3_new (-0.08) 0.14 0.08.
Definition ELBOW_BEND_RATIO : number := 0.4%float.
Definition EXTENSION_RATIO_WEIGHT : number := 0.4%float.
Definition MIN_ANGULAR_SPEED : number := 0.61%float.

Definition setControllerOrientation (a : t) (quaternion : Quaternion) : t :=
  {| isLeftHanded := isLeftHanded a;
     controllerQ := quaternion;
     lastControllerQ := controllerQ a;
     headQ := headQ a; headPos := headPos a;
     elbowPos := elbowPos a; wristPos := wristPos a;
     time := time a; lastTime := lastTime a;
     rootQ := rootQ a; pose := pose a |}.

Definition setHeadOrientation (a : t) (quaternion : Quaternion) : t :=
  {| isLeftHanded := isLeftHanded a;
     controllerQ := controllerQ a;
     lastControllerQ := lastControllerQ a;
     headQ := quaternion; headPos := headPos a;
     elbowPos := elbowPos a; wristPos := wristPos a;
     time := time a; lastTime := lastTime a;
     rootQ := rootQ a; pose := pose a |}.

Definition setHeadPosition (a : t) (position : Vector3) : t :=
  {| isLeftHanded := isLeftHanded a;
     controllerQ := controllerQ a;
     lastControllerQ := lastControllerQ a;
     headQ := headQ a; headPos := position;
     elbowPos := elbowPos a; wristPos := wristPos a;
     time := time a; lastTime := lastTime a;
     rootQ := rootQ a; pose := pose a |}.

Definition getPose (a : t) : Pose := pose a.

Definition getHeadYawOrientation_ (a : t) : Quaternion :=
  let '(_, y, _) := Euler_setFromQuaternion_YXZ (headQ a) in
  Quaternion_setFromEuler_YXZ (0%float, y, 0%float).

Definition clamp_ (value min max : number) : number :=
  Math_min (Math_max value min) max.

Definition quatAngle_ (q1 q2 : Quaternion) : number :=
  let vec1 := Vector3_applyQuaternion (Vector3_new 0 0 (-1)) q1 in
  let vec2 := Vector3_applyQuaternion (Vector3_new 0 0 (-1)) q2 in
  Vector3_angleTo vec1 vec2.

(** [this.time - this.lastTime]: [null] converts to [+0]. *)
Definition elapsed (time : number) (lastTime : option number) : number :=
  (time - match lastTime with Some l => l | None => 0 end)%float.

(** [update()], with [now] the value [performance.now()] returns, kept
    in [this.time] and, at the end, in [this.lastTime].
    [wristQ.inverse()] inverts [wristQ] in place and returns it, so
    [invWristQ] and [wristQ] are one object from that line on. *)
Definition update (a : t) (now : number) : t :=
  let headYawQ := getHeadYawOrientation_ a in
  let timeDelta := (elapsed now (lastTime a) / 1000)%float in
  let angleDelta := quatAngle_ (lastControllerQ a) (controllerQ a) in
  let controllerAngularSpeed := (angleDelta / timeDelta)%float in
  let rootQ' :=
    if (MIN_ANGULAR_SPEED <? controllerAngularSpeed)%float
    then Quaternion_slerp (rootQ a) headYawQ (angleDelta / 10)%float
    else headYawQ in
  let '(controllerEuler_x, _, _) := Euler_setFromQuaternion_YXZ (controllerQ a) in
  let controllerXDeg := Math_radToDeg controllerEuler_x in
  let extensionRatio := clamp_ ((controllerXDeg - 11) / (50 - 11))%float 0 1 in
  let controllerCameraQ :=
    Quaternion_multiply (Quaternion_inverse rootQ') (controllerQ a) in
  let elbowOffset := Vector3_multiplyScalar ARM_EXTENSION_OFFSET extensionRatio in
  let elbowPos' :=
    Vector3_add (Vector3_add (headPos a) HEAD_ELBOW_OFFSET) elbowOffset in
  let totalAngle := quatAngle_ controllerCameraQ Quaternion_new in
  let totalAngleDeg := Math_radToDeg totalAngle in
  let lerpSuppression := (1 - Math_pow (totalAngleDeg / 180) 4)%float in
  let elbowRatio := ELBOW_BEND_RATIO in
  let wristRatio := (1 - ELBOW_BEND_RATIO)%float in
  let lerpValue :=
    (lerpSuppression *
     (elbowRatio + wristRatio * extensionRatio * EXTENSION_RATIO_WEIGHT))%float in
  let wristQ :=
    Quaternion_inverse (Quaternion_slerp Quaternion_new controllerCameraQ lerpValue) in
  let invWristQ := wristQ in
  let elbowQ := Quaternion_multiply controllerCameraQ invWristQ in
  let wristPos' :=
    Vector3_add
      (Vector3_applyQuaternion
         (Vector3_add
            (Vector3_applyQuaternion WRIST_CONTROLLER_OFFSET wristQ)
            ELBOW_WRIST_OFFSET)
         elbowQ)
      elbowPos' in
  let offset := Vector3_multiplyScalar ARM_EXTENSION_OFFSET extensionRatio in
  let position := Vector3_applyQuaternion (Vector3_add wristPos' offset) rootQ' in
  let orientation := controllerQ a in
  {| isLeftHanded := isLeftHanded a;
     controllerQ := controllerQ a;
     lastControllerQ := lastControllerQ a;
     headQ := headQ a; headPos := headPos a;
     elbowPos := elbowPos'; wristPos := wristPos';
     time := Some now; lastTime := Some now;
     rootQ := rootQ'; pose := mkPose orientation position |}.

(** [setLeftHanded( isLeftHanded )] *)
Definition setLeftHanded (a : t) (isLeftHanded' : bool) : t :=
  {| isLeftHanded := isLeftHanded';
     controllerQ := controllerQ a;
     lastControllerQ := lastControllerQ a;
     headQ := headQ a; headPos := headPos a;
     elbowPos := elbowPos a; wristPos := wristPos a;
     time := time a; lastTime := lastTime a;
     rootQ := rootQ a; pose := pose a |}.

(** [getElbowPosition()] and [getWristPosition()]: a clone of the joint,
    rotated by the root. *)
Definition getElbowPosition (a : t) : Vector3 :=
  Vector3_applyQuaternion (elbowPos a) (rootQ a).

Definition getWristPosition (a : t) : Vector3 :=
  Vector3_applyQuaternion (wristPos a) (rootQ a).

End WithMath.
End OrientationArmModel.

(** ** The adapter's state *)

Module DPad.
(** The property keys of [axes[ i ].dpad], in definition order. *)
Inductive direction := up | down | left | right.

Definition direction_name (d : direction) : string :=
  match d with
  | up => "up" | down => "down" | left => "left" | right => "right"
  end.

(** One entry of [axes[ i ].dpad]; [dir] is its key. *)
Record t := mk { dir : direction; index : nat; isPressed : bool }.
End DPad.

Module Axis.
(** [value] holds what was read from [gamepad.axes], [undefined]
    ([None]) included.  [dpad] lists the entries in property order and
    is empty when the property is missing. *)
Record t := mk {
  name : string;
  indexes : nat * nat;
  value : option number * option number;
  isThumbstick : bool;
  dpad : list DPad.t
}.
End Axis.

Module Button.
Record t := mk {
  name : string;
  value : number;
  isTouched : bool;
  isPressed : bool;
  isPrimary : bool
}.
End Button.

Module VibeChannel.
(** A channel is an array of commands [[ time, intensity ]] carrying the
    properties [name] and [intensity]. *)
Record t := mk {
  name : string;
  intensity : JS.value;
  commands : list (number * JS.value)
}.
End VibeChannel.

Module VibeChannels.
(** [lastCommanded] is [undefined] ([None]) until the first pulse. *)
Record t := mk {
  channels : list VibeChannel.t;
  intensity : number;
  prior : number;
  lastCommanded : option number
}.
End VibeChannels.

Module Event.
Inductive detail :=
| NoDetail
| Hand (hand : string)
| Axes (x y : number)
| Value (value : number)
| Self.

(** What [dispatchEvent] receives: the [type] and the other property. *)
Record t := mk { type : string; payload : detail }.
End Event.

(** The variables the constructor closes over: [hand], [axes], [buttons]
    and [buttonNamePrimary].  [axes.byName] and [buttons.byName] hold
    references to the array elements, kept here as their indexes. *)
Module Closure.
Record t := mk {
  hand : string;
  axes : list Axis.t;
  axes_byName : gmap string nat;
  buttons : list Button.t;
  buttons_byName : gmap string nat;
  buttonNamePrimary : string
}.
End Closure.

Module Controller.
Section WithMath.
Context {M : ThreeMath}.

(** The part of [THREE.Object3D] the adapter touches. *)
Record Object3D := mkObject3D {
  position : Vector3;
  quaternion : Quaternion;
  scale : Vector3;
  matrix : Matrix4;
  matrixAutoUpdate : bool;
  matrixWorldNeedsUpdate : bool;
  visible : bool
}.

Record Head := mkHead { head_position : Vector3; head_quaternion : Quaternion }.

(** [gamepad] is the reference to the host's handle object, whose state
    the host changes between ticks.  [hasPosed] is [false] while the
    property is [undefined]; [armModel] is [None] while it is
    [undefined]. *)
Record t := mk {
  object3D : Object3D;
  gamepad : nat;
  style : string;
  standingMatrix : Matrix4;
  head : Head;
  name : string;
  dof : Z;
  axisThreshold : number;
  axisPressThreshold : number;
  vibeChannels : VibeChannels.t;
  hasPosed : bool;
  armModel : option OrientationArmModel.t;
  closure : Closure.t
}.

Definition with_closure (c : t) (cl : Closure.t) : t :=
  mk (object3D c) (gamepad c) (style c) (standingMatrix c) (head c) (name c) (dof c)
     (axisThreshold c) (axisPressThreshold c) (vibeChannels c) (hasPosed c)
     (armModel c) cl.

Definition with_vibeChannels (c : t) (v : VibeChannels.t) : t :=
  mk (object3D c) (gamepad c) (style c) (standingMatrix c) (head c) (name c) (dof c)
     (axisThreshold c) (axisPressThreshold c) v (hasPosed c)
     (armModel c) (closure c).

Definition with_spatial (c : t) (o : Object3D) (posed : bool)
    (arm : option OrientationArmModel.t) : t :=
  mk o (gamepad c) (style c) (standingMatrix c) (head c) (name c) (dof c)
     (axisThreshold c) (axisPressThreshold c) (vibeChannels c) posed
     arm (closure c).

(** What the collaborator assigns after connection:
    [controller.standingMatrix = ...] and [controller.head = camera]. *)
Definition with_standingMatrix (c : t) (m : Matrix4) : t :=
  mk (object3D c) (gamepad c) (style c) m (head c) (name c) (dof c)
     (axisThreshold c) (axisPressThreshold c) (vibeChannels c) (hasPosed c)
     (armModel c) (closure c).

Definition with_head (c : t) (h : Head) : t :=
  mk (object3D c) (gamepad c) (style c) (standingMatrix c) h (name c) (dof c)
     (axisThreshold c) (axisPressThreshold c) (vibeChannels c) (hasPosed c)
     (armModel c) (closure c).

End WithMath.
End Controller.

(** ** The constructor [THREE.VRController] *)

(** [this.filterAxis( v )]; [Math.abs( undefined )] is [NaN], which fails
    the comparison. *)
Definition filterAxis (axisThreshold : number) (v : option number) : number :=
  match v with
  | Some x => if (axisThreshold <? Math_abs x)%float then x else 0%float
  | None => 0%float
  end.

(** The thumbstick branch shared by the constructor and [pollForChanges]:
    "only apply filter if both axes are below threshold". *)
Definition filterPair (axisThreshold : number) (axisX axisY : option number)
  : option number * option number :=
  let filteredX := filterAxis axisThreshold axisX in
  let filteredY := filterAxis axisThreshold axisY in
  if negb (truthy filteredX) && negb (truthy filteredY)
  then (Some filteredX, Some filteredY)
  else (axisX, axisY).

Definition make_dpad (i0 i1 : nat) : list DPad.t :=
  [ DPad.mk DPad.up i1 false; DPad.mk DPad.down i1 false;
    DPad.mk DPad.left i0 false; DPad.mk DPad.right i0 false ].

(** The body of [supported.axes.forEach]. *)
Definition make_supported_axis (axisThreshold : number) (gamepad : Gamepad.t)
    (axesMap : AxesMap.t) : Axis.t :=
  let i0 := fst (AxesMap.indexes axesMap) in
  let i1 := snd (AxesMap.indexes axesMap) in
  let axisX := Gamepad.axes gamepad !! i0 in
  let axisY := Gamepad.axes gamepad !! i1 in
  let isThumbstick := startsWith (AxesMap.name axesMap) "thumbstick" in
  let '(axisX, axisY) :=
    if isThumbstick then filterPair axisThreshold axisX axisY
    else (axisX, axisY) in
  Axis.mk (AxesMap.name axesMap) (AxesMap.indexes axesMap) (axisX, axisY)
    isThumbstick (if isThumbstick then make_dpad i0 i1 else []).

(** The body of the loop [for ( i = 0; i < gamepad.axes.length / 2; i++ )]. *)
Definition make_generic_axis (gamepad : Gamepad.t) (i : nat) : Axis.t :=
  let i0 := i * 2 in
  let i1 := i * 2 + 1 in
  Axis.mk ("axes_" +:+ string_of_nat (i + 1)) (i0, i1)
    (Gamepad.axes gamepad !! i0, Gamepad.axes gamepad !! i1) false [].

(** The number of [i >= 0] with [i < n / 2], the division being exact. *)
Definition half_up (n : nat) : nat := (n + 1) / 2.

(** [o[ key( x ) ] = x] for every element in turn, the element kept as
    its index. *)
Definition index_byName {A} (key : A -> string) (l : list A) : gmap string nat :=
  fold_left (fun m '(i, x) => <[key x := i]> m) (imap (fun i x => (i, x)) l) ∅.

Definition make_axes (axisThreshold : number) (gamepad : Gamepad.t)
    (supported : option Supported.t) : list Axis.t * gmap string nat :=
  match supported with
  | Some {| Supported.axes := Some axesMaps |} =>
      let axes := map (make_supported_axis axisThreshold gamepad) axesMaps in
      (axes, index_byName Axis.name axes)
  | _ =>
      (map (make_generic_axis gamepad) (seq 0 (half_up (length (Gamepad.axes gamepad)))),
       ∅)
  end.

(** The body of [gamepad.buttons.forEach]. *)
Definition make_button (i : nat) (button : GamepadButton.t) : Button.t :=
  Button.mk ("button_" +:+ string_of_nat i) (GamepadButton.value button)
    (GamepadButton.touched button) (GamepadButton.pressed button) false.

Definition set_button_name (b : Button.t) (name : string) : Button.t :=
  Button.mk name (Button.value b) (Button.isTouched b) (Button.isPressed b)
    (Button.isPrimary b).

Definition set_button_primary (b : Button.t) : Button.t :=
  Button.mk (Button.name b) (Button.value b) (Button.isTouched b)
    (Button.isPressed b) true.

(** [supported.buttons.forEach( ( buttonName, i ) => buttons[ i ].name =
    buttonName )], from index [i] on; [buttons[ i ]] is [undefined] past
    the end of the array and the assignment throws. *)
Fixpoint rename_buttons (i : nat) (names : list string) (buttons : list Button.t)
  : completion (list Button.t) :=
  match names with
  | [] => Normal buttons
  | buttonName :: names' =>
      match buttons !! i with
      | Some b =>
          rename_buttons (S i) names' (<[i := set_button_name b buttonName]> buttons)
      | None => Throw (TypeError "buttons[ i ] is undefined")
      end
  end.

(** [if ( buttons.byName[ buttonNamePrimary ] ) ... .isPrimary = true] *)
Definition mark_primary (buttons : list Button.t) (byName : gmap string nat)
    (buttonNamePrimary : string) : list Button.t :=
  match byName !! buttonNamePrimary with
  | Some i => alter set_button_primary i buttons
  | None => buttons
  end.

Definition make_buttons (gamepad : Gamepad.t) (supported : option Supported.t)
  : completion (list Button.t * gmap string nat * string) :=
  let buttons := imap make_button (Gamepad.buttons gamepad) in
  buttons ←
    match supported with
    | Some {| Supported.buttons := Some names |} => rename_buttons 0 names buttons
    | _ => Normal buttons
    end;
  let buttonNamePrimary :=
    match supported with
    | Some {| Supported.primary := Some p |} => p
    | _ => if decide (1 < length (Gamepad.buttons gamepad))
           then "button_1" else "button_0"
    end in
  let byName := index_byName Button.name buttons in
  Normal (mark_primary buttons byName buttonNamePrimary, byName, buttonNamePrimary).

Definition dof_of_pose (pose : option GamepadPose.t) : Z :=
  match pose with
  | Some p =>
      3 * (Z.b2z (GamepadPose.hasOrientation p) + Z.b2z (GamepadPose.hasPosition p))
  | None => 0
  end.

Definition initial_vibeChannels : VibeChannels.t :=
  VibeChannels.mk [VibeChannel.mk "" (VNum 0) []] 0 0 None.

Section WithMath.
Context {M : ThreeMath}.

(** [THREE.Object3D.call( this )] followed by
    [this.matrixAutoUpdate = false]; [visible] starts out [true]. *)
Definition initial_object3D : Controller.Object3D :=
  Controller.mkObject3D (Vector3_new 0 0 0) Quaternion_new (Vector3_new 1 1 1)
    Matrix4_new false false true.

(** [new THREE.VRController( gamepad )]: [handle] is the reference kept in
    [this.gamepad], [gamepad] the state of that object at the call. *)
Definition VRController (handle : nat) (gamepad : Gamepad.t)
  : completion Controller.t :=
  let axisThreshold := 0.2%float in
  let axisPressThreshold := 0.6%float in
  let supported := getSupportedById (Gamepad.id gamepad) in
  let hand := Gamepad.hand gamepad in
  let '(axes, axes_byName) := make_axes axisThreshold gamepad supported in
  '(buttons, buttons_byName, buttonNamePrimary) ← make_buttons gamepad supported;
  Normal
    {| Controller.object3D := initial_object3D;
       Controller.gamepad := handle;
       Controller.style :=
         match supported with Some s => Supported.style s | None => "" end;
       Controller.standingMatrix := Matrix4_new;
       Controller.head := Controller.mkHead (Vector3_new 0 0 0) Quaternion_new;
       Controller.name := Gamepad.id gamepad;
       Controller.dof := dof_of_pose (Gamepad.pose gamepad);
       Controller.axisThreshold := axisThreshold;
       Controller.axisPressThreshold := axisPressThreshold;
       Controller.vibeChannels := initial_vibeChannels;
       Controller.hasPosed := false;
       Controller.armModel := None;
       Controller.closure :=
         Closure.mk hand axes axes_byName buttons buttons_byName buttonNamePrimary |}.

End WithMath.

(** ** Change detection: [pollForChanges] *)

(** "Did the hand change?" *)
Definition poll_hand (hand : string) (gamepad : Gamepad.t) : string * list Event.t :=
  if negb (String.eqb hand (Gamepad.hand gamepad))
  then (Gamepad.hand gamepad,
        [Event.mk "hand changed" (Event.Hand (Gamepad.hand gamepad))])
  else (hand, []).

(** One turn of the loop [for ( d in axisDPad )]. *)
Definition poll_dpad (axisPressThreshold : number) (gamepad : Gamepad.t)
    (name : string) (axis : DPad.t) : DPad.t * list Event.t :=
  let d := DPad.dir axis in
  let v := Gamepad.axes gamepad !! DPad.index axis in
  let axisPressed : number :=
    match d, v with
    | (DPad.right | DPad.down), Some v =>
        if (axisPressThreshold <? v)%float then v else 0%float
    | (DPad.left | DPad.up), Some v =>
        if (v <? - axisPressThreshold)%float then v else 0%float
    | _, None => 0%float
    end in
  if negb (eqb (DPad.isPressed axis) (truthy axisPressed)) then
    let isPressed := truthy axisPressed in
    let eventAction := if isPressed then "began" else "ended" in
    (DPad.mk d (DPad.index axis) isPressed,
     [Event.mk (name +:+ " " +:+ DPad.direction_name d +:+ " press " +:+ eventAction)
        Event.NoDetail])
  else (axis, []).

(** The turns of a loop that updates an element and dispatches events:
    the new elements and the events in dispatch order. *)
Definition poll_each {A} (f : A -> A * list Event.t) (l : list A)
  : list A * list Event.t :=
  (map (fun x => fst (f x)) l, concat (map (fun x => snd (f x)) l)).

(** One turn of the loop [for ( i = 0; i < axes.length; i++ )]. *)
Definition poll_axis (style : string) (axisThreshold axisPressThreshold : number)
    (gamepad : Gamepad.t) (ax : Axis.t) : Axis.t * list Event.t :=
  let i0 := fst (Axis.indexes ax) in
  let i1 := snd (Axis.indexes ax) in
  match Gamepad.axes gamepad !! i0, Gamepad.axes gamepad !! i1 with
  | Some raw0, Some raw1 =>
      if truthy raw0 && truthy raw1 then
        let axesVal := Axis.value ax in
        let filteredX := filterAxis axisThreshold (Some raw0) in
        let filteredY := filterAxis axisThreshold (Some raw1) in
        let '(axisX, axisY) :=
          if Axis.isThumbstick ax
             && (negb (truthy filteredX) && negb (truthy filteredY))
          then (filteredX, filteredY)
          else (raw0, raw1) in
        let changed :=
          strict_ne_opt (fst axesVal) (Some axisX)
          || strict_ne_opt (snd axesVal) (Some axisY) in
        let axesVal' := if changed then (Some axisX, Some axisY) else axesVal in
        let changes :=
          if changed then
            let axesValuesY :=
              if String.eqb style "vive" && String.eqb (Axis.name ax) "thumbpad"
              then (axisY * -1)%float else axisY in
            [Event.mk (Axis.name ax +:+ " axes changed") (Event.Axes axisX axesValuesY)]
          else [] in
        let '(dpad', presses) :=
          if Axis.isThumbstick ax
          then poll_each (poll_dpad axisPressThreshold gamepad (Axis.name ax))
                 (Axis.dpad ax)
          else (Axis.dpad ax, []) in
        (Axis.mk (Axis.name ax) (Axis.indexes ax) axesVal' (Axis.isThumbstick ax) dpad',
         changes ++ presses)
      else (ax, [])
  | _, _ => (ax, [])
  end.

(** The body of [buttons.forEach], for a button whose raw record exists. *)
Definition poll_button (raw : GamepadButton.t) (button : Button.t)
  : Button.t * list Event.t :=
  let isPrimary := Button.isPrimary button in
  let name := Button.name button in
  let value_changed := strict_ne (Button.value button) (GamepadButton.value raw) in
  let touch_changed := negb (eqb (Button.isTouched button) (GamepadButton.touched raw)) in
  let press_changed := negb (eqb (Button.isPressed button) (GamepadButton.pressed raw)) in
  let value' := if value_changed then GamepadButton.value raw else Button.value button in
  let isTouched' :=
    if touch_changed then GamepadButton.touched raw else Button.isTouched button in
  let isPressed' :=
    if press_changed then GamepadButton.pressed raw else Button.isPressed button in
  let action (b : bool) := if b then "began" else "ended" in
  (Button.mk name value' isTouched' isPressed' isPrimary,
   (if value_changed then
      Event.mk (name +:+ " value changed") (Event.Value value')
      :: (if isPrimary then [Event.mk "primary value changed" (Event.Value value')]
          else [])
    else [])
   ++ (if touch_changed then
         Event.mk (name +:+ " touch " +:+ action isTouched') Event.NoDetail
         :: (if isPrimary
             then [Event.mk ("primary touch " +:+ action isTouched') Event.NoDetail]
             else [])
       else [])
   ++ (if press_changed then
         Event.mk (name +:+ " press " +:+ action isPressed') Event.NoDetail
         :: (if isPrimary
             then [Event.mk ("primary press " +:+ action isPressed') Event.NoDetail]
             else [])
       else [])).

(** [buttons.forEach] from index [i] on; [gamepad.buttons[ i ]] is
    [undefined] past the end of the raw array and reading its [value]
    throws. *)
Fixpoint poll_buttons (i : nat) (gamepad : Gamepad.t) (buttons : list Button.t)
  : completion (list Button.t * list Event.t) :=
  match buttons with
  | [] => Normal ([], [])
  | button :: rest =>
      match Gamepad.buttons gamepad !! i with
      | Some raw =>
          let '(button', events) := poll_button raw button in
          '(rest', events') ← poll_buttons (S i) gamepad rest;
          Normal (button' :: rest', events ++ events')
      | None => Throw (TypeError "gamepad.buttons[ i ] is undefined")
      end
  end.

Section WithMath.
Context {M : ThreeMath}.

(** [pollForChanges()], with [gamepad] the state of the handle at the
    call: the adapter afterwards and the events dispatched on it. *)
Definition pollForChanges (controller : Controller.t) (gamepad : Gamepad.t)
  : completion (Controller.t * list Event.t) :=
  let cl := Controller.closure controller in
  let '(hand, hand_events) := poll_hand (Closure.hand cl) gamepad in
  let '(axes, axes_events) :=
    poll_each
      (poll_axis (Controller.style controller) (Controller.axisThreshold controller)
         (Controller.axisPressThreshold controller) gamepad)
      (Closure.axes cl) in
  '(buttons, button_events) ← poll_buttons 0 gamepad (Closure.buttons cl);
  Normal
    (Controller.with_closure controller
       (Closure.mk hand axes (Closure.axes_byName cl) buttons
          (Closure.buttons_byName cl) (Closure.buttonNamePrimary cl)),
     hand_events ++ axes_events ++ button_events).

End WithMath.

(** ** Haptics: [setVibe], [renderVibes], [applyVibes] *)

Definition VIBE_TIME_MAX : number := (5 * 1000)%float.

(** The object [setVibe] returns: the channel it closes over, kept as its
    index in [vibeChannels] (channels are never removed), and [cursor]. *)
Module Scheduler.
Record t := mk { channel : nat; cursor : number }.
End Scheduler.

(** [vibeChannels.find( channel => channel.name === name )], as an index. *)
Fixpoint find_channel (i : nat) (channels : list VibeChannel.t) (name : string)
  : option nat :=
  match channels with
  | [] => None
  | channel :: rest =>
      if String.eqb (VibeChannel.name channel) name then Some i
      else find_channel (S i) rest name
  end.

(** The loop [while ( channel.length && now > channel[ 0 ][ 0 ] )]. *)
Fixpoint drain (now : number) (intensity : JS.value)
    (commands : list (number * JS.value)) : JS.value * list (number * JS.value) :=
  match commands with
  | (at_time, v) :: rest =>
      if (at_time <? now)%float then drain now v rest else (intensity, commands)
  | [] => (intensity, [])
  end.

(** The body of [vibeChannels.forEach] in [renderVibes]. *)
Definition render_channel (now : number) (channel : VibeChannel.t) : VibeChannel.t :=
  let '(intensity, commands) :=
    drain now (VibeChannel.intensity channel) (VibeChannel.commands channel) in
  VibeChannel.mk (VibeChannel.name channel)
    (if typeof_number intensity then intensity else VNum 0) commands.

(** [vibeChannels.reduce( ( sum, channel ) => sum + +channel.intensity, 0 )] *)
Definition sum_intensities (channels : list VibeChannel.t) : number :=
  fold_left (fun sum channel => (sum + to_number (VibeChannel.intensity channel))%float)
    channels 0%float.

Section WithMath.
Context {M : ThreeMath}.

(** [setVibe( name, intensity )], with [now] the value of
    [performance.now()]: the adapter afterwards and the scheduler,
    [None] when the call returns [undefined]. *)
Definition setVibe (controller : Controller.t) (now : number)
    (name intensity : JS.value) : Controller.t * option Scheduler.t :=
  let '(name, intensity) :=
    match name, intensity with
    | VNum _, VUndefined => (VStr "", name)
    | _, _ => (name, intensity)
    end in
  match name with
  | VStr name =>
      let vibes := Controller.vibeChannels controller in
      let channels := VibeChannels.channels vibes in
      let '(i, channels) :=
        match find_channel 0 channels name with
        | None => (length channels, channels ++ [VibeChannel.mk name (VNum 0) []])
        | Some i =>
            (i, alter (fun ch => VibeChannel.mk (VibeChannel.name ch)
                                   (VibeChannel.intensity ch) []) i channels)
        end in
      let channels :=
        if typeof_number intensity
        then alter (fun ch => VibeChannel.mk (VibeChannel.name ch) intensity
                                (VibeChannel.commands ch)) i channels
        else channels in
      (Controller.with_vibeChannels controller
         (VibeChannels.mk channels (VibeChannels.intensity vibes)
            (VibeChannels.prior vibes) (VibeChannels.lastCommanded vibes)),
       Some (Scheduler.mk i now))
  | _ => (controller, None)
  end.

(** [o.set( intensity )] *)
Definition Scheduler_set (controller : Controller.t) (o : Scheduler.t)
    (intensity : JS.value) : Controller.t :=
  let vibes := Controller.vibeChannels controller in
  Controller.with_vibeChannels controller
    (VibeChannels.mk
       (alter (fun ch => VibeChannel.mk (VibeChannel.name ch)
                           (VibeChannel.intensity ch)
                           (VibeChannel.commands ch
                            ++ [(Scheduler.cursor o, intensity)]))
          (Scheduler.channel o) (VibeChannels.channels vibes))
       (VibeChannels.intensity vibes) (VibeChannels.prior vibes)
       (VibeChannels.lastCommanded vibes)).

(** [o.wait( duration )] *)
Definition Scheduler_wait (o : Scheduler.t) (duration : number) : Scheduler.t :=
  Scheduler.mk (Scheduler.channel o) (Scheduler.cursor o + duration)%float.

(** [renderVibes()], with [now] the value of [performance.now()]: the
    adapter afterwards and the value returned. *)
Definition renderVibes (controller : Controller.t) (now : number)
  : Controller.t * number :=
  let vibes := Controller.vibeChannels controller in
  let channels := map (render_channel now) (VibeChannels.channels vibes) in
  let sum := Math_min 1 (Math_max 0 (sum_intensities channels)) in
  (Controller.with_vibeChannels controller
     (VibeChannels.mk channels sum (VibeChannels.prior vibes)
        (VibeChannels.lastCommanded vibes)),
   sum).

(** [applyVibes()]: [now_render] and [now] are the two clock readings,
    the first inside [renderVibes].  The result lists the calls
    [pulse( intensity, duration )] made on the first actuator. *)
Definition applyVibes (controller : Controller.t) (gamepad : Gamepad.t)
    (now_render now : number) : Controller.t * list (number * number) :=
  match Gamepad.hapticActuators gamepad with
  | Some (true :: _) =>
      let '(controller, renderedIntensity) := renderVibes controller now_render in
      let vibes := Controller.vibeChannels controller in
      let overdue :=
        match VibeChannels.lastCommanded vibes with
        | Some last => (VIBE_TIME_MAX / 2 <? now - last)%float
        | None => false
        end in
      if strict_ne renderedIntensity (VibeChannels.prior vibes) || overdue then
        (Controller.with_vibeChannels controller
           (VibeChannels.mk (VibeChannels.channels vibes)
              (VibeChannels.intensity vibes) renderedIntensity (Some now)),
         [(renderedIntensity, VIBE_TIME_MAX)])
      else (controller, [])
  | _ => (controller, [])
  end.

End WithMath.

(** ** The host, the registry and the per-adapter [update] *)

Module Host.
(** An entry of the array [navigator.getGamepads()] returns: [null],
    [undefined], or a reference to a handle object. *)
Inductive slot := Null | Undefined | Handle (h : nat).

(** The places where the code reads [performance.now()]. *)
Inductive site := InRenderVibes | InApplyVibes | InArmModel.

(** The host during one tick.  [getGamepads] is [None] when
    [navigator.getGamepads] is [undefined]; [deref h] is the state of the
    handle object [h]; [performance_now h s] is the clock reading taken at
    site [s] while the adapter of handle [h] is updated. *)
Record t := mk {
  getGamepads : option (list slot);
  deref : nat -> Gamepad.t;
  performance_now : nat -> site -> number
}.
End Host.

Module Effect.
(** What leaves the program: [controller.dispatchEvent( e )] on the
    adapter object at an address, [window.dispatchEvent] of a
    [CustomEvent] whose [detail] is an adapter, and
    [hapticActuators[ 0 ].pulse( intensity, duration )] on a handle. *)
Inductive t :=
| Dispatched (target : nat) (e : Event.t)
| WindowDispatched (type : string) (detail : nat)
| Pulsed (handle : nat) (intensity duration : number).
End Effect.

Section WithMath.
Context {M : ThreeMath}.

(** Adapter objects live in [heap] under their addresses;
    [controllers] is the array [THREE.VRController.controllers], from
    slot index to the address of the adapter, an [undefined] entry being
    absent.  [log] collects the effects in order. *)
Record World := mkWorld {
  heap : gmap nat Controller.t;
  next : nat;
  controllers : gmap nat nat;
  log : list Effect.t
}.

Definition empty_world : World := mkWorld ∅ 0 ∅ [].

Definition store (this : nat) (c : Controller.t) (w : World) : World :=
  mkWorld (<[this := c]> (heap w)) (next w) (controllers w) (log w).

Definition emit (effects : list Effect.t) (w : World) : World :=
  mkWorld (heap w) (next w) (controllers w) (log w ++ effects).

(** [THREE.VRController.onGamepadDisconnect( gamepad, i )]; with no
    adapter in the slot, [controller.dispatchEvent] throws. *)
Definition onGamepadDisconnect (gamepad : option Gamepad.t) (i : nat) (w : World)
  : completion World :=
  let index := match gamepad with Some g => Gamepad.index g | None => i end in
  match controllers w !! index with
  | Some controller =>
      let w := emit [Effect.Dispatched controller (Event.mk "disconnected" Event.Self)] w in
      Normal (mkWorld (heap w) (next w) (delete index (controllers w)) (log w))
  | None => Throw (TypeError "controller is undefined")
  end.

(** [THREE.VRController.onGamepadConnect( gamepad )] for the handle [h]. *)
Definition onGamepadConnect (host : Host.t) (h : nat) (w : World)
  : completion World :=
  let gamepad := Host.deref host h in
  controller ← VRController h gamepad;
  let this := next w in
  let w := mkWorld (heap w) (S (next w))
             (<[Gamepad.index gamepad := this]> (controllers w)) (log w) in
  w ← match Gamepad.hapticActuators gamepad with
      | Some (true :: _) => Normal (emit [Effect.Pulsed h 0.1 300] w)
      | Some (false :: _) => Throw (TypeError "hapticActuators[ 0 ] is null")
      | _ => Normal w
      end;
  let controller :=
    Controller.with_spatial controller
      (let o := Controller.object3D controller in
       Controller.mkObject3D (Controller.position o) (Controller.quaternion o)
         (Controller.scale o) (Controller.matrix o) (Controller.matrixAutoUpdate o)
         (Controller.matrixWorldNeedsUpdate o) false)
      (Controller.hasPosed controller) (Controller.armModel controller) in
  Normal (emit [Effect.WindowDispatched "vr controller connected" this]
            (store this controller w)).

(** What [update] finds in [gamepad.pose]: nothing ([pose] is [null] or
    [undefined], or [orientation] and [position] are both [null]), a
    position with or without an orientation, or an orientation alone. *)
Inductive reading :=
| Absent
| WithPosition (orientation : option (list number)) (position : list number)
| OrientationOnly (orientation : list number).

Definition read_pose (pose : option GamepadPose.t) : reading :=
  match pose with
  | None => Absent
  | Some p =>
      match GamepadPose.orientation p, GamepadPose.position p with
      | None, None => Absent
      | o, Some q => WithPosition o q
      | Some o, None => OrientationOnly o
      end
  end.

(** [if ( this.hasPosed !== true )] and the copy of the orientation. *)
Definition adopt_orientation (c : Controller.t) (orientation : option (list number))
  : Controller.Object3D :=
  let o := Controller.object3D c in
  Controller.mkObject3D (Controller.position o)
    (match orientation with
     | Some a => Quaternion_fromArray a
     | None => Controller.quaternion o
     end)
    (Controller.scale o) (Controller.matrix o) (Controller.matrixAutoUpdate o)
    (Controller.matrixWorldNeedsUpdate o)
    (if Controller.hasPosed c then Controller.visible o else true).

(** The last two statements of [update]. *)
Definition place (c : Controller.t) (o : Controller.Object3D) (position : Vector3)
    (local : Matrix4) (arm : option OrientationArmModel.t) : Controller.t :=
  Controller.with_spatial c
    (Controller.mkObject3D position (Controller.quaternion o) (Controller.scale o)
       (Matrix4_multiplyMatrices (Controller.standingMatrix c) local)
       (Controller.matrixAutoUpdate o) true (Controller.visible o))
    true arm.

(** "POSITION -- EXISTS!" *)
Definition update_6dof (c : Controller.t) (orientation : option (list number))
    (position : list number) : Controller.t :=
  let o := adopt_orientation c orientation in
  let position := Vector3_fromArray position in
  place c o position
    (Matrix4_compose position (Controller.quaternion o) (Controller.scale o))
    (Controller.armModel c).

(** "POSITION -- NOPE": the arm model, created on first use; [now] is
    the clock reading inside [armModel.update()]. *)
Definition update_3dof (c : Controller.t) (orientation : list number) (now : number)
  : Controller.t :=
  let o := adopt_orientation c (Some orientation) in
  let arm :=
    match Controller.armModel c with
    | Some arm => arm
    | None => OrientationArmModel.new
    end in
  let arm :=
    OrientationArmModel.setHeadPosition arm
      (Controller.head_position (Controller.head c)) in
  let arm :=
    OrientationArmModel.setHeadOrientation arm
      (Controller.head_quaternion (Controller.head c)) in
  let arm :=
    OrientationArmModel.setControllerOrientation arm
      (Quaternion_fromArray orientation) in
  let arm := OrientationArmModel.update arm now in
  place c o (Controller.position o)
    (Matrix4_compose
       (OrientationArmModel.position (OrientationArmModel.getPose arm))
       (OrientationArmModel.orientation (OrientationArmModel.getPose arm))
       (Controller.scale o))
    (Some arm).

(** [THREE.VRController.prototype.update], called on the adapter object
    at the address [this]. *)
Definition prototype_update (host : Host.t) (this : nat) (w : World)
  : completion World :=
  match heap w !! this with
  | None => Throw (TypeError "this is not an adapter")
  | Some c =>
      let h := Controller.gamepad c in
      let gamepad := Host.deref host h in
      let pose := Gamepad.pose gamepad in
      '(c, events) ← pollForChanges c gamepad;
      let w := emit (map (Effect.Dispatched this) events) (store this c w) in
      let '(c, pulses) :=
        applyVibes c gamepad (Host.performance_now host h Host.InRenderVibes)
          (Host.performance_now host h Host.InApplyVibes) in
      let w :=
        emit (map (fun p => Effect.Pulsed h (fst p) (snd p)) pulses) (store this c w) in
      match read_pose pose with
      | Absent =>
          if Controller.hasPosed c then onGamepadDisconnect (Some gamepad) 0 w
          else Normal w
      | WithPosition orientation position =>
          Normal (store this (update_6dof c orientation position) w)
      | OrientationOnly orientation =>
          Normal (store this
                    (update_3dof c orientation
                       (Host.performance_now host h Host.InArmModel)) w)
      end
  end.

(** The loop of [THREE.VRController.update] over the slots from index
    [i] on. *)
Fixpoint update_slots (host : Host.t) (i : nat) (gamepads : list Host.slot)
    (w : World) : completion World :=
  match gamepads with
  | [] => Normal w
  | slot :: rest =>
      w ←
        match slot with
        | Host.Handle h =>
            w ← match controllers w !! i with
                | None => onGamepadConnect host h w
                | Some _ => Normal w
                end;
            match controllers w !! i with
            | Some this => prototype_update host this w
            | None => Throw (TypeError "this.controllers[ i ] is undefined")
            end
        | Host.Null =>
            match controllers w !! i with
            | Some _ => onGamepadDisconnect None i w
            | None => Normal w
            end
        | Host.Undefined => Normal w
        end;
      update_slots host (S i) rest w
  end.

(** [THREE.VRController.update] *)
Definition update (host : Host.t) (w : World) : completion World :=
  match Host.getGamepads host with
  | None => Normal w
  | Some gamepads => update_slots host 0 gamepads w
  end.

(** One past the largest index that holds a property of the registry
    array, [0] for the empty array. *)
Definition registry_bound (controllers : gmap nat nat) : nat :=
  map_fold (fun i _ bound => Nat.max (S i) bound) 0 controllers.

(** The keys [for ( c in this.controllers )] visits: the indexes with an
    adapter, in ascending order.  An index whose entry was overwritten
    with [undefined] is visited too and skipped by [if ( controller )], so
    it is left out here. *)
Definition registry_keys (controllers : gmap nat nat) : list nat :=
  filter (fun i => is_Some (controllers !! i)) (seq 0 (registry_bound controllers)).

(** The turns of the loop of [THREE.VRController.clear] for the keys
    [keys]; the entry is read when its turn comes, and
    [onGamepadDisconnect] receives the adapter's own handle. *)
Fixpoint clear_loop (host : Host.t) (keys : list nat) (w : World)
  : completion World :=
  match keys with
  | [] => Normal w
  | c :: rest =>
      w ←
        match controllers w !! c with
        | Some controller =>
            match heap w !! controller with
            | Some adapter =>
                onGamepadDisconnect
                  (Some (Host.deref host (Controller.gamepad adapter))) 0 w
            | None => Throw (TypeError "this is not an adapter")
            end
        | None => Normal w
        end;
      clear_loop host rest w
  end.

(** [THREE.VRController.clear] *)
Definition clear (host : Host.t) (w : World) : completion World :=
  clear_loop host (registry_keys (controllers w)) w.

End WithMath.

(** ** The getter [getAxes] *)

Module Lookup.
(** What [getAxes] can return: the array [axes], an element of it, or
    [undefined]. *)
Inductive t :=
| Whole (axes : list Axis.t)
| Element (axis : Axis.t)
| Missing.

Definition of_option (o : option Axis.t) : t :=
  match o with Some a => Element a | None => Missing end.
End Lookup.

(** The number [i] as a JavaScript value. *)
Definition number_of_nat (i : nat) : number :=
  Nat.iter i (fun x => (x + 1)%float) 0%float.

(** [a[ index ]] for a numeric [index]: the element whose position equals
    [index], [undefined] when there is none. *)
Definition array_get {A} (a : list A) (index : number) : option A :=
  i ← find (fun i => (number_of_nat i =? index)%float) (seq 0 (length a));
  a !! i.

(** Reading an identifier that no enclosing function declares: the
    property of the global object, or a [ReferenceError]. *)
Definition read_global (globals : gmap string JS.value) (ident : string)
  : completion JS.value :=
  match globals !! ident with
  | Some v => Normal v
  | None => Throw (ReferenceError ident)
  end.

Section WithMath.
Context {M : ThreeMath}.

(** [getAxes( index )].  The body names [nameOrIndex], which neither the
    getter nor the constructor declares, so each read goes to the global
    object [globals]. *)
Definition getAxes (globals : gmap string JS.value) (controller : Controller.t)
    (index : JS.value) : completion Lookup.t :=
  let axes := Closure.axes (Controller.closure controller) in
  let byName := Closure.axes_byName (Controller.closure controller) in
  nameOrIndex ← read_global globals "nameOrIndex";
  match nameOrIndex with
  | VUndefined => Normal (Lookup.Whole axes)
  | VStr name => Normal (Lookup.of_option (i ← byName !! name; axes !! i))
  | VNum _ =>
      Normal (Lookup.of_option
                (match index with VNum n => array_get axes n | _ => None end))
  | _ => Normal Lookup.Missing
  end.

(** [getHand()] *)
Definition getHand (controller : Controller.t) : string :=
  Closure.hand (Controller.closure controller).

End WithMath.

(** ** The getter [getButton] *)

(** The property names an object created by [{}] inherits from
    [Object.prototype]; reading one of them on [buttons.byName] gives the
    inherited value, not [undefined]. *)
Definition Object_prototype : list string :=
  [ "constructor"; "__defineGetter__"; "__defineSetter__"; "hasOwnProperty";
    "__lookupGetter__"; "__lookupSetter__"; "isPrototypeOf";
    "propertyIsEnumerable"; "toString"; "valueOf"; "__proto__";
    "toLocaleString" ].

Module ButtonLookup.
(** What [getButton] can return: an element of [buttons], a value
    inherited from [Object.prototype], or [undefined]. *)
Inductive t :=
| Element (button : Button.t)
| Inherited (key : string)
| Missing.

Definition of_option (o : option Button.t) : t :=
  match o with Some b => Element b | None => Missing end.
End ButtonLookup.

Section WithMath.
Context {M : ThreeMath}.

(** [getButton( nameOrIndex )] *)
Definition getButton (controller : Controller.t) (nameOrIndex : JS.value)
  : ButtonLookup.t :=
  let cl := Controller.closure controller in
  match nameOrIndex with
  | VStr nameOrIndex =>
      let nameOrIndex :=
        if String.eqb nameOrIndex "primary" then Closure.buttonNamePrimary cl
        else nameOrIndex in
      match Closure.buttons_byName cl !! nameOrIndex with
      | Some i => ButtonLookup.of_option (Closure.buttons cl !! i)
      | None =>
          if bool_decide (nameOrIndex ∈ Object_prototype)
          then ButtonLookup.Inherited nameOrIndex
          else ButtonLookup.Missing
      end
  | VNum nameOrIndex =>
      ButtonLookup.of_option (array_get (Closure.buttons cl) nameOrIndex)
  | _ => ButtonLookup.Missing
  end.

End WithMath.

(** * Reference values and vocabulary of the statements *)

(** [key] occurs in [s]. *)
Definition is_substring (key s : string) : Prop :=
  exists pre post, s = pre +:+ key +:+ post.

(** ** An executable instance of the mathematics

    The formulas are those of three.js (release 89, the one this program
    was written against) on binary64 numbers.  ECMAScript leaves
    [Math.sin], [Math.cos], [Math.asin], [Math.acos] and [Math.atan2]
    implementation-approximated; here they are truncated series.  The
    instance serves to run the model on concrete inputs; every general
    statement below holds for all instances. *)
Module FloatThree.

Local Open Scope float_scope.

Record quat := mkQuat { qx : float; qy : float; qz : float; qw : float }.
Record vec := mkVec { vx : float; vy : float; vz : float }.

(** [Matrix4.elements], column-major. *)
Definition mat := list float.

Definition PI : float := 3.141592653589793.

(** [sum_{k < n} term_k], each term obtained from the previous one. *)
Fixpoint series (n : nat) (k : float) (term acc : float) (next : float -> float -> float)
  : float :=
  match n with
  | O => acc
  | S n' => series n' (k + 1) (next k term) (acc + term) next
  end.

(** Sine and cosine by their Maclaurin series, for the angles the arm
    model produces (within a turn of zero). *)
Definition sin (x : float) : float :=
  series 14 1 x 0 (fun k t => - t * x * x / ((2 * k) * (2 * k + 1))).

Definition cos (x : float) : float :=
  series 14 1 1 0 (fun k t => - t * x * x / ((2 * k - 1) * (2 * k))).

(** Arctangent: three halvings of the angle, then the series. *)
Definition atan_half (x : float) : float := x / (1 + sqrt (1 + x * x)).

Definition atan (x : float) : float :=
  let y := atan_half (atan_half (atan_half x)) in
  8 * series 12 0 y 0 (fun k t => - t * y * y * (2 * k + 1) / (2 * k + 3)).

Definition atan2 (y x : float) : float :=
  if 0 <? x then atan (y / x)
  else if x <? 0 then (if y <? 0 then atan (y / x) - PI else atan (y / x) + PI)
  else if 0 <? y then PI / 2
  else if y <? 0 then - (PI / 2)
  else 0.

Definition asin (x : float) : float := atan2 x (sqrt (1 - x * x)).
Definition acos (x : float) : float := atan2 (sqrt (1 - x * x)) x.

(** [Math.pow( x, y )] for a small non-negative integer [y]. *)
Definition pow (x y : float) : float :=
  match find (fun n => number_of_nat n =? y) (seq 0 64) with
  | Some n => Nat.iter n (fun p => p * x) 1
  | None => nan
  end.

(** [THREE.Math.clamp] *)
Definition clamp (value min max : float) : float := Math_max min (Math_min max value).

Definition nth_number (a : list float) (i : nat) : float :=
  match a !! i with Some v => v | None => nan end.

Definition quat_fromArray (a : list float) : quat :=
  mkQuat (nth_number a 0) (nth_number a 1) (nth_number a 2) (nth_number a 3).

Definition vec_fromArray (a : list float) : vec :=
  mkVec (nth_number a 0) (nth_number a 1) (nth_number a 2).

Definition quat_multiply (a b : quat) : quat :=
  mkQuat
    (qx a * qw b + qw a * qx b + qy a * qz b - qz a * qy b)
    (qy a * qw b + qw a * qy b + qz a * qx b - qx a * qz b)
    (qz a * qw b + qw a * qz b + qx a * qy b - qy a * qx b)
    (qw a * qw b - qx a * qx b - qy a * qy b - qz a * qz b).

Definition quat_length (q : quat) : float :=
  sqrt (qx q * qx q + qy q * qy q + qz q * qz q + qw q * qw q).

Definition quat_normalize (q : quat) : quat :=
  let l := quat_length q in
  if l =? 0 then mkQuat 0 0 0 1
  else let l := 1 / l in mkQuat (qx q * l) (qy q * l) (qz q * l) (qw q * l).

(** [inverse()] is [conjugate().normalize()]. *)
Definition quat_inverse (q : quat) : quat :=
  quat_normalize (mkQuat (qx q * -1) (qy q * -1) (qz q * -1) (qw q)).

Definition quat_slerp (q qb : quat) (t : float) : quat :=
  if t =? 0 then q
  else if t =? 1 then qb
  else
    let cosHalfTheta := qw q * qw qb + qx q * qx qb + qy q * qy qb + qz q * qz qb in
    let '(b, cosHalfTheta) :=
      if cosHalfTheta <? 0
      then (mkQuat (- qx qb) (- qy qb) (- qz qb) (- qw qb), - cosHalfTheta)
      else (qb, cosHalfTheta) in
    if 1 <=? cosHalfTheta then q
    else
      let sinHalfTheta := sqrt (1 - cosHalfTheta * cosHalfTheta) in
      if abs sinHalfTheta <? 0.001 then
        mkQuat (0.5 * (qx q + qx b)) (0.5 * (qy q + qy b)) (0.5 * (qz q + qz b))
          (0.5 * (qw q + qw b))
      else
        let halfTheta := atan2 sinHalfTheta cosHalfTheta in
        let ratioA := sin ((1 - t) * halfTheta) / sinHalfTheta in
        let ratioB := sin (t * halfTheta) / sinHalfTheta in
        mkQuat (qx q * ratioA + qx b * ratioB) (qy q * ratioA + qy b * ratioB)
          (qz q * ratioA + qz b * ratioB) (qw q * ratioA + qw b * ratioB).

(** The rotation part of [makeRotationFromQuaternion], by rows. *)
Definition rotation (q : quat)
  : (float * float * float) * (float * float * float) * (float * float * float) :=
  let x2 := qx q + qx q in
  let y2 := qy q + qy q in
  let z2 := qz q + qz q in
  let xx := qx q * x2 in
  let xy := qx q * y2 in
  let xz := qx q * z2 in
  let yy := qy q * y2 in
  let yz := qy q * z2 in
  let zz := qz q * z2 in
  let wx := qw q * x2 in
  let wy := qw q * y2 in
  let wz := qw q * z2 in
  ((1 - (yy + zz), xy - wz, xz + wy),
   (xy + wz, 1 - (xx + zz), yz - wx),
   (xz - wy, yz + wx, 1 - (xx + yy))).

Definition euler_setFromQuaternion_YXZ (q : quat) : float * float * float :=
  let '((m11, m12, m13), (m21, m22, m23), (m31, m32, m33)) := rotation q in
  let x := asin (- clamp m23 (-1) 1) in
  if abs m23 <? 0.99999 then (x, atan2 m13 m33, atan2 m21 m22)
  else (x, atan2 (- m31) m11, 0).

Definition quat_setFromEuler_YXZ (e : float * float * float) : quat :=
  let '(x, y, z) := e in
  let c1 := cos (x / 2) in
  let c2 := cos (y / 2) in
  let c3 := cos (z / 2) in
  let s1 := sin (x / 2) in
  let s2 := sin (y / 2) in
  let s3 := sin (z / 2) in
  mkQuat (s1 * c2 * c3 + c1 * s2 * s3) (c1 * s2 * c3 - s1 * c2 * s3)
    (c1 * c2 * s3 - s1 * s2 * c3) (c1 * c2 * c3 + s1 * s2 * s3).

Definition vec_applyQuaternion (v : vec) (q : quat) : vec :=
  let ix := qw q * vx v + qy q * vz v - qz q * vy v in
  let iy := qw q * vy v + qz q * vx v - qx q * vz v in
  let iz := qw q * vz v + qx q * vy v - qy q * vx v in
  let iw := - qx q * vx v - qy q * vy v - qz q * vz v in
  mkVec
    (ix * qw q + iw * - qx q + iy * - qz q - iz * - qy q)
    (iy * qw q + iw * - qy q + iz * - qx q - ix * - qz q)
    (iz * qw q + iw * - qz q + ix * - qy q - iy * - qx q).

Definition vec_add (v w : vec) : vec := mkVec (vx v + vx w) (vy v + vy w) (vz v + vz w).

Definition vec_multiplyScalar (v : vec) (s : float) : vec :=
  mkVec (vx v * s) (vy v * s) (vz v * s).

Definition vec_lengthSq (v : vec) : float := vx v * vx v + vy v * vy v + vz v * vz v.

Definition vec_angleTo (v w : vec) : float :=
  let theta := (vx v * vx w + vy v * vy w + vz v * vz w)
               / sqrt (vec_lengthSq v * vec_lengthSq w) in
  acos (clamp theta (-1) 1).

Definition mat_identity : mat := [1; 0; 0; 0;  0; 1; 0; 0;  0; 0; 1; 0;  0; 0; 0; 1].

Definition mat_compose (position : vec) (q : quat) (scale : vec) : mat :=
  let '((m11, m12, m13), (m21, m22, m23), (m31, m32, m33)) := rotation q in
  [ m11 * vx scale; m21 * vx scale; m31 * vx scale; 0;
    m12 * vy scale; m22 * vy scale; m32 * vy scale; 0;
    m13 * vz scale; m23 * vz scale; m33 * vz scale; 0;
    vx position; vy position; vz position; 1 ].

(** Entry in row [r] and column [c]. *)
Definition mat_entry (m : mat) (r c : nat) : float := nth_number m (c * 4 + r).

Definition mat_multiplyMatrices (a b : mat) : mat :=
  c ← seq 0 4;
  r ← seq 0 4;
  [ mat_entry a r 0 * mat_entry b 0 c + mat_entry a r 1 * mat_entry b 1 c
    + mat_entry a r 2 * mat_entry b 2 c + mat_entry a r 3 * mat_entry b 3 c ].

Definition RAD2DEG : float := 180 / PI.

#[export] Instance math : ThreeMath := {|
  Quaternion := quat;
  Vector3 := vec;
  Matrix4 := mat;
  Quaternion_new := mkQuat 0 0 0 1;
  Vector3_new := mkVec;
  Matrix4_new := mat_identity;
  Quaternion_fromArray := quat_fromArray;
  Vector3_fromArray := vec_fromArray;
  Quaternion_slerp := quat_slerp;
  Quaternion_inverse := quat_inverse;
  Quaternion_multiply := quat_multiply;
  Euler_setFromQuaternion_YXZ := euler_setFromQuaternion_YXZ;
  Quaternion_setFromEuler_YXZ := quat_setFromEuler_YXZ;
  Vector3_applyQuaternion := vec_applyQuaternion;
  Vector3_add := vec_add;
  Vector3_multiplyScalar := vec_multiplyScalar;
  Vector3_angleTo := vec_angleTo;
  Matrix4_compose := mat_compose;
  Matrix4_multiplyMatrices := mat_multiplyMatrices;
  Math_radToDeg := fun radians => radians * RAD2DEG;
  Math_pow := pow
|}.

End FloatThree.

(** ** Sample devices *)

Definition released : GamepadButton.t := GamepadButton.mk 0 false false.

Definition tracked_pose : GamepadPose.t :=
  GamepadPose.mk true true (Some [0; 0; 0; 1]%float) (Some [0; 1; 0]%float).

(** An HTC Vive wand, as Chromium reports it. *)
Definition vive_wand (axes : list number) (buttons : list GamepadButton.t) : Gamepad.t :=
  Gamepad.mk "OpenVR Gamepad" 0 "right" axes buttons (Some tracked_pose) None.

(** A right-hand Oculus Touch controller. *)
Definition touch_right (axes : list number) (buttons : list GamepadButton.t)
  : Gamepad.t :=
  Gamepad.mk "Oculus Touch (Right)" 1 "right" axes buttons (Some tracked_pose) None.


Definition four_released : list GamepadButton.t := [released; released; released; released].

Definition six_released : list GamepadButton.t :=
  [released; released; released; released; released; released].

(** The [axes] payloads among dispatched events, in order. *)
Definition axes_payloads (events : list Event.t) : list (number * number) :=
  omap (fun e => match Event.payload e with
                 | Event.Axes x y => Some (x, y)
                 | _ => None
                 end) events.

(** The dead-zone rule in the words of the constructor's comment: the
    pair is zeroed when both components are within the threshold and is
    left as read otherwise. *)
Definition paired_deadzone (axisThreshold x y : number) : number * number :=
  if (axisThreshold <? Math_abs x)%float || (axisThreshold <? Math_abs y)%float
  then (x, y) else (0%float, 0%float).

(** The pair [pollForChanges] compares with the stored one, for raw
    values that pass the guard. *)
Definition fresh_pair (thr : number) (isThumbstick : bool) (x y : number)
  : number * number :=
  if isThumbstick then paired_deadzone thr x y else (x, y).

Definition pair_differs (stored : option number * option number)
    (fresh : number * number) : bool :=
  strict_ne_opt (fst stored) (Some (fst fresh))
  || strict_ne_opt (snd stored) (Some (snd fresh)).

(** The thumbstick of a right-hand Oculus Touch as the constructor leaves
    it for a stick at rest. *)
Definition thumbstick_at_rest : Axis.t :=
  Axis.mk "thumbstick" (0, 1) (Some 0%float, Some 0%float) true (make_dpad 0 1).

(** The thumbpad of a Vive wand as the constructor leaves it for a finger
    off the pad. *)
Definition thumbpad_untouched : Axis.t :=
  Axis.mk "thumbpad" (0, 1) (Some 0%float, Some 0%float) false [].

(** The buttons, and then the adapter, the constructor builds for a Vive
    wand at rest. *)
Definition vive_buttons : list Button.t :=
  [ Button.mk "thumbpad" 0 false false false;
    Button.mk "trigger" 0 false false true;
    Button.mk "grip" 0 false false false;
    Button.mk "menu" 0 false false false ].

Definition vive_adapter : Controller.t (M := FloatThree.math) :=
  {| Controller.object3D := initial_object3D;
     Controller.gamepad := 0;
     Controller.style := "vive";
     Controller.standingMatrix := Matrix4_new;
     Controller.head := Controller.mkHead (Vector3_new 0 0 0) Quaternion_new;
     Controller.name := "OpenVR Gamepad";
     Controller.dof := 6;
     Controller.axisThreshold := 0.2%float;
     Controller.axisPressThreshold := 0.6%float;
     Controller.vibeChannels := initial_vibeChannels;
     Controller.hasPosed := false;
     Controller.armModel := None;
     Controller.closure :=
       Closure.mk "right" [thumbpad_untouched]
         (index_byName Axis.name [thumbpad_untouched])
         vive_buttons (index_byName Button.name vive_buttons) "trigger" |}.

(** Whether the raw values of an axis pair pass the guard
    [gamepad.axes[ i0 ] && gamepad.axes[ i1 ]], and the pair then compared
    with the stored one. *)
Definition guarded_pair (thr : number) (gp : Gamepad.t) (ax : Axis.t)
  : option (number * number) :=
  match Gamepad.axes gp !! fst (Axis.indexes ax),
        Gamepad.axes gp !! snd (Axis.indexes ax) with
  | Some x, Some y =>
      if truthy x && truthy y
      then Some (fresh_pair thr (Axis.isThumbstick ax) x y)
      else None
  | _, _ => None
  end.

Fixpoint suffixes (s : string) : list string :=
  s :: match s with
       | EmptyString => []
       | String _ s' => suffixes s'
       end.

Definition action (b : bool) : string := if b then "began" else "ended".

(** What the constructor relies on in a catalog entry: it lists its
    buttons and names one of them, once, as primary, and that name is not
    one of the generic names. *)
Definition wf_supported (s : Supported.t) : bool :=
  match Supported.buttons s, Supported.primary s with
  | Some names, Some p =>
      bool_decide (count_occ String.string_dec names p = 1)
      && negb (String.prefix "button_" p)
  | _, _ => false
  end.

(** A Daydream controller: orientation only. *)
Definition daydream (pose : GamepadPose.t) : Gamepad.t :=
  Gamepad.mk "Daydream Controller" 0 "right" [0; 0]%float [released] (Some pose) None.

Definition orientation_only : GamepadPose.t :=
  GamepadPose.mk true false (Some [0; 0; 0; 1]%float) None.

(** A host that reports one device in slot 0, in the given state. *)
Definition one_device (gp : Gamepad.t) : Host.t :=
  Host.mk (Some [Host.Handle 0]) (fun _ => gp) (fun _ _ => 16%float).

(** Clamping to the unit interval, in the usual words: at most [0] gives
    [0], at least [1] gives [1], anything between is kept; [NaN] stays. *)
Definition clamp_unit (x : number) : number :=
  if is_NaN x then nan
  else if (x <=? 0)%float then 0%float
  else if (1 <=? x)%float then 1%float
  else x.

Definition named_disconnected (e : Event.t) : Prop := Event.type e = "disconnected".

(** A Vive wand that has been switched off: the slot still holds the
    handle, the pose is gone. *)
Definition vive_switched_off : Gamepad.t :=
  Gamepad.mk "OpenVR Gamepad" 0 "right" [0; 0]%float four_released None None.

(** The adapter of a Vive wand that has posed, alone in the registry. *)
Definition posed_vive_adapter : Controller.t (M := FloatThree.math) :=
  Controller.with_spatial vive_adapter (Controller.object3D vive_adapter) true None.

Definition vive_registered : World (M := FloatThree.math) :=
  mkWorld {[ 0 := posed_vive_adapter ]} 1 {[ 0 := 0 ]} [].

(** One tick of the poll loop with the wand in slot 0 leaves its adapter
    posed and registered under index 0. *)
Definition registry_view (r : completion (World (M := FloatThree.math))) :
    option (option nat * option bool * list Effect.t) :=
  match r with
  | Normal w =>
      Some (controllers w !! 0,
            Controller.hasPosed (M := FloatThree.math) <$> heap w !! 0, log w)
  | Throw _ => None
  end.

Module ArmRun.
Section WithMath.
Context {M : ThreeMath}.

(** What the adapter feeds the arm model before each [update()]. *)
Record Input := mkInput {
  headPos : Vector3;
  headQ : Quaternion;
  controllerQ : Quaternion
}.

(** The calls of one tick, in the order of the adapter's [update]. *)
Definition tick (a : OrientationArmModel.t) (i : Input) (now : number)
  : OrientationArmModel.t :=
  let a := OrientationArmModel.setHeadPosition a (headPos i) in
  let a := OrientationArmModel.setHeadOrientation a (headQ i) in
  let a := OrientationArmModel.setControllerOrientation a (controllerQ i) in
  OrientationArmModel.update a now.

(** The poses [getPose()] returns after each tick. *)
Fixpoint run (a : OrientationArmModel.t) (ticks : list (Input * number))
  : list OrientationArmModel.Pose :=
  match ticks with
  | [] => []
  | (i, now) :: rest =>
      let a' := tick a i now in
      OrientationArmModel.getPose a' :: run a' rest
  end.

(** The elapsed time each [update()] computes, [this.time -
    this.lastTime], for the clock readings [clock]. *)
Fixpoint elapsed_times (lastTime : option number) (clock : list number)
  : list number :=
  match clock with
  | [] => []
  | now :: rest =>
      OrientationArmModel.elapsed now lastTime :: elapsed_times (Some now) rest
  end.

(** The time between consecutive [update()] calls. *)
Fixpoint between (clock : list number) : list number :=
  match clock with
  | t0 :: (t1 :: _) as rest => (t1 - t0)%float :: between rest
  | _ => []
  end.

(** Two instances that agree on everything but the clock fields. *)
Definition same_but_clock (a b : OrientationArmModel.t) : Prop :=
  OrientationArmModel.isLeftHanded a = OrientationArmModel.isLeftHanded b /\
  OrientationArmModel.controllerQ a = OrientationArmModel.controllerQ b /\
  OrientationArmModel.lastControllerQ a = OrientationArmModel.lastControllerQ b /\
  OrientationArmModel.headQ a = OrientationArmModel.headQ b /\
  OrientationArmModel.headPos a = OrientationArmModel.headPos b /\
  OrientationArmModel.elbowPos a = OrientationArmModel.elbowPos b /\
  OrientationArmModel.wristPos a = OrientationArmModel.wristPos b /\
  OrientationArmModel.rootQ a = OrientationArmModel.rootQ b /\
  OrientationArmModel.pose a = OrientationArmModel.pose b.

End WithMath.
End ArmRun.

(** The head turned a quarter turn to the left, the controller raised by
    thirty degrees. *)
Definition raised : ArmRun.Input (M := FloatThree.math) :=
  ArmRun.mkInput (M := FloatThree.math) (FloatThree.mkVec 0 1.6 0)
    (FloatThree.mkQuat 0 0.7071067811865476 0 0.7071067811865476)
    (FloatThree.mkQuat 0.25881904510252074 0 0 0.9659258262890683).

(** Whether the first pose of a run has its position left of the origin
    (a negative x). *)
Definition first_leans_left
    (poses : list (OrientationArmModel.Pose (M := FloatThree.math))) : bool :=
  match poses with
  | p :: _ =>
      (FloatThree.vx (OrientationArmModel.position p) <? 0)%float
  | [] => false
  end.

Section Vocabulary.
Context {M : ThreeMath}.

(** The properties of an adapter that are set by the constructor and read
    by everything else. *)
Definition same_identity (c c' : Controller.t) : Prop :=
  Controller.dof c' = Controller.dof c /\
  Controller.gamepad c' = Controller.gamepad c /\
  Controller.name c' = Controller.name c /\
  Controller.style c' = Controller.style c /\
  map Button.isPrimary (Closure.buttons (Controller.closure c'))
  = map Button.isPrimary (Closure.buttons (Controller.closure c)) /\
  map Button.name (Closure.buttons (Controller.closure c'))
  = map Button.name (Closure.buttons (Controller.closure c)).

(** Addresses from [next] on are free. *)
Definition wf_world (w : World) : Prop :=
  forall a, next w <= a -> heap w !! a = None.

(** Every adapter of [w] is still there in [w'], with the identity it
    had. *)
Definition keeps_identity (w w' : World) : Prop :=
  forall a c,
    heap w !! a = Some c ->
    exists c', heap w' !! a = Some c' /\ same_identity c c'.

(** The parts of an adapter that only the pose part of [update] writes. *)
Definition spatial (c : Controller.t)
  : Controller.Object3D * bool * option OrientationArmModel.t :=
  (Controller.object3D c, Controller.hasPosed c, Controller.armModel c).

(** What a dispatched effect has to be for it to count as a
    ["disconnected"] notification. *)
Definition is_disconnect_notification (e : Effect.t) : Prop :=
  match e with
  | Effect.Dispatched _ ev => named_disconnected ev
  | _ => False
  end.

End Vocabulary.

(** ** Vocabulary of the further properties *)

(** Whether the strings of a list are pairwise different. *)
Fixpoint distinct (l : list string) : bool :=
  match l with
  | [] => true
  | x :: l' => negb (existsb (String.eqb x) l') && distinct l'
  end.

(** What [getButton] relies on in a catalog entry: the button names are
    pairwise different, none is a generic name and none is the alias
    ["primary"]. *)
Definition plain_names (s : Supported.t) : bool :=
  match Supported.buttons s with
  | Some names =>
      distinct names
      && forallb (fun n => negb (String.prefix "button_" n)) names
      && negb (existsb (String.eqb "primary") names)
  | None => true
  end.

Section LaterVocabulary.
Context {M : ThreeMath}.

(** [later c c']: [c'] is what some sequence of calls on the adapter [c]
    leaves: polls, haptics calls, pose updates, and the two assignments
    the page makes ([standingMatrix], [head]). *)
Inductive later (c : Controller.t) : Controller.t -> Prop :=
| later_now : later c c
| later_pollForChanges c1 c2 gp events :
    later c c1 -> pollForChanges c1 gp = Normal (c2, events) -> later c c2
| later_setVibe c1 now name intensity :
    later c c1 -> later c (fst (setVibe c1 now name intensity))
| later_Scheduler_set c1 o intensity :
    later c c1 -> later c (Scheduler_set c1 o intensity)
| later_renderVibes c1 now :
    later c c1 -> later c (fst (renderVibes c1 now))
| later_applyVibes c1 gp now_render now :
    later c c1 -> later c (fst (applyVibes c1 gp now_render now))
| later_update_6dof c1 orientation position :
    later c c1 -> later c (update_6dof c1 orientation position)
| later_update_3dof c1 orientation now :
    later c c1 -> later c (update_3dof c1 orientation now)
| later_standingMatrix c1 m :
    later c c1 -> later c (Controller.with_standingMatrix c1 m)
| later_head c1 h :
    later c c1 -> later c (Controller.with_head c1 h).

(** The lookup tables of [getButton] as the constructor leaves them. *)
Definition buttons_indexed (c : Controller.t) : Prop :=
  let cl := Controller.closure c in
  Closure.buttons_byName cl = index_byName Button.name (Closure.buttons cl) /\
  NoDup (map Button.name (Closure.buttons cl)) /\
  ~ In "primary" (map Button.name (Closure.buttons cl)).

End LaterVocabulary.

Section TablesVocabulary.
Context {M : ThreeMath}.

(** What stays of the closure whatever is called on the adapter. *)
Definition same_tables (c c' : Controller.t) : Prop :=
  Closure.buttons_byName (Controller.closure c')
  = Closure.buttons_byName (Controller.closure c) /\
  Closure.buttonNamePrimary (Controller.closure c')
  = Closure.buttonNamePrimary (Controller.closure c) /\
  map Button.name (Closure.buttons (Controller.closure c'))
  = map Button.name (Closure.buttons (Controller.closure c)) /\
  map Button.isPrimary (Closure.buttons (Controller.closure c'))
  = map Button.isPrimary (Closure.buttons (Controller.closure c)).

End TablesVocabulary.

(** The state of a tracked button that a poll compares with the raw
    record. *)
Definition button_state (b : Button.t) : number * bool * bool :=
  (Button.value b, Button.isTouched b, Button.isPressed b).

Definition raw_state (raw : GamepadButton.t) : number * bool * bool :=
  (GamepadButton.value raw, GamepadButton.touched raw, GamepadButton.pressed raw).

(** An event that reports an emulated d-pad direction as newly pressed. *)
Definition dpad_press_began (e : Event.t) : Prop :=
  exists name d,
    e = Event.mk (name +:+ " " +:+ DPad.direction_name d +:+ " press began")
          Event.NoDetail.
(** The same number by [===], or both [NaN]. *)
Definition same_number (a b : number) : Prop :=
  a = b \/ (a =? b)%float = true.
Section HapticsVocabulary.
Context {M : ThreeMath}.

(** The channels of an adapter, in creation order. *)
Definition channels_of (c : Controller.t) : list VibeChannel.t :=
  VibeChannels.channels (Controller.vibeChannels c).

End HapticsVocabulary.

Section HapticsInvariant.
Context {M : ThreeMath}.

(** What holds of the channels between any two calls: the names are
    pairwise different, the first channel is the default one, and every
    intensity is a number. *)
Definition channels_ok (c : Controller.t) : Prop :=
  NoDup (map VibeChannel.name (channels_of c)) /\
  (exists ch rest, channels_of c = ch :: rest /\ VibeChannel.name ch = "") /\
  Forall (fun ch => typeof_number (VibeChannel.intensity ch) = true) (channels_of c).

End HapticsInvariant.

(** A wand with one haptic actuator, and the wand's adapter with the
    default channel set to half intensity. *)
Definition vive_with_actuator : Gamepad.t :=
  Gamepad.mk "OpenVR Gamepad" 0 "right" [0; 0]%float four_released
    (Some tracked_pose) (Some [true]).

Definition vive_humming : Controller.t (M := FloatThree.math) :=
  fst (setVibe vive_adapter 0 (VNum 0.5) VUndefined).

Section UpdateVocabulary.
Context {M : ThreeMath}.

(** The world after the first two steps of [update] on the adapter at
    [this]: the adapter as the poll and the haptics leave it, and their
    effects. *)
Definition after_poll_and_vibes (host : Host.t) (this : nat) (w : World)
    (polled : Controller.t) (events : list Event.t) : Controller.t * World :=
  let h := Controller.gamepad polled in
  let vibes :=
    applyVibes polled (Host.deref host h)
      (Host.performance_now host h Host.InRenderVibes)
      (Host.performance_now host h Host.InApplyVibes) in
  (fst vibes,
   mkWorld (<[this := fst vibes]> (heap w)) (next w) (controllers w)
     (log w ++ map (Effect.Dispatched this) events
            ++ map (fun p => Effect.Pulsed h (fst p) (snd p)) (snd vibes))).

(** What the page sets on an adapter and [update] reads. *)
Definition frame (c : Controller.t) : Matrix4 * Controller.Head :=
  (Controller.standingMatrix c, Controller.head c).

End UpdateVocabulary.
(** The adapter of a Vive wand that has not posed yet, alone in the
    registry. *)
Definition vive_connected : World (M := FloatThree.math) :=
  mkWorld {[ 0 := vive_adapter ]} 1 {[ 0 := 0 ]} [].

(** A wand that reports its orientation and no position. *)
Definition vive_orientation_only : Gamepad.t :=
  Gamepad.mk "OpenVR Gamepad" 0 "right" [0; 0]%float four_released
    (Some orientation_only) None.

(** The notification [onGamepadDisconnect] dispatches on an adapter. *)
Definition disconnected_on (adapter : nat) : Effect.t :=
  Effect.Dispatched adapter (Event.mk "disconnected" Event.Self).

Section RegistryVocabulary.
Context {M : ThreeMath}.

(** Every adapter of the registry sits under the index its device
    reports. *)
Definition registry_aligned (host : Host.t) (w : World) : Prop :=
  forall i adapter,
    controllers w !! i = Some adapter ->
    exists c,
      heap w !! adapter = Some c /\
      Gamepad.index (Host.deref host (Controller.gamepad c)) = i.

End RegistryVocabulary.

(** The adapters announced by ["vr controller connected"] among some
    effects, in order. *)
Definition connections (effects : list Effect.t) : list nat :=
  omap (fun e => match e with
                 | Effect.WindowDispatched _ adapter => Some adapter
                 | _ => None
                 end) effects.

(** Every device sits in the slot its [index] names. *)
Definition slots_aligned (host : Host.t) (gamepads : list Host.slot) : Prop :=
  forall i h,
    gamepads !! i = Some (Host.Handle h) -> Gamepad.index (Host.deref host h) = i.

(** The slots, from [i] on, that hold a device and have no adapter. *)
Fixpoint unregistered (controllers : gmap nat nat) (i : nat)
    (gamepads : list Host.slot) : list nat :=
  match gamepads with
  | [] => []
  | slot :: rest =>
      match slot, controllers !! i with
      | Host.Handle _, None => i :: unregistered controllers (S i) rest
      | _, _ => unregistered controllers (S i) rest
      end
  end.

(** An event that carries no hand. *)
Definition carries_no_hand (e : Event.t) : Prop :=
  forall hand, Event.payload e <> Event.Hand hand.

(** The emulated d-pad of a thumbstick over the raw indexes [i0] and
    [i1], with the pressed flags of up, down, left and right. *)
Definition dpad_of (i0 i1 : nat) (up down left right : bool) : list DPad.t :=
  [ DPad.mk DPad.up i1 up; DPad.mk DPad.down i1 down;
    DPad.mk DPad.left i0 left; DPad.mk DPad.right i0 right ].

(** What a poll dispatches for a direction whose flag goes from [old] to
    [new]. *)
Definition dpad_press (name : string) (d : DPad.direction) (old new : bool)
  : list Event.t :=
  if negb (eqb old new)
  then [Event.mk (name +:+ " " +:+ DPad.direction_name d +:+ " press " +:+ action new)
          Event.NoDetail]
  else [].

Module Change.
(** What a poll can report of a button: a new value, a touch that began
    or ended, a press that began or ended. *)
Inductive t :=
| Value (v : number)
| Touch (began : bool)
| Press (began : bool).

Definition suffix (k : t) : string :=
  match k with
  | Value _ => " value changed"
  | Touch began => " touch " +:+ action began
  | Press began => " press " +:+ action began
  end.

Definition detail (k : t) : Event.detail :=
  match k with
  | Value v => Event.Value v
  | _ => Event.NoDetail
  end.
End Change.

(** The event that reports the change [k] under the name [name]. *)
Definition button_event (name : string) (k : Change.t) : Event.t :=
  Event.mk (name +:+ Change.suffix k) (Change.detail k).

(** Whether the raw record [raw] differs from the tracked button [b] in
    the way [k] says. *)
Definition fires (raw : GamepadButton.t) (b : Button.t) (k : Change.t) : Prop :=
  match k with
  | Change.Value v =>
      strict_ne (Button.value b) (GamepadButton.value raw) = true /\
      v = GamepadButton.value raw
  | Change.Touch began =>
      Button.isTouched b <> GamepadButton.touched raw /\
      began = GamepadButton.touched raw
  | Change.Press began =>
      Button.isPressed b <> GamepadButton.pressed raw /\
      began = GamepadButton.pressed raw
  end.

(** The names a primary button can have: those the catalog entries
    declare and the two generic ones. *)
Definition primary_names : list string :=
  ["thumbpad"; "trigger"; "touchpad"; "a"; "button_0"; "button_1"].

(** One comparison of [poll_button]: the event under the button's name and,
    for the primary button, the same under ["primary"]. *)
Definition report (changed primary : bool) (own alias : Event.t) : list Event.t :=
  if changed then own :: (if primary then [alias] else []) else [].

(** * Verification *)

(** ** Strings *)

Lemma append_nil (t : string) : "" +:+ t = t.
Proof. reflexivity. Qed.

Lemma append_cons (a : Ascii.ascii) (s t : string) :
  String a s +:+ t = String a (s +:+ t).
Proof. reflexivity. Qed.

Lemma prefix_spec (key s : string) :
  String.prefix key s = true <-> exists post, s = key +:+ post.
Proof.
  revert s. induction key as [|a key IH]; intros s.
  - simpl. split; [intros _; exists s; reflexivity | destruct s; reflexivity].
  - destruct s as [|b s]; simpl.
    + split; [discriminate | intros [post H]; discriminate].
    + destruct (Ascii.ascii_dec a b) as [->|Hab].
      * rewrite IH. split; intros [post H]; exists post;
          rewrite append_cons in *; congruence.
      * split; [discriminate | intros [post H]].
        rewrite append_cons in H. congruence.
Qed.

Lemma indexOf_from_found (pos : Z) (s key : string) :
  (0 <= pos)%Z ->
  (0 <= indexOf_from pos s key)%Z <-> is_substring key s.
Proof.
  revert pos. induction s as [|a s IH]; intros pos Hpos; cbn [indexOf_from].
  - destruct (String.prefix key "") eqn:E.
    + split; [intros _ | lia].
      apply prefix_spec in E as [post E]. exists "", post. exact E.
    + split; [lia |]. intros (pre & post & H).
      destruct pre; [|discriminate]. rewrite append_nil in H.
      assert (String.prefix key "" = true) by (apply prefix_spec; eauto).
      congruence.
  - destruct (String.prefix key (String a s)) eqn:E.
    + split; [intros _ | lia].
      apply prefix_spec in E as [post E]. exists "", post. exact E.
    + rewrite IH by lia. split.
      * intros (pre & post & H). exists (String a pre), post.
        rewrite append_cons. congruence.
      * intros (pre & post & H). destruct pre as [|b pre].
        -- rewrite append_nil in H.
           assert (String.prefix key (String a s) = true)
             by (apply prefix_spec; eauto).
           congruence.
        -- rewrite append_cons in H. exists pre, post. congruence.
Qed.

Lemma indexOf_found (s key : string) :
  (0 <=? indexOf s key)%Z = true <-> is_substring key s.
Proof.
  rewrite Z.leb_le. apply indexOf_from_found. lia.
Qed.

(** ** Capability catalog *)

Lemma getSupportedById_loop_Some (keys : list string) (id : string) (s : Supported.t) :
  getSupportedById_loop keys id = Some s <->
  exists pre key post,
    keys = pre ++ key :: post /\ is_substring key id /\
    (forall k, In k pre -> ~ is_substring k id) /\
    assoc_get supported key = Some s.
Proof.
  induction keys as [|k keys IH]; simpl.
  - split; [discriminate | intros (pre & key & post & H & _)].
    destruct pre; discriminate.
  - destruct (0 <=? indexOf id k)%Z eqn:E.
    + apply indexOf_found in E. split.
      * intros H. exists [], k, keys. simpl. intuition.
      * intros (pre & key & post & H & Hsub & Hpre & Hget).
        destruct pre as [|k' pre]; simpl in H; inversion H; subst; [assumption|].
        exfalso. apply (Hpre k'); [left; reflexivity | assumption].
    + assert (Hk : ~ is_substring k id).
      { intros Hs. apply indexOf_found in Hs. congruence. }
      rewrite IH. split.
      * intros (pre & key & post & H & Hsub & Hpre & Hget).
        exists (k :: pre), key, post. subst keys. simpl.
        split; [reflexivity|]. split; [assumption|]. split; [|assumption].
        intros k' [<-|Hin]; [assumption | apply Hpre; assumption].
      * intros (pre & key & post & H & Hsub & Hpre & Hget).
        destruct pre as [|k' pre]; simpl in H; inversion H; subst.
        -- contradiction.
        -- exists pre, key, post. split; [reflexivity|]. split; [assumption|].
           split; [|assumption]. intros k'' Hin. apply Hpre. right. assumption.
Qed.

Lemma assoc_get_supportedKeys (key : string) :
  In key supportedKeys -> is_Some (assoc_get supported key).
Proof.
  vm_compute. intros H.
  repeat (destruct H as [<-|H]; [eexists; reflexivity|]). contradiction.
Qed.

Lemma getSupportedById_loop_None (keys : list string) (id : string) :
  (forall k, In k keys -> is_Some (assoc_get supported k)) ->
  getSupportedById_loop keys id = None <->
  (forall k, In k keys -> ~ is_substring k id).
Proof.
  induction keys as [|k keys IH]; simpl; intros Hall.
  - split; [intros _ k [] | reflexivity].
  - destruct (0 <=? indexOf id k)%Z eqn:E.
    + apply indexOf_found in E. split.
      * intros H. destruct (Hall k) as [s Hs]; [left; reflexivity | congruence].
      * intros H. exfalso. apply (H k); [left; reflexivity | assumption].
    + rewrite IH by (intros k' Hin; apply Hall; right; assumption).
      split.
      * intros H k' [<-|Hin]; [|apply H; assumption].
        intros Hs. apply indexOf_found in Hs. congruence.
      * intros H k' Hin. apply H. right. assumption.
Qed.

(** ** The constructor on a device the catalog does not know *)

Lemma alter_preserves {A B} (f : A -> A) (g : A -> B) (i : nat) (l : list A) :
  (forall x, g (f x) = g x) -> map g (alter f i l) = map g l.
Proof.
  intros Hfg. revert i. induction l as [|x l IH]; intros [|i]; simpl; try reflexivity.
  - rewrite Hfg. reflexivity.
  - f_equal. apply IH.
Qed.

Lemma mark_primary_names (buttons : list Button.t) (byName : gmap string nat)
    (p : string) :
  map Button.name (mark_primary buttons byName p) = map Button.name buttons.
Proof.
  unfold mark_primary. destruct (byName !! p); [|reflexivity].
  apply alter_preserves. reflexivity.
Qed.

Lemma map_imap {A B C} (g : B -> C) (f : nat -> A -> B) (l : list A) :
  map g (imap f l) = imap (fun i x => g (f i x)) l.
Proof.
  revert f. induction l as [|x l IH]; intros f; simpl; [reflexivity|].
  f_equal. apply IH.
Qed.

Lemma imap_make_button_names (raw : list GamepadButton.t) :
  map Button.name (imap make_button raw)
  = imap (fun i _ => "button_" +:+ string_of_nat i) raw.
Proof. rewrite map_imap. reflexivity. Qed.

Section Fallback.
Context {M : ThreeMath}.

Lemma VRController_unsupported (h : nat) (gamepad : Gamepad.t) :
  getSupportedById (Gamepad.id gamepad) = None ->
  exists c,
    VRController h gamepad = Normal c /\
    Controller.style c = "" /\
    map Axis.name (Closure.axes (Controller.closure c))
    = map (fun i => "axes_" +:+ string_of_nat (i + 1))
        (seq 0 (half_up (length (Gamepad.axes gamepad)))) /\
    map Button.name (Closure.buttons (Controller.closure c))
    = imap (fun i _ => "button_" +:+ string_of_nat i) (Gamepad.buttons gamepad).
Proof.
  intros Hnone. unfold VRController. rewrite Hnone. simpl.
  eexists. split; [reflexivity|]. simpl. split; [reflexivity|]. split.
  - rewrite map_map. reflexivity.
  - rewrite mark_primary_names. apply imap_make_button_names.
Qed.

End Fallback.

(** C6: [getSupportedById] walks the keys in catalog-definition order and
    returns the entry of the first key that occurs in the identifier as a
    substring; it returns nothing exactly when no key occurs in it, and
    the adapter built for such a device has an empty style, axes named
    [axes_1], [axes_2], ... and buttons named [button_0], [button_1],
    ... *)
Theorem getSupportedById_first_substring {M : ThreeMath} (id : string) :
  (forall s,
     getSupportedById id = Some s <->
     exists pre key post,
       supportedKeys = pre ++ key :: post /\
       is_substring key id /\
       (forall k, In k pre -> ~ is_substring k id) /\
       assoc_get supported key = Some s) /\
  (getSupportedById id = None <->
   forall k, In k supportedKeys -> ~ is_substring k id) /\
  (getSupportedById id = None ->
   forall h gamepad,
     Gamepad.id gamepad = id ->
     exists c,
       VRController h gamepad = Normal c /\
       Controller.style c = "" /\
       map Axis.name (Closure.axes (Controller.closure c))
       = map (fun i => "axes_" +:+ string_of_nat (i + 1))
           (seq 0 (half_up (length (Gamepad.axes gamepad)))) /\
       map Button.name (Closure.buttons (Controller.closure c))
       = imap (fun i _ => "button_" +:+ string_of_nat i) (Gamepad.buttons gamepad)).
Proof.
  split; [|split].
  - intros s. apply getSupportedById_loop_Some.
  - apply getSupportedById_loop_None. apply assoc_get_supportedKeys.
  - intros Hnone h gamepad <-. apply VRController_unsupported. assumption.
Qed.

(** The keys in catalog-definition order, the aliases last. *)
Example supportedKeys_order :
  supportedKeys =
  [ "Daydream Controller"; "OpenVR Gamepad"; "Oculus Touch (Right)";
    "Oculus Touch (Left)"; "Spatial Controller (Spatial Interaction Source)";
    "Gear VR Controller"; "Gear VR Touchpad"; "Oculus Remote"; "xbox";
    "Xbox 360 Controller (XInput STANDARD GAMEPAD)";
    "Xbox One Wired Controller (STANDARD GAMEPAD Vendor: 045e Product: 02dd)";
    "xinput" ].
Proof. reflexivity. Qed.

(** A vendor suffix does not prevent the match; an unknown device has no
    entry; matching is case-sensitive. *)
Example getSupportedById_suffix :
  option_map Supported.style (getSupportedById "OpenVR Gamepad (serial 0042)")
  = Some "vive".
Proof. reflexivity. Qed.

Example getSupportedById_unknown : getSupportedById "Logitech Dual Action" = None.
Proof. reflexivity. Qed.

Example getSupportedById_xinput :
  getSupportedById "xinput controller" = Some xbox.
Proof. reflexivity. Qed.

(** ** The getter [getAxes] *)

(** C10: whatever its argument (none, a name, an index), [getAxes] throws
    a [ReferenceError] for [nameOrIndex] when the global object has no
    property of that name: the getter declares [index] and tests
    [nameOrIndex]. *)
Theorem getAxes_throws_ReferenceError {M : ThreeMath}
    (globals : gmap string JS.value) (controller : Controller.t) (index : JS.value) :
  globals !! "nameOrIndex" = None ->
  getAxes globals controller index = Throw (ReferenceError "nameOrIndex").
Proof.
  intros Hundeclared. unfold getAxes, read_global.
  rewrite Hundeclared. reflexivity.
Qed.

(** With a global of that name the getter answers, by the global and not
    by its argument. *)
Lemma getAxes_reads_global {M : ThreeMath} (globals : gmap string JS.value)
    (controller : Controller.t) (index : JS.value) :
  globals !! "nameOrIndex" = Some VUndefined ->
  getAxes globals controller index
  = Normal (Lookup.Whole (Closure.axes (Controller.closure controller))).
Proof.
  intros Hglobal. unfold getAxes, read_global. rewrite Hglobal. reflexivity.
Qed.

(** ** Numbers *)

Lemma truthy_eqb_refl (x : number) : truthy x = true -> (x =? x)%float = true.
Proof.
  unfold truthy, is_NaN. destruct (x =? x)%float; [reflexivity|].
  rewrite andb_false_r. discriminate.
Qed.

Lemma truthy_strict_ne_refl (x : number) : truthy x = true -> strict_ne x x = false.
Proof. intros H. unfold strict_ne. rewrite truthy_eqb_refl by assumption. reflexivity. Qed.

Lemma filterAxis_falsy (thr x : number) :
  truthy x = true ->
  negb (truthy (filterAxis thr (Some x))) = negb (thr <? Math_abs x)%float.
Proof.
  intros Hx. unfold filterAxis. destruct (thr <? Math_abs x)%float; simpl.
  - rewrite Hx. reflexivity.
  - reflexivity.
Qed.

Lemma filterAxis_zero (thr x : number) :
  (thr <? Math_abs x)%float = false -> filterAxis thr (Some x) = 0%float.
Proof. intros H. unfold filterAxis. rewrite H. reflexivity. Qed.

(** ** Change detection on one axis pair *)

Lemma poll_dpad_no_payload (pthr : number) (gp : Gamepad.t) (name : string)
    (l : list DPad.t) :
  axes_payloads (snd (poll_each (poll_dpad pthr gp name) l)) = [].
Proof.
  unfold poll_each, axes_payloads. simpl.
  induction l as [|d l IH]; simpl; [reflexivity|].
  rewrite omap_app, IH, app_nil_r.
  unfold poll_dpad. destruct (negb _); reflexivity.
Qed.

Lemma thumbstick_is_not_thumbpad (name : string) :
  startsWith name "thumbstick" = true -> String.eqb name "thumbpad" = false.
Proof.
  intros H. destruct (String.eqb name "thumbpad") eqn:E; [|reflexivity].
  apply String.eqb_eq in E. subst name. discriminate H.
Qed.

(** [poll_axis] on raw values that pass the guard, in closed form. *)
Lemma poll_axis_guarded (style : string) (thr pthr : number) (gp : Gamepad.t)
    (ax : Axis.t) (x y : number) :
  Gamepad.axes gp !! fst (Axis.indexes ax) = Some x ->
  Gamepad.axes gp !! snd (Axis.indexes ax) = Some y ->
  truthy x = true -> truthy y = true ->
  let fresh := fresh_pair thr (Axis.isThumbstick ax) x y in
  let changed := pair_differs (Axis.value ax) fresh in
  let dpad :=
    if Axis.isThumbstick ax
    then poll_each (poll_dpad pthr gp (Axis.name ax)) (Axis.dpad ax)
    else (Axis.dpad ax, []) in
  poll_axis style thr pthr gp ax
  = (Axis.mk (Axis.name ax) (Axis.indexes ax)
       (if changed then (Some (fst fresh), Some (snd fresh)) else Axis.value ax)
       (Axis.isThumbstick ax) (fst dpad),
     (if changed then
        [Event.mk (Axis.name ax +:+ " axes changed")
           (Event.Axes (fst fresh)
              (if String.eqb style "vive" && String.eqb (Axis.name ax) "thumbpad"
               then (snd fresh * -1)%float else snd fresh))]
      else [])
     ++ snd dpad).
Proof.
  intros H0 H1 Hx Hy. unfold poll_axis. rewrite H0, H1, Hx, Hy.
  cbn [andb fst snd]. rewrite !filterAxis_falsy by assumption.
  unfold fresh_pair, paired_deadzone, pair_differs.
  destruct (Axis.isThumbstick ax); cbn [andb].
  - destruct (thr <? Math_abs x)%float eqn:Ex; cbn [negb andb orb].
    + destruct (poll_each _ _); reflexivity.
    + destruct (thr <? Math_abs y)%float eqn:Ey; cbn [negb andb orb].
      * destruct (poll_each _ _); reflexivity.
      * rewrite !filterAxis_zero by assumption.
        destruct (poll_each _ _); reflexivity.
  - reflexivity.
Qed.

Lemma paired_deadzone_cases (thr x y : number) :
  paired_deadzone thr x y = (x, y)
  \/ paired_deadzone thr x y = (0%float, 0%float).
Proof.
  unfold paired_deadzone.
  destruct ((thr <? Math_abs x)%float || (thr <? Math_abs y)%float); auto.
Qed.

(** C1, as the code has it: on a thumbstick pair whose raw values pass
    the guard, the pair compared and delivered is all-or-nothing.  It is
    [(0, 0)] when both magnitudes are within the threshold and the raw
    pair otherwise, so one component is never zeroed next to a raw one;
    the notification carries that pair and the adapter stores it. *)
Theorem deadzone_all_or_nothing (style : string) (thr pthr : number)
    (gp : Gamepad.t) (ax : Axis.t) (x y : number) :
  Axis.isThumbstick ax = true ->
  startsWith (Axis.name ax) "thumbstick" = true ->
  Gamepad.axes gp !! fst (Axis.indexes ax) = Some x ->
  Gamepad.axes gp !! snd (Axis.indexes ax) = Some y ->
  truthy x = true -> truthy y = true ->
  let fresh := paired_deadzone thr x y in
  (fresh = (x, y) \/ fresh = (0%float, 0%float)) /\
  (fresh = (0%float, 0%float) <->
   (thr <? Math_abs x)%float = false /\ (thr <? Math_abs y)%float = false) /\
  axes_payloads (snd (poll_axis style thr pthr gp ax))
  = (if pair_differs (Axis.value ax) fresh then [fresh] else []) /\
  (pair_differs (Axis.value ax) fresh = true ->
   Axis.value (fst (poll_axis style thr pthr gp ax))
   = (Some (fst fresh), Some (snd fresh))).
Proof.
  intros Hstick Hname H0 H1 Hx Hy fresh.
  split; [apply paired_deadzone_cases|]. split.
  - subst fresh. unfold paired_deadzone.
    assert (Hraw : (x, y) <> (0%float, 0%float)).
    { intros E. inversion E; subst. discriminate Hx. }
    destruct (thr <? Math_abs x)%float, (thr <? Math_abs y)%float; simpl;
      split; auto; try contradiction; intros [? ?]; discriminate.
  - rewrite (poll_axis_guarded style thr pthr gp ax x y H0 H1 Hx Hy).
    rewrite Hstick. cbn [fst snd fresh_pair]. fold fresh.
    rewrite (thumbstick_is_not_thumbpad _ Hname), andb_false_r.
    split.
    + unfold axes_payloads. rewrite omap_app.
      fold (axes_payloads (poll_each (poll_dpad pthr gp (Axis.name ax)) (Axis.dpad ax)).2).
      rewrite poll_dpad_no_payload, app_nil_r.
      destruct (pair_differs (Axis.value ax) fresh); [|reflexivity].
      simpl. destruct fresh; reflexivity.
    + intros ->. reflexivity.
Qed.

Lemma deadzone_all_or_nothing_witness :
  axes_payloads
    (snd (poll_axis "oculus-touch-right" 0.2 0.6
            (touch_right [0.1; 0.5]%float six_released) thumbstick_at_rest))
  = [(0.1, 0.5)%float].
Proof.
  exact (proj1 (proj2 (proj2
    (deadzone_all_or_nothing "oculus-touch-right" 0.2 0.6
       (touch_right [0.1; 0.5]%float six_released) thumbstick_at_rest 0.1 0.5
       eq_refl eq_refl eq_refl eq_refl eq_refl eq_refl)))).
Defined.

(** The spec's example, run through the constructor and one poll: raw
    [(0.1, 0.5)] is delivered as read, not as [(0, 0)]. *)
Lemma deadzone_example_not_zeroed :
  let delivered :=
    c ← VRController (M := FloatThree.math) 1 (touch_right [0; 0]%float six_released);
    '(_, events) ← pollForChanges c (touch_right [0.1; 0.5]%float six_released);
    Normal (axes_payloads events) in
  delivered = Normal [(0.1, 0.5)%float]
  /\ delivered <> Normal [(0, 0)%float].
Proof.
  assert (E : (c ← VRController (M := FloatThree.math) 1
                     (touch_right [0; 0]%float six_released);
               '(_, events) ← pollForChanges c
                                (touch_right [0.1; 0.5]%float six_released);
               Normal (axes_payloads events)) = Normal [(0.1, 0.5)%float])
    by (vm_compute; reflexivity).
  cbv zeta. rewrite E. split; [reflexivity|].
  intros H.
  apply (f_equal (fun r => match r with
                           | Normal ((_, b) :: _) => (b =? 0)%float
                           | _ => true
                           end)) in H.
  discriminate H.
Qed.

(** ** The Vive thumbpad *)

(** C5: a change of the pair named [thumbpad] is delivered with its Y
    component multiplied by [-1] on a device of style [vive] and as read
    on a device of any other style; the stored pair keeps the raw Y either
    way.  Run through the constructor and one poll, raw [(0.3, 0.7)]
    arrives as [(0.3, -0.7)] from a Vive wand and as [(0.3, 0.7)] from a
    right-hand Oculus Touch, whose pair is named [thumbstick] and whose
    Y value of [0.7] also presses the emulated d-pad. *)
Theorem vive_thumbpad_Y_inverted :
  (forall (thr pthr : number) (gp : Gamepad.t) (ax : Axis.t) (x y : number),
     Axis.name ax = "thumbpad" ->
     Axis.isThumbstick ax = false ->
     Gamepad.axes gp !! fst (Axis.indexes ax) = Some x ->
     Gamepad.axes gp !! snd (Axis.indexes ax) = Some y ->
     truthy x = true -> truthy y = true ->
     pair_differs (Axis.value ax) (x, y) = true ->
     snd (poll_axis "vive" thr pthr gp ax)
     = [Event.mk "thumbpad axes changed" (Event.Axes x (y * -1)%float)]
     /\ Axis.value (fst (poll_axis "vive" thr pthr gp ax)) = (Some x, Some y)
     /\ forall style,
          style <> "vive" ->
          snd (poll_axis style thr pthr gp ax)
          = [Event.mk "thumbpad axes changed" (Event.Axes x y)]) /\
  (c ← VRController (M := FloatThree.math) 0 (vive_wand [0; 0]%float four_released);
   '(_, events) ← pollForChanges c (vive_wand [0.3; 0.7]%float four_released);
   Normal events)
  = Normal [Event.mk "thumbpad axes changed" (Event.Axes 0.3 (-0.7))] /\
  (c ← VRController (M := FloatThree.math) 1 (touch_right [0; 0]%float six_released);
   '(_, events) ← pollForChanges c (touch_right [0.3; 0.7]%float six_released);
   Normal events)
  = Normal [Event.mk "thumbstick axes changed" (Event.Axes 0.3 0.7);
            Event.mk "thumbstick down press began" Event.NoDetail].
Proof.
  split; [|split; vm_compute; reflexivity].
  intros thr pthr gp ax x y Hname Hpad H0 H1 Hx Hy Hdiff.
  assert (Hpoll := fun style => poll_axis_guarded style thr pthr gp ax x y H0 H1 Hx Hy).
  cbv zeta in Hpoll. rewrite Hpad, Hname in Hpoll.
  unfold fresh_pair in Hpoll. rewrite Hdiff in Hpoll. cbn [fst snd] in Hpoll.
  split; [|split].
  - rewrite Hpoll. reflexivity.
  - rewrite Hpoll. reflexivity.
  - intros style Hstyle. rewrite Hpoll. cbn [snd].
    destruct (String.eqb style "vive") eqn:E; [|reflexivity].
    apply String.eqb_eq in E. contradiction.
Qed.

Lemma vive_thumbpad_Y_inverted_witness :
  snd (poll_axis "vive" 0.2 0.6 (vive_wand [0.3; 0.7]%float four_released)
         thumbpad_untouched)
  = [Event.mk "thumbpad axes changed" (Event.Axes 0.3 (-0.7))].
Proof.
  exact (proj1 (proj1 vive_thumbpad_Y_inverted 0.2 0.6
                  (vive_wand [0.3; 0.7]%float four_released) thumbpad_untouched
                  0.3 0.7 eq_refl eq_refl eq_refl eq_refl eq_refl eq_refl eq_refl)%float).
Defined.

Example VRController_vive_wand :
  VRController 0 (vive_wand [0; 0]%float four_released) = Normal vive_adapter.
Proof. reflexivity. Qed.

(** The getter on that adapter, the global object holding the [d] that
    the d-pad loop leaves behind. *)
Lemma getAxes_throws_ReferenceError_witness :
  getAxes {[ "d" := VStr "right" ]} vive_adapter (VStr "thumbpad")
  = Throw (ReferenceError "nameOrIndex").
Proof.
  apply getAxes_throws_ReferenceError. reflexivity.
Defined.

(** ** Change notifications *)

Lemma poll_dpad_payload (pthr : number) (gp : Gamepad.t) (name : string)
    (l : list DPad.t) (e : Event.t) :
  In e (snd (poll_each (poll_dpad pthr gp name) l)) ->
  Event.payload e = Event.NoDetail.
Proof.
  unfold poll_each. simpl. induction l as [|d l IH]; simpl; [contradiction|].
  rewrite in_app_iff. intros [H|H]; [|apply IH; assumption].
  unfold poll_dpad in H. destruct (negb _); simpl in H; [|contradiction].
  destruct H as [<-|[]]. reflexivity.
Qed.

Lemma poll_axis_unguarded (style : string) (thr pthr : number) (gp : Gamepad.t)
    (ax : Axis.t) :
  guarded_pair thr gp ax = None -> poll_axis style thr pthr gp ax = (ax, []).
Proof.
  unfold guarded_pair, poll_axis.
  destruct (Gamepad.axes gp !! fst (Axis.indexes ax)) as [x|]; [|reflexivity].
  destruct (Gamepad.axes gp !! snd (Axis.indexes ax)) as [y|]; [|reflexivity].
  destruct (truthy x && truthy y); [discriminate | reflexivity].
Qed.

Lemma guarded_pair_Some (thr : number) (gp : Gamepad.t) (ax : Axis.t)
    (fresh : number * number) :
  guarded_pair thr gp ax = Some fresh ->
  exists x y,
    Gamepad.axes gp !! fst (Axis.indexes ax) = Some x /\
    Gamepad.axes gp !! snd (Axis.indexes ax) = Some y /\
    truthy x = true /\ truthy y = true /\
    fresh = fresh_pair thr (Axis.isThumbstick ax) x y.
Proof.
  unfold guarded_pair.
  destruct (Gamepad.axes gp !! fst (Axis.indexes ax)) as [x|]; [|discriminate].
  destruct (Gamepad.axes gp !! snd (Axis.indexes ax)) as [y|]; [|discriminate].
  destruct (truthy x) eqn:Hx, (truthy y) eqn:Hy; simpl; try discriminate.
  intros [= <-]. exists x, y. auto.
Qed.

Lemma axes_changed_iff (style : string) (thr pthr : number) (gp : Gamepad.t)
    (ax : Axis.t) :
  (exists x y,
     In (Event.mk (Axis.name ax +:+ " axes changed") (Event.Axes x y))
        (snd (poll_axis style thr pthr gp ax)))
  <-> exists fresh,
        guarded_pair thr gp ax = Some fresh /\
        pair_differs (Axis.value ax) fresh = true.
Proof.
  destruct (guarded_pair thr gp ax) as [fresh|] eqn:G.
  - destruct (guarded_pair_Some _ _ _ _ G) as (x & y & H0 & H1 & Hx & Hy & ->).
    rewrite (poll_axis_guarded style thr pthr gp ax x y H0 H1 Hx Hy). cbn [snd].
    split.
    + intros (x' & y' & Hin). eexists. split; [reflexivity|].
      apply in_app_iff in Hin as [Hin|Hin].
      * destruct (pair_differs _ _); [reflexivity | contradiction].
      * destruct (Axis.isThumbstick ax); [|contradiction].
        apply poll_dpad_payload in Hin. discriminate.
    + intros (fresh & [= <-] & ->). do 2 eexists.
      apply in_app_iff. left. left. reflexivity.
  - rewrite poll_axis_unguarded by assumption. split.
    + intros (x & y & []).
    + intros (fresh & [=] & _).
Qed.

Lemma suffixes_self (s : string) : In s (suffixes s).
Proof. destruct s; left; reflexivity. Qed.

Lemma app_suffixes (pre suf lit : string) : pre +:+ suf = lit -> In suf (suffixes lit).
Proof.
  revert lit. induction pre as [|a pre IH]; intros lit H.
  - rewrite append_nil in H. subst. apply suffixes_self.
  - rewrite append_cons in H. subst lit. right. apply IH. reflexivity.
Qed.

Lemma touch_is_not_press (name : string) (a b : bool) :
  name +:+ " touch " +:+ action a <> name +:+ " press " +:+ action b
  /\ name +:+ " touch " +:+ action a <> "primary press " +:+ action b
  /\ name +:+ " press " +:+ action a <> name +:+ " touch " +:+ action b
  /\ name +:+ " press " +:+ action a <> "primary touch " +:+ action b.
Proof.
  repeat split; intros H;
    try (apply String.app_inj in H; destruct a, b; discriminate H);
    apply app_suffixes in H; destruct a, b; simpl in H;
    repeat (destruct H as [H|H]; [discriminate H|]); contradiction.
Qed.

(** The three comparisons of [poll_button] and what each dispatches. *)
Lemma poll_button_events (raw : GamepadButton.t) (button : Button.t) :
  let name := Button.name button in
  (In (Event.mk (name +:+ " value changed") (Event.Value (GamepadButton.value raw)))
      (snd (poll_button raw button))
   <-> strict_ne (Button.value button) (GamepadButton.value raw) = true) /\
  (In (Event.mk (name +:+ " touch " +:+ action (GamepadButton.touched raw))
         Event.NoDetail)
      (snd (poll_button raw button))
   <-> Button.isTouched button <> GamepadButton.touched raw) /\
  (In (Event.mk (name +:+ " press " +:+ action (GamepadButton.pressed raw))
         Event.NoDetail)
      (snd (poll_button raw button))
   <-> Button.isPressed button <> GamepadButton.pressed raw).
Proof.
  intros name. unfold poll_button. fold name. cbn [snd]. fold action.
  destruct (touch_is_not_press name (GamepadButton.touched raw)
              (GamepadButton.pressed raw)) as (T1 & T2 & _ & _).
  destruct (touch_is_not_press name (GamepadButton.pressed raw)
              (GamepadButton.touched raw)) as (_ & _ & P1 & P2).
  rewrite !in_app_iff.
  destruct (strict_ne (Button.value button) (GamepadButton.value raw));
    destruct (Button.isTouched button), (GamepadButton.touched raw);
    destruct (Button.isPressed button), (GamepadButton.pressed raw);
    destruct (Button.isPrimary button);
    cbn [eqb negb In action] in *;
    (split; [|split]); split; intros H.
  all: try reflexivity.
  all: try (intros E; discriminate E).
  all: try (exfalso; apply H; reflexivity).
  all: try (left; left; reflexivity).
  all: try (right; left; left; reflexivity).
  all: try (right; right; left; reflexivity).
  all: exfalso; repeat (destruct H as [H|H]); try contradiction; try discriminate H.
  all: try (injection H as H; congruence).
Qed.

(** ** A second poll of the same raw state *)

Lemma poll_each_settled {A} (f : A -> A * list Event.t) (l : list A) :
  (forall x, f (fst (f x)) = (fst (f x), [])) ->
  poll_each f (fst (poll_each f l)) = (fst (poll_each f l), []).
Proof.
  intros Hf. unfold poll_each. cbn [fst].
  induction l as [|x l IH]; [reflexivity|].
  injection IH as IH1 IH2. simpl. rewrite Hf. cbn [fst snd app].
  rewrite IH1, IH2. reflexivity.
Qed.

Lemma poll_dpad_settled (pthr : number) (gp : Gamepad.t) (name : string)
    (d : DPad.t) :
  poll_dpad pthr gp name (fst (poll_dpad pthr gp name d))
  = (fst (poll_dpad pthr gp name d), []).
Proof.
  unfold poll_dpad.
  set (pressed := truthy _).
  destruct (eqb (DPad.isPressed d) pressed) eqn:E; cbn [negb fst DPad.isPressed].
  - fold pressed. rewrite E. reflexivity.
  - fold pressed. rewrite eqb_reflx. reflexivity.
Qed.

Lemma fresh_pair_settled (thr : number) (isThumbstick : bool) (x y : number) :
  truthy x = true -> truthy y = true ->
  let fresh := fresh_pair thr isThumbstick x y in
  pair_differs (Some (fst fresh), Some (snd fresh)) fresh = false.
Proof.
  intros Hx Hy. unfold fresh_pair, paired_deadzone, pair_differs.
  destruct isThumbstick;
    [destruct ((thr <? Math_abs x)%float || (thr <? Math_abs y)%float)|];
    cbn [fst snd strict_ne_opt];
    try rewrite (truthy_strict_ne_refl x Hx);
    try rewrite (truthy_strict_ne_refl y Hy); reflexivity.
Qed.

Lemma poll_axis_settled (style : string) (thr pthr : number) (gp : Gamepad.t)
    (ax : Axis.t) :
  poll_axis style thr pthr gp (fst (poll_axis style thr pthr gp ax))
  = (fst (poll_axis style thr pthr gp ax), []).
Proof.
  destruct (guarded_pair thr gp ax) as [fresh|] eqn:G.
  - destruct (guarded_pair_Some _ _ _ _ G) as (x & y & H0 & H1 & Hx & Hy & ->).
    rewrite (poll_axis_guarded style thr pthr gp ax x y H0 H1 Hx Hy). cbn [fst].
    set (fresh := fresh_pair thr (Axis.isThumbstick ax) x y).
    set (ax1 := Axis.mk _ _ _ _ _).
    rewrite (poll_axis_guarded style thr pthr gp ax1 x y H0 H1 Hx Hy).
    subst ax1. cbn [Axis.name Axis.indexes Axis.value Axis.isThumbstick Axis.dpad].
    fold fresh.
    assert (Hsame : pair_differs
                      (if pair_differs (Axis.value ax) fresh
                       then (Some (fst fresh), Some (snd fresh))
                       else Axis.value ax) fresh = false).
    { destruct (pair_differs (Axis.value ax) fresh) eqn:E; [|exact E].
      apply fresh_pair_settled; assumption. }
    rewrite Hsame.
    destruct (Axis.isThumbstick ax); cbn [fst snd app].
    + rewrite poll_each_settled by apply poll_dpad_settled. reflexivity.
    + reflexivity.
  - rewrite (poll_axis_unguarded style thr pthr gp ax G). cbn [fst].
    apply poll_axis_unguarded. assumption.
Qed.

Lemma poll_button_settled (raw : GamepadButton.t) (button : Button.t) :
  is_NaN (GamepadButton.value raw) = false ->
  poll_button raw (fst (poll_button raw button))
  = (fst (poll_button raw button), []).
Proof.
  intros Hnan. unfold poll_button.
  cbn [fst Button.name Button.value Button.isTouched Button.isPressed Button.isPrimary].
  assert (Hv : strict_ne
                 (if strict_ne (Button.value button) (GamepadButton.value raw)
                  then GamepadButton.value raw else Button.value button)
                 (GamepadButton.value raw) = false).
  { destruct (strict_ne (Button.value button) (GamepadButton.value raw)) eqn:E;
      [|exact E].
    unfold strict_ne. unfold is_NaN in Hnan.
    destruct (GamepadButton.value raw =? GamepadButton.value raw)%float;
      [reflexivity | discriminate]. }
  rewrite Hv.
  destruct (Button.isTouched button), (GamepadButton.touched raw),
    (Button.isPressed button), (GamepadButton.pressed raw); reflexivity.
Qed.

Lemma poll_buttons_settled (gp : Gamepad.t) (buttons buttons1 : list Button.t)
    (events : list Event.t) (i : nat) :
  Forall (fun raw => is_NaN (GamepadButton.value raw) = false) (Gamepad.buttons gp) ->
  poll_buttons i gp buttons = Normal (buttons1, events) ->
  poll_buttons i gp buttons1 = Normal (buttons1, []).
Proof.
  intros Hnan. revert buttons1 events i.
  induction buttons as [|b buttons IH]; intros buttons1 events i;
    cbn -[poll_button].
  - intros [= <- <-]. reflexivity.
  - destruct (Gamepad.buttons gp !! i) as [raw|] eqn:Hraw; [|discriminate].
    assert (Hb := poll_button_settled raw b).
    destruct (poll_button raw b) as [b1 e1]. cbn [fst] in Hb.
    destruct (poll_buttons (S i) gp buttons) as [[rest1 e2]|] eqn:Hrest;
      [|discriminate].
    cbn -[poll_button]. intros [= <- <-]. cbn -[poll_button]. rewrite Hraw.
    rewrite Hb.
    + rewrite (IH _ _ _ Hrest). reflexivity.
    + rewrite Forall_forall in Hnan. apply Hnan.
      apply list_elem_of_lookup. eauto.
Qed.

Lemma poll_hand_settled (hand : string) (gp : Gamepad.t) :
  poll_hand (fst (poll_hand hand gp)) gp = (fst (poll_hand hand gp), []).
Proof.
  unfold poll_hand.
  destruct (String.eqb hand (Gamepad.hand gp)) eqn:E; cbn [negb fst].
  - rewrite E. reflexivity.
  - rewrite String.eqb_refl. reflexivity.
Qed.

Lemma poll_buttons_events (gp : Gamepad.t) (buttons buttons1 : list Button.t)
    (events : list Event.t) (i : nat) :
  poll_buttons i gp buttons = Normal (buttons1, events) ->
  events
  = concat (zip_with (fun raw b => snd (poll_button raw b))
              (drop i (Gamepad.buttons gp)) buttons).
Proof.
  revert buttons1 events i.
  induction buttons as [|b buttons IH]; intros buttons1 events i;
    cbn -[poll_button].
  - intros [= <- <-]. destruct (drop i (Gamepad.buttons gp)); reflexivity.
  - destruct (Gamepad.buttons gp !! i) as [raw|] eqn:Hraw; [|discriminate].
    rewrite (drop_S _ _ _ Hraw).
    destruct (poll_button raw b) as [b1 e1] eqn:Hb.
    destruct (poll_buttons (S i) gp buttons) as [[rest1 e2]|] eqn:Hrest;
      [|discriminate].
    cbn -[poll_button]. intros [= <- <-]. rewrite Hb. cbn [snd].
    rewrite (IH _ _ _ Hrest). reflexivity.
Qed.

Section Polling.
Context {M : ThreeMath}.

(** The events of one poll, in dispatch order: the hand, then each axis
    pair, then each button. *)
Lemma pollForChanges_events (c c1 : Controller.t) (gp : Gamepad.t)
    (events : list Event.t) :
  pollForChanges c gp = Normal (c1, events) ->
  events
  = snd (poll_hand (Closure.hand (Controller.closure c)) gp)
    ++ concat (map (fun ax => snd (poll_axis (Controller.style c)
                                     (Controller.axisThreshold c)
                                     (Controller.axisPressThreshold c) gp ax))
                 (Closure.axes (Controller.closure c)))
    ++ concat (zip_with (fun raw b => snd (poll_button raw b))
                 (Gamepad.buttons gp) (Closure.buttons (Controller.closure c))).
Proof.
  unfold pollForChanges.
  destruct (poll_hand (Closure.hand (Controller.closure c)) gp) as [hand1 e0].
  unfold poll_each.
  destruct (poll_buttons 0 gp (Closure.buttons (Controller.closure c)))
    as [[buttons1 e2]|] eqn:Hb; [|cbn; discriminate].
  cbn -[poll_button]. intros [= <- <-].
  rewrite (poll_buttons_events _ _ _ _ _ Hb). reflexivity.
Qed.

Lemma pollForChanges_settled (c c1 : Controller.t) (gp : Gamepad.t)
    (events : list Event.t) :
  Forall (fun raw => is_NaN (GamepadButton.value raw) = false) (Gamepad.buttons gp) ->
  pollForChanges c gp = Normal (c1, events) ->
  pollForChanges c1 gp = Normal (c1, []).
Proof.
  intros Hnan. unfold pollForChanges.
  set (poll := poll_axis (Controller.style c) (Controller.axisThreshold c)
                 (Controller.axisPressThreshold c) gp).
  destruct (poll_hand (Closure.hand (Controller.closure c)) gp)
    as [hand1 e0] eqn:Eh.
  destruct (poll_each poll (Closure.axes (Controller.closure c)))
    as [axes1 e1] eqn:Ea.
  destruct (poll_buttons 0 gp (Closure.buttons (Controller.closure c)))
    as [[buttons1 e2]|] eqn:Hb; [|cbn; discriminate].
  cbn -[poll_button]. intros [= <- <-]. cbn -[poll_button poll_hand poll_each].
  fold poll.
  assert (Hh := poll_hand_settled (Closure.hand (Controller.closure c)) gp).
  rewrite Eh in Hh. cbn [fst] in Hh. rewrite Hh.
  assert (Ha := poll_each_settled poll (Closure.axes (Controller.closure c))
                  (poll_axis_settled _ _ _ gp)).
  rewrite Ea in Ha. cbn [fst] in Ha. unfold poll_each in Ha.
  injection Ha as Ha1 Ha2. rewrite Ha1, Ha2.
  rewrite (poll_buttons_settled _ _ _ _ _ Hnan Hb). reflexivity.
Qed.

End Polling.

(** C2, as the code has it.  One poll of an adapter dispatches, for each
    tracked axis pair, ["<name> axes changed"] exactly when both raw
    values pass the guard (neither is [0], [NaN] or missing) and the
    filtered pair differs from the stored pair in a component by [!==];
    for each tracked button, ["<name> value changed"], ["<name> touch
    ..."] and ["<name> press ..."] exactly when the raw value, touched
    flag and pressed flag differ from the stored ones.  The events of the
    poll are these, after the hand's, in order; and a second poll of the
    same raw state, no raw button value being [NaN], dispatches nothing and
    leaves the adapter as it is. *)
Theorem change_notifications {M : ThreeMath} (c : Controller.t) (gp : Gamepad.t) :
  let poll :=
    poll_axis (Controller.style c) (Controller.axisThreshold c)
      (Controller.axisPressThreshold c) gp in
  (forall ax,
     In ax (Closure.axes (Controller.closure c)) ->
     (exists x y,
        In (Event.mk (Axis.name ax +:+ " axes changed") (Event.Axes x y))
           (snd (poll ax)))
     <-> exists fresh,
           guarded_pair (Controller.axisThreshold c) gp ax = Some fresh /\
           pair_differs (Axis.value ax) fresh = true) /\
  (forall i button raw,
     Closure.buttons (Controller.closure c) !! i = Some button ->
     Gamepad.buttons gp !! i = Some raw ->
     let name := Button.name button in
     (In (Event.mk (name +:+ " value changed") (Event.Value (GamepadButton.value raw)))
         (snd (poll_button raw button))
      <-> strict_ne (Button.value button) (GamepadButton.value raw) = true) /\
     (In (Event.mk (name +:+ " touch " +:+ action (GamepadButton.touched raw))
            Event.NoDetail)
         (snd (poll_button raw button))
      <-> Button.isTouched button <> GamepadButton.touched raw) /\
     (In (Event.mk (name +:+ " press " +:+ action (GamepadButton.pressed raw))
            Event.NoDetail)
         (snd (poll_button raw button))
      <-> Button.isPressed button <> GamepadButton.pressed raw)) /\
  (forall c1 events,
     pollForChanges c gp = Normal (c1, events) ->
     events
     = snd (poll_hand (Closure.hand (Controller.closure c)) gp)
       ++ concat (map (fun ax => snd (poll ax)) (Closure.axes (Controller.closure c)))
       ++ concat (zip_with (fun raw b => snd (poll_button raw b))
                    (Gamepad.buttons gp) (Closure.buttons (Controller.closure c)))
     /\ (Forall (fun raw => is_NaN (GamepadButton.value raw) = false)
           (Gamepad.buttons gp) ->
         pollForChanges c1 gp = Normal (c1, []))).
Proof.
  intros poll. split; [|split].
  - intros ax _. apply axes_changed_iff.
  - intros i button raw _ _. apply poll_button_events.
  - intros c1 events Hpoll. split.
    + apply (pollForChanges_events c c1 gp events Hpoll).
    + intros Hnan. apply (pollForChanges_settled c c1 gp events Hnan Hpoll).
Qed.

(** A Vive wand whose thumbpad is touched at [(0.3, 0.7)]: the first poll
    reports the change, the second is silent. *)
Lemma change_notifications_witness :
  exists c1,
    pollForChanges vive_adapter (vive_wand [0.3; 0.7]%float four_released)
    = Normal (c1, [Event.mk "thumbpad axes changed" (Event.Axes 0.3 (-0.7))]) /\
    pollForChanges c1 (vive_wand [0.3; 0.7]%float four_released) = Normal (c1, []).
Proof.
  eexists. split.
  - reflexivity.
  - refine (proj2 (proj2 (proj2
              (change_notifications vive_adapter
                 (vive_wand [0.3; 0.7]%float four_released))) _ _ eq_refl) _).
    repeat constructor.
Defined.

(** A thumbpad last seen at [(0.3, 0.7)] whose X value returns to [0]:
    the fresh pair [(0, 0.7)] differs from the stored one, yet the poll
    dispatches nothing and the stored pair stays as it was. *)
Lemma axes_change_to_zero_unnoticed :
  (c ← VRController (M := FloatThree.math) 0
         (vive_wand [0.3; 0.7]%float four_released);
   '(c1, events) ← pollForChanges c (vive_wand [0; 0.7]%float four_released);
   Normal (map Axis.value (Closure.axes (Controller.closure c)), events,
           map Axis.value (Closure.axes (Controller.closure c1))))
  = Normal ([(Some 0.3, Some 0.7)], [], [(Some 0.3, Some 0.7)])%float
  /\ pair_differs (Some 0.3, Some 0.7)%float (0, 0.7)%float = true.
Proof. split; vm_compute; reflexivity. Qed.

(** ** The name index and the primary button *)

Lemma index_byName_snoc {A} (key : A -> string) (l : list A) (x : A) :
  index_byName key (l ++ [x]) = <[key x := length l]> (index_byName key l).
Proof.
  unfold index_byName. rewrite imap_app, fold_left_app. simpl.
  rewrite Nat.add_0_r. reflexivity.
Qed.

(** [byName[ k ]] is the last element whose key is [k]. *)
Lemma index_byName_lookup {A} (key : A -> string) (l : list A) (k : string) :
  match index_byName key l !! k with
  | Some i =>
      (exists x, l !! i = Some x /\ key x = k) /\
      (forall j y, i < j -> l !! j = Some y -> key y <> k)
  | None => forall j y, l !! j = Some y -> key y <> k
  end.
Proof.
  induction l as [|x l IH] using rev_ind.
  - unfold index_byName. simpl. rewrite lookup_empty.
    intros j y H. rewrite lookup_nil in H. discriminate.
  - rewrite index_byName_snoc.
    destruct (decide (key x = k)) as [<-|Hne].
    + rewrite lookup_insert_eq. split.
      * exists x. split; [|reflexivity].
        rewrite lookup_app_r by lia. rewrite Nat.sub_diag. reflexivity.
      * intros j y Hlt Hj. apply lookup_lt_Some in Hj.
        rewrite length_app in Hj. simpl in Hj. lia.
    + rewrite lookup_insert_ne by assumption.
      destruct (index_byName key l !! k) as [i|].
      * destruct IH as [(y & Hy & Hk) Hlast]. split.
        -- exists y. split; [|assumption].
           rewrite lookup_app_l; [assumption|]. apply lookup_lt_Some in Hy. assumption.
        -- intros j z Hlt Hj.
           destruct (decide (j < length l)) as [Hin|Hout].
           ++ rewrite lookup_app_l in Hj by assumption. eapply Hlast; eassumption.
           ++ rewrite lookup_app_r in Hj by lia.
              destruct (j - length l) as [|n] eqn:E; simpl in Hj; [|discriminate].
              injection Hj as <-. assumption.
      * intros j z Hj.
        destruct (decide (j < length l)) as [Hin|Hout].
        -- rewrite lookup_app_l in Hj by assumption. eapply IH; eassumption.
        -- rewrite lookup_app_r in Hj by lia.
           destruct (j - length l) as [|n] eqn:E; simpl in Hj; [|discriminate].
           injection Hj as <-. assumption.
Qed.

(** Marking one button of a list with no primary button leaves exactly
    that one marked. *)
Lemma alter_primary_unique (buttons : list Button.t) (i : nat) (b : Button.t) :
  Forall (fun b => Button.isPrimary b = false) buttons ->
  buttons !! i = Some b ->
  alter set_button_primary i buttons !! i = Some (set_button_primary b) /\
  forall j b',
    alter set_button_primary i buttons !! j = Some b' ->
    Button.isPrimary b' = true -> j = i.
Proof.
  intros Hnone Hi. split.
  - rewrite list_lookup_alter_eq, Hi. reflexivity.
  - intros j b' Hj Hprimary.
    destruct (decide (j = i)) as [->|Hne]; [reflexivity|].
    rewrite list_lookup_alter_ne in Hj by congruence.
    rewrite Forall_forall in Hnone.
    assert (Button.isPrimary b' = false)
      by (apply Hnone; apply list_elem_of_lookup; eauto).
    congruence.
Qed.

Lemma imap_make_button_lookup (raw : list GamepadButton.t) (i : nat) (b : Button.t) :
  imap make_button raw !! i = Some b ->
  Button.name b = "button_" +:+ string_of_nat i /\ Button.isPrimary b = false.
Proof.
  rewrite list_lookup_imap. destruct (raw !! i); simpl; [|discriminate].
  intros [= <-]. split; reflexivity.
Qed.

Lemma generic_name_inj (i j : nat) :
  "button_" +:+ string_of_nat i = "button_" +:+ string_of_nat j -> i = j.
Proof.
  intros H. apply String.app_inj in H. unfold string_of_nat in H.
  apply (inj pretty) in H. assumption.
Qed.

Lemma rename_buttons_spec (names : list string) (i : nat)
    (buttons buttons' : list Button.t) :
  rename_buttons i names buttons = Normal buttons' ->
  (names = [] \/ i + length names <= length buttons) /\
  length buttons' = length buttons /\
  forall j b',
    buttons' !! j = Some b' ->
    exists b,
      buttons !! j = Some b /\
      Button.isPrimary b' = Button.isPrimary b /\
      Button.name b'
      = match (if decide (i <= j) then names !! (j - i) else None) with
        | Some name => name
        | None => Button.name b
        end.
Proof.
  revert i buttons. induction names as [|name names IH]; intros i buttons; simpl.
  - intros [= <-]. split; [left; reflexivity|]. split; [reflexivity|].
    intros j b' Hj. exists b'.
    split; [assumption|]. split; [reflexivity|].
    destruct (decide (i <= j)); [rewrite lookup_nil|]; reflexivity.
  - destruct (buttons !! i) as [b0|] eqn:Hi; [|discriminate].
    intros Hrest. apply IH in Hrest as (Hfit & Hlen & Hrest).
    rewrite length_insert in Hfit, Hlen.
    assert (Hi' := lookup_lt_Some _ _ _ Hi).
    split; [right; destruct Hfit as [->|Hfit]; simpl; lia|].
    split; [assumption|].
    intros j b' Hj. destruct (Hrest j b' Hj) as (b1 & Hb1 & Hprimary & Hname).
    destruct (decide (j = i)) as [->|Hne].
    + rewrite list_lookup_insert_eq in Hb1 by (apply lookup_lt_Some in Hi; lia).
      injection Hb1 as <-. exists b0. split; [assumption|].
      split; [assumption|]. rewrite Hname.
      destruct (decide (S i <= i)); [lia|].
      destruct (decide (i <= i)); [|lia]. rewrite Nat.sub_diag. reflexivity.
    + rewrite list_lookup_insert_ne in Hb1 by congruence.
      exists b1. split; [assumption|]. split; [assumption|]. rewrite Hname.
      destruct (decide (S i <= j)), (decide (i <= j)); try lia; [|reflexivity].
      replace (j - i) with (S (j - S i)) by lia. reflexivity.
Qed.

Lemma assoc_get_In {A} (o : list (string * A)) (key : string) (v : A) :
  assoc_get o key = Some v -> In v (map snd o).
Proof.
  induction o as [|[k w] o IH]; simpl; [discriminate|].
  destruct (String.eqb k key); [intros [= <-]; left; reflexivity|].
  intros H. right. apply IH. assumption.
Qed.

Lemma getSupportedById_loop_In (keys : list string) (id : string) (s : Supported.t) :
  getSupportedById_loop keys id = Some s -> In s (map snd supported).
Proof.
  induction keys as [|k keys IH]; cbn [getSupportedById_loop]; [discriminate|].
  destruct (0 <=? indexOf id k)%Z; [apply assoc_get_In | assumption].
Qed.

Lemma getSupportedById_wf (id : string) (s : Supported.t) :
  getSupportedById id = Some s -> wf_supported s = true.
Proof.
  intros H. apply getSupportedById_loop_In in H.
  assert (Hall : forallb wf_supported (map snd supported) = true)
    by (vm_compute; reflexivity).
  rewrite forallb_forall in Hall. apply Hall. assumption.
Qed.

Lemma count_occ_one_lookup (names : list string) (p : string) :
  count_occ String.string_dec names p = 1 ->
  exists i, names !! i = Some p /\ forall j, names !! j = Some p -> j = i.
Proof.
  induction names as [|n names IH]; simpl; [discriminate|].
  destruct (String.string_dec n p) as [->|Hne].
  - intros [= Hzero]. exists 0. split; [reflexivity|].
    intros [|j] Hj; [reflexivity|]. simpl in Hj.
    apply count_occ_not_In in Hzero. exfalso. apply Hzero.
    apply list_elem_of_In. apply list_elem_of_lookup. eauto.
  - intros Hone. destruct (IH Hone) as (i & Hi & Huniq). exists (S i).
    split; [assumption|]. intros [|j] Hj; simpl in Hj.
    + congruence.
    + f_equal. apply Huniq. assumption.
Qed.

Lemma generic_name_not (p : string) (i : nat) :
  String.prefix "button_" p = false -> "button_" +:+ string_of_nat i <> p.
Proof.
  intros Hp E. assert (String.prefix "button_" p = true)
    by (apply prefix_spec; eauto).
  congruence.
Qed.

Lemma mark_primary_found (buttons : list Button.t) (p : string) (i : nat)
    (b : Button.t) :
  Forall (fun b => Button.isPrimary b = false) buttons ->
  buttons !! i = Some b ->
  Button.name b = p ->
  (forall j y, buttons !! j = Some y -> Button.name y = p -> j = i) ->
  let marked := mark_primary buttons (index_byName Button.name buttons) p in
  marked !! i = Some (set_button_primary b) /\
  forall j b', marked !! j = Some b' -> Button.isPrimary b' = true -> j = i.
Proof.
  intros Hnone Hi Hname Huniq marked. subst marked. unfold mark_primary.
  assert (Hlookup := index_byName_lookup Button.name buttons p).
  destruct (index_byName Button.name buttons !! p) as [k|].
  - destruct Hlookup as [(x & Hx & Hkey) _].
    rewrite (Huniq k x Hx Hkey). apply alter_primary_unique; assumption.
  - exfalso. apply (Hlookup i b Hi Hname).
Qed.

Lemma make_buttons_primary (gp : Gamepad.t) (supported : option Supported.t)
    (buttons : list Button.t) (byName : gmap string nat) (p : string) :
  match supported with Some s => wf_supported s = true | None => True end ->
  make_buttons gp supported = Normal (buttons, byName, p) ->
  Gamepad.buttons gp <> [] ->
  exists i b,
    buttons !! i = Some b /\ Button.isPrimary b = true /\
    (forall j b', buttons !! j = Some b' -> Button.isPrimary b' = true -> j = i) /\
    Button.name b = p /\
    match supported with
    | Some s => Supported.primary s = Some p
    | None => i = if decide (1 < length (Gamepad.buttons gp)) then 1 else 0
    end.
Proof.
  intros Hwf Hmake Hsome. unfold make_buttons in Hmake.
  set (raw := Gamepad.buttons gp) in *.
  destruct supported as [s|].
  - unfold wf_supported in Hwf. destruct s as [style axes [names|] [p'|]];
      cbn [Supported.buttons Supported.primary] in *; try discriminate.
    apply andb_true_iff in Hwf as [Hone Hgeneric].
    apply bool_decide_eq_true in Hone. apply negb_true_iff in Hgeneric.
    destruct (rename_buttons 0 names (imap make_button raw)) as [renamed|] eqn:Hren;
      [|discriminate].
    cbn in Hmake. injection Hmake as <- <- <-.
    apply rename_buttons_spec in Hren as (Hfit & Hlen & Hren).
    destruct (count_occ_one_lookup names p' Hone) as (ip & Hip & Huniq).
    assert (Hnames : forall j y, renamed !! j = Some y ->
              Button.isPrimary y = false /\
              Button.name y = match names !! j with
                              | Some n => n
                              | None => "button_" +:+ string_of_nat j
                              end).
    { intros j y Hj. destruct (Hren j y Hj) as (b0 & Hb0 & Hflag & Hname).
      apply imap_make_button_lookup in Hb0 as [Hgen Hfalse].
      destruct (decide (0 <= j)); [|lia]. rewrite Nat.sub_0_r in Hname.
      split; [congruence|]. rewrite Hname, Hgen. reflexivity. }
    assert (Hlt : ip < length renamed).
    { apply lookup_lt_Some in Hip. destruct Hfit as [->|Hfit]; simpl in *; [lia|].
      rewrite Hlen. lia. }
    apply lookup_lt_is_Some in Hlt as [b Hb].
    destruct (Hnames ip b Hb) as [_ Hbname]. rewrite Hip in Hbname.
    destruct (mark_primary_found renamed p' ip b) as [Hmarked Honly].
    + apply Forall_forall. intros y Hy.
      apply list_elem_of_lookup in Hy as [j Hj]. apply (Hnames j y Hj).
    + assumption.
    + assumption.
    + intros j y Hj Hy. destruct (Hnames j y Hj) as [_ Hyname].
      destruct (names !! j) as [n|] eqn:Hn.
      * apply Huniq. congruence.
      * exfalso. apply (generic_name_not p' j Hgeneric). congruence.
    + exists ip, (set_button_primary b). auto.
  - cbn in Hmake. injection Hmake as <- <- <-.
    set (i0 := if decide (1 < length raw) then 1 else 0).
    assert (Hp : (if decide (1 < length raw) then "button_1" else "button_0")
                 = "button_" +:+ string_of_nat i0)
      by (subst i0; destruct (decide (1 < length raw)); reflexivity).
    rewrite Hp.
    assert (Hlt : i0 < length (imap make_button raw)).
    { rewrite length_imap. subst i0. destruct raw; [contradiction|].
      destruct (decide _); simpl in *; lia. }
    apply lookup_lt_is_Some in Hlt as [b Hb].
    destruct (imap_make_button_lookup raw i0 b Hb) as [Hbname _].
    destruct (mark_primary_found (imap make_button raw)
                ("button_" +:+ string_of_nat i0) i0 b) as [Hmarked Honly].
    + apply Forall_forall. intros y Hy.
      apply list_elem_of_lookup in Hy as [j Hj].
      apply (imap_make_button_lookup raw j y Hj).
    + assumption.
    + assumption.
    + intros j y Hj Hy. apply imap_make_button_lookup in Hj as [Hj _].
      apply generic_name_inj. congruence.
    + exists i0, (set_button_primary b). auto.
Qed.

(** ** What no later call changes *)

Lemma poll_button_flags (raw : GamepadButton.t) (button : Button.t) :
  Button.isPrimary (fst (poll_button raw button)) = Button.isPrimary button /\
  Button.name (fst (poll_button raw button)) = Button.name button.
Proof. split; reflexivity. Qed.

Lemma poll_buttons_flags (gp : Gamepad.t) (buttons buttons1 : list Button.t)
    (events : list Event.t) (i : nat) :
  poll_buttons i gp buttons = Normal (buttons1, events) ->
  map Button.isPrimary buttons1 = map Button.isPrimary buttons /\
  map Button.name buttons1 = map Button.name buttons.
Proof.
  revert buttons1 events i.
  induction buttons as [|b buttons IH]; intros buttons1 events i;
    cbn -[poll_button].
  - intros [= <- <-]. split; reflexivity.
  - destruct (Gamepad.buttons gp !! i) as [raw|]; [|discriminate].
    destruct (poll_button_flags raw b) as [Hflag Hname].
    destruct (poll_button raw b) as [b1 e1]. cbn [fst] in Hflag, Hname.
    destruct (poll_buttons (S i) gp buttons) as [[rest1 e2]|] eqn:Hrest;
      [|discriminate].
    cbn -[poll_button]. intros [= <- <-].
    destruct (IH _ _ _ Hrest) as [IH1 IH2]. simpl. split; congruence.
Qed.

Section Identity.
Context {M : ThreeMath}.

Lemma same_identity_refl (c : Controller.t) : same_identity c c.
Proof. repeat split. Qed.

Lemma same_identity_trans (c1 c2 c3 : Controller.t) :
  same_identity c1 c2 -> same_identity c2 c3 -> same_identity c1 c3.
Proof.
  unfold same_identity. intros (?&?&?&?&?&?) (?&?&?&?&?&?).
  repeat split; congruence.
Qed.

Lemma pollForChanges_identity (c c1 : Controller.t) (gp : Gamepad.t)
    (events : list Event.t) :
  pollForChanges c gp = Normal (c1, events) -> same_identity c c1.
Proof.
  unfold pollForChanges.
  destruct (poll_hand (Closure.hand (Controller.closure c)) gp) as [hand1 e0].
  destruct (poll_each _ (Closure.axes (Controller.closure c))) as [axes1 e1].
  destruct (poll_buttons 0 gp (Closure.buttons (Controller.closure c)))
    as [[buttons1 e2]|] eqn:Hb; [|cbn; discriminate].
  cbn -[poll_button]. intros [= <- <-].
  destruct (poll_buttons_flags _ _ _ _ _ Hb). repeat split; assumption.
Qed.

Lemma setVibe_identity (c : Controller.t) (now : number) (name intensity : JS.value) :
  same_identity c (fst (setVibe c now name intensity)).
Proof.
  unfold setVibe.
  destruct name, intensity; try apply same_identity_refl;
    cbn [fst]; try apply same_identity_refl;
    destruct (find_channel 0 _ _); repeat split.
Qed.

Lemma Scheduler_set_identity (c : Controller.t) (o : Scheduler.t) (v : JS.value) :
  same_identity c (Scheduler_set c o v).
Proof. repeat split. Qed.

Lemma renderVibes_identity (c : Controller.t) (now : number) :
  same_identity c (fst (renderVibes c now)).
Proof. repeat split. Qed.

Lemma applyVibes_identity (c : Controller.t) (gp : Gamepad.t) (t1 t2 : number) :
  same_identity c (fst (applyVibes c gp t1 t2)).
Proof.
  unfold applyVibes.
  destruct (Gamepad.hapticActuators gp) as [[|[] ?]|]; try apply same_identity_refl.
  destruct (renderVibes c t1) as [c1 r] eqn:E.
  assert (H1 : same_identity c c1)
    by (change c1 with (fst (c1, r)); rewrite <- E; apply renderVibes_identity).
  destruct (_ || _); cbn [fst]; [|assumption].
  eapply same_identity_trans; [exact H1|]. repeat split.
Qed.

Lemma update_6dof_identity (c : Controller.t) (o : option (list number))
    (p : list number) :
  same_identity c (update_6dof c o p).
Proof. repeat split. Qed.

Lemma update_3dof_identity (c : Controller.t) (o : list number) (now : number) :
  same_identity c (update_3dof c o now).
Proof. repeat split. Qed.

End Identity.

Section Worlds.
Context {M : ThreeMath}.

Lemma keeps_identity_refl (w : World) : keeps_identity w w.
Proof. intros a c H. exists c. split; [assumption | apply same_identity_refl]. Qed.

Lemma keeps_identity_trans (w1 w2 w3 : World) :
  keeps_identity w1 w2 -> keeps_identity w2 w3 -> keeps_identity w1 w3.
Proof.
  intros H12 H23 a c H. destruct (H12 a c H) as (c2 & H2 & I12).
  destruct (H23 a c2 H2) as (c3 & H3 & I23). exists c3.
  split; [assumption | eapply same_identity_trans; eassumption].
Qed.

Lemma onGamepadDisconnect_heap (gamepad : option Gamepad.t) (i : nat) (w w' : World) :
  onGamepadDisconnect gamepad i w = Normal w' ->
  heap w' = heap w /\ next w' = next w.
Proof.
  unfold onGamepadDisconnect. destruct (controllers w !! _); [|discriminate].
  intros [= <-]. split; reflexivity.
Qed.

(** What [update] on the adapter at [this] does to the heap: that adapter
    is replaced by one of the same identity, nothing else moves. *)
Lemma prototype_update_heap (host : Host.t) (this : nat) (w w' : World) :
  prototype_update host this w = Normal w' ->
  exists c c',
    heap w !! this = Some c /\ same_identity c c' /\
    heap w' = <[this := c']> (heap w) /\ next w' = next w.
Proof.
  unfold prototype_update. destruct (heap w !! this) as [c|] eqn:Hc; [|discriminate].
  destruct (pollForChanges c (Host.deref host (Controller.gamepad c)))
    as [[c1 events]|] eqn:Hpoll; [|cbn; discriminate].
  apply pollForChanges_identity in Hpoll.
  cbn [mbind completion_bind JS.bind].
  assert (Hvibes := applyVibes_identity c1 (Host.deref host (Controller.gamepad c))
                      (Host.performance_now host (Controller.gamepad c)
                         Host.InRenderVibes)
                      (Host.performance_now host (Controller.gamepad c)
                         Host.InApplyVibes)).
  destruct (applyVibes c1 _ _ _) as [c2 pulses]. cbn [fst] in Hvibes.
  assert (H2 : same_identity c c2) by (eapply same_identity_trans; eassumption).
  destruct (read_pose _) as [|o p|o].
  - destruct (Controller.hasPosed c2).
    + intros Hd. apply onGamepadDisconnect_heap in Hd as [Hheap Hnext].
      exists c, c2. split; [reflexivity|]. split; [assumption|].
      rewrite Hheap, Hnext. cbn. rewrite insert_insert_eq. split; reflexivity.
    + intros [= <-]. exists c, c2. split; [reflexivity|]. split; [assumption|].
      cbn. rewrite insert_insert_eq. split; reflexivity.
  - intros [= <-]. exists c, (update_6dof c2 o p). split; [reflexivity|]. split.
    + eapply same_identity_trans; [exact H2 | apply update_6dof_identity].
    + cbn. rewrite !insert_insert_eq. split; reflexivity.
  - intros [= <-]. eexists c, (update_3dof c2 o _). split; [reflexivity|]. split.
    + eapply same_identity_trans; [exact H2 | apply update_3dof_identity].
    + cbn. rewrite !insert_insert_eq. split; reflexivity.
Qed.

Lemma prototype_update_keeps (host : Host.t) (this : nat) (w w' : World) :
  wf_world w ->
  prototype_update host this w = Normal w' ->
  wf_world w' /\ keeps_identity w w'.
Proof.
  intros Hwf H. apply prototype_update_heap in H
    as (c & c' & Hc & Hsame & Hheap & Hnext).
  split.
  - intros a Ha. rewrite Hheap. rewrite Hnext in Ha.
    destruct (decide (this = a)) as [->|Hne].
    + rewrite (Hwf a Ha) in Hc. discriminate.
    + rewrite lookup_insert_ne by assumption. apply Hwf. assumption.
  - intros a ca Ha. rewrite Hheap.
    destruct (decide (this = a)) as [->|Hne].
    + rewrite lookup_insert_eq. exists c'. split; [reflexivity|]. congruence.
    + rewrite lookup_insert_ne by assumption. exists ca.
      split; [assumption | apply same_identity_refl].
Qed.

Lemma onGamepadDisconnect_keeps (gamepad : option Gamepad.t) (i : nat) (w w' : World) :
  wf_world w ->
  onGamepadDisconnect gamepad i w = Normal w' ->
  wf_world w' /\ keeps_identity w w'.
Proof.
  intros Hwf H. apply onGamepadDisconnect_heap in H as [Hheap Hnext]. split.
  - intros a Ha. rewrite Hheap. apply Hwf. lia.
  - intros a c Hc. exists c. rewrite Hheap.
    split; [assumption | apply same_identity_refl].
Qed.

Lemma onGamepadConnect_heap (host : Host.t) (h : nat) (w w' : World) :
  onGamepadConnect host h w = Normal w' ->
  exists c,
    heap w' = <[next w := c]> (heap w) /\ next w' = S (next w) /\
    controllers w' = <[Gamepad.index (Host.deref host h) := next w]> (controllers w).
Proof.
  unfold onGamepadConnect.
  destruct (VRController h (Host.deref host h)) as [c|]; [|cbn; discriminate].
  cbn [mbind completion_bind JS.bind].
  destruct (Gamepad.hapticActuators (Host.deref host h)) as [[|[] ?]|];
    cbn; try discriminate; intros [= <-]; eexists; cbn; repeat split.
Qed.

Lemma onGamepadConnect_keeps (host : Host.t) (h : nat) (w w' : World) :
  wf_world w ->
  onGamepadConnect host h w = Normal w' ->
  wf_world w' /\ keeps_identity w w'.
Proof.
  intros Hwf H. apply onGamepadConnect_heap in H as (c & Hheap & Hnext & _). split.
  - intros a Ha. rewrite Hheap. rewrite Hnext in Ha.
    rewrite lookup_insert_ne by lia. apply Hwf. lia.
  - intros a ca Ha. exists ca. rewrite Hheap.
    split; [|apply same_identity_refl].
    rewrite lookup_insert_ne; [assumption|].
    intros <-. rewrite (Hwf (next w)) in Ha by lia. discriminate.
Qed.

Lemma update_slots_keeps (host : Host.t) (gamepads : list Host.slot) (i : nat)
    (w w' : World) :
  wf_world w ->
  update_slots host i gamepads w = Normal w' ->
  wf_world w' /\ keeps_identity w w'.
Proof.
  revert i w. induction gamepads as [|slot rest IH]; intros i w Hwf;
    cbn [update_slots].
  - intros [= <-]. split; [assumption | apply keeps_identity_refl].
  - destruct slot as [| |h].
    + destruct (controllers w !! i).
      * destruct (onGamepadDisconnect None i w) as [w1|] eqn:Hd; [|cbn; discriminate].
        cbn [mbind completion_bind JS.bind]. intros Hrest.
        destruct (onGamepadDisconnect_keeps _ _ _ _ Hwf Hd) as [Hwf1 Hk1].
        destruct (IH _ _ Hwf1 Hrest) as [Hwf' Hk'].
        split; [assumption | eapply keeps_identity_trans; eassumption].
      * cbn [mbind completion_bind JS.bind]. apply IH. assumption.
    + cbn [mbind completion_bind JS.bind]. apply IH. assumption.
    + destruct (match controllers w !! i with
                | Some _ => Normal w
                | None => onGamepadConnect host h w
                end) as [w1|] eqn:H1; [|cbn; discriminate].
      assert (Hw1 : wf_world w1 /\ keeps_identity w w1).
      { destruct (controllers w !! i).
        - injection H1 as <-. split; [assumption | apply keeps_identity_refl].
        - apply (onGamepadConnect_keeps host h w w1 Hwf H1). }
      destruct Hw1 as [Hwf1 Hk1].
      cbn [mbind completion_bind JS.bind].
      destruct (controllers w1 !! i) as [this|]; [|cbn; discriminate].
      destruct (prototype_update host this w1) as [w2|] eqn:H2; [|cbn; discriminate].
      cbn [mbind completion_bind JS.bind]. intros Hrest.
      destruct (prototype_update_keeps _ _ _ _ Hwf1 H2) as [Hwf2 Hk2].
      destruct (IH _ _ Hwf2 Hrest) as [Hwf' Hk'].
      split; [assumption|].
      eapply keeps_identity_trans; [exact Hk1|].
      eapply keeps_identity_trans; eassumption.
Qed.

Lemma update_keeps (host : Host.t) (w w' : World) :
  wf_world w -> update host w = Normal w' -> wf_world w' /\ keeps_identity w w'.
Proof.
  intros Hwf. unfold update. destruct (Host.getGamepads host) as [gamepads|].
  - apply update_slots_keeps. assumption.
  - intros [= <-]. split; [assumption | apply keeps_identity_refl].
Qed.

Lemma empty_world_wf : wf_world empty_world.
Proof. intros a _. apply lookup_empty. Qed.

End Worlds.

(** ** The primary button *)




(** ** Degrees of freedom *)

(** C8: the constructor sets [dof] to [0] when the device has no pose and
    otherwise to three times the number of capability flags
    ([hasOrientation], [hasPosition]) that are true; no tick of the poll
    loop, no [update] of the adapter and none of its other methods changes
    it, whatever the raw pose reports by then. *)
Theorem dof_fixed_at_construction {M : ThreeMath} :
  (forall h gp c,
     VRController h gp = Normal c ->
     Controller.dof c
     = match Gamepad.pose gp with
       | None => 0%Z
       | Some p =>
           (3 * (Z.b2z (GamepadPose.hasOrientation p)
                 + Z.b2z (GamepadPose.hasPosition p)))%Z
       end) /\
  (forall host w w' a c,
     wf_world w -> heap w !! a = Some c -> update host w = Normal w' ->
     exists c', heap w' !! a = Some c' /\ Controller.dof c' = Controller.dof c) /\
  (forall host w w' a c,
     heap w !! a = Some c -> prototype_update host a w = Normal w' ->
     exists c', heap w' !! a = Some c' /\ Controller.dof c' = Controller.dof c) /\
  (forall c gp c' events,
     pollForChanges c gp = Normal (c', events) ->
     Controller.dof c' = Controller.dof c) /\
  (forall c gp now_render now name intensity o v,
     Controller.dof (fst (setVibe c now name intensity)) = Controller.dof c /\
     Controller.dof (Scheduler_set c o v) = Controller.dof c /\
     Controller.dof (fst (renderVibes c now)) = Controller.dof c /\
     Controller.dof (fst (applyVibes c gp now_render now)) = Controller.dof c).
Proof.
  split; [|split; [|split; [|split]]].
  - intros h gp c Hnew. unfold VRController in Hnew.
    destruct (make_axes _ gp _) as [axes axes_byName].
    destruct (make_buttons gp _) as [[[buttons byName] p]|];
      [|cbn in Hnew; discriminate].
    cbn in Hnew. injection Hnew as <-. reflexivity.
  - intros host w w' a c Hwf Ha Htick.
    destruct (update_keeps host w w' Hwf Htick) as [_ Hkeeps].
    destruct (Hkeeps a c Ha) as (c' & Hc' & Hsame).
    exists c'. split; [assumption | apply Hsame].
  - intros host w w' a c Ha Htick.
    apply prototype_update_heap in Htick as (c0 & c' & Hc0 & Hsame & Hheap & _).
    exists c'. rewrite Hheap, lookup_insert_eq. split; [reflexivity|].
    assert (c0 = c) by congruence. subst c0. apply Hsame.
  - intros c gp c' events Hpoll. apply (pollForChanges_identity _ _ _ _ Hpoll).
  - intros c gp now_render now name intensity o v. repeat split.
    + apply setVibe_identity.
    + apply applyVibes_identity.
Qed.

(** The spec's example: an adapter built from a pose that reports an
    orientation and no position has three degrees of freedom, and still
    has three after a tick in which the pose reports both. *)
Lemma dof_fixed_at_construction_witness :
  exists w1 c1,
    update (one_device (daydream orientation_only)) (empty_world (M := FloatThree.math))
    = Normal w1 /\
    heap w1 !! 0 = Some c1 /\ Controller.dof c1 = 3%Z /\
    forall w2,
      update (one_device (daydream tracked_pose)) w1 = Normal w2 ->
      exists c2, heap w2 !! 0 = Some c2 /\ Controller.dof c2 = 3%Z.
Proof.
  eexists. eexists. split; [reflexivity|]. split; [reflexivity|].
  split; [reflexivity|]. intros w2 Htick.
  match type of Htick with
  | update ?host ?w1 = _ =>
      destruct (proj1 (proj2 dof_fixed_at_construction) host w1 w2 0 _
                  (proj1 (update_keeps (one_device (daydream orientation_only))
                            empty_world w1 empty_world_wf eq_refl))
                  eq_refl Htick) as (c2 & Hc2 & Hdof)
  end.
  exists c2. split; [exact Hc2 | rewrite Hdof; reflexivity].
Defined.

(** ** Haptics *)

Lemma SFcompare_antisym (X Y : SpecFloat.spec_float) :
  SpecFloat.SFcompare Y X = option_map CompOpp (SpecFloat.SFcompare X Y).
Proof.
  destruct X as [[]|[]| |[] m1 e1], Y as [[]|[]| |[] m2 e2];
    try reflexivity; simpl;
    rewrite (Z.compare_antisym e1 e2); destruct (e1 ?= e2)%Z; simpl;
    try reflexivity;
    rewrite (Pos.compare_cont_antisym m1 m2 Eq); reflexivity.
Qed.

(** The four order tests between two numbers, from their comparison. *)
Lemma order_tests (x y : number) (c : comparison) :
  SpecFloat.SFcompare (FloatOps.Prim2SF x) (FloatOps.Prim2SF y) = Some c ->
  (x <? y)%float = match c with Lt => true | _ => false end /\
  (y <? x)%float = match c with Gt => true | _ => false end /\
  (x <=? y)%float = match c with Gt => false | _ => true end /\
  (y <=? x)%float = match c with Lt => false | _ => true end.
Proof.
  intros H. rewrite !FloatAxioms.ltb_spec, !FloatAxioms.leb_spec.
  unfold SpecFloat.SFltb, SpecFloat.SFleb.
  rewrite (SFcompare_antisym (FloatOps.Prim2SF x) (FloatOps.Prim2SF y)), H.
  destruct c; simpl; auto.
Qed.

Lemma comparable (x y : number) :
  is_NaN x = false -> is_NaN y = false ->
  exists c, SpecFloat.SFcompare (FloatOps.Prim2SF x) (FloatOps.Prim2SF y) = Some c.
Proof.
  unfold is_NaN. rewrite !FloatAxioms.eqb_spec. unfold SpecFloat.SFeqb.
  destruct (FloatOps.Prim2SF x) as [[]|[]| |[] m1 e1],
    (FloatOps.Prim2SF y) as [[]|[]| |[] m2 e2]; simpl; try discriminate; eauto.
Qed.

(** [Math.min( 1, Math.max( 0, x ) )] clamps to the unit interval. *)
Lemma Math_clamp_unit (x : number) : Math_min 1 (Math_max 0 x) = clamp_unit x.
Proof.
  unfold clamp_unit. destruct (is_NaN x) eqn:Hnan.
  - unfold Math_max. rewrite Hnan, orb_true_r. reflexivity.
  - destruct (comparable 0 x eq_refl Hnan) as [c0 H0].
    destruct (comparable 1 x eq_refl Hnan) as [c1 H1].
    destruct (order_tests 0 x c0 H0) as (A1 & A2 & A3 & A4).
    destruct (order_tests 1 x c1 H1) as (B1 & B2 & B3 & B4).
    unfold Math_max. rewrite Hnan. change (is_NaN 0) with false. cbn [orb].
    rewrite A1, A2, A4.
    destruct c0; cbn.
    + reflexivity.
    + unfold Math_min. rewrite Hnan. change (is_NaN 1) with false. cbn [orb].
      rewrite B1, B2, B3. destruct c1; reflexivity.
    + reflexivity.
Qed.

Lemma clamp_unit_range (x : number) :
  is_NaN x = false ->
  (0 <=? clamp_unit x)%float = true /\ (clamp_unit x <=? 1)%float = true.
Proof.
  intros Hnan. unfold clamp_unit. rewrite Hnan.
  destruct (comparable 0 x eq_refl Hnan) as [c0 H0].
  destruct (comparable 1 x eq_refl Hnan) as [c1 H1].
  destruct (order_tests 0 x c0 H0) as (A1 & A2 & A3 & A4).
  destruct (order_tests 1 x c1 H1) as (B1 & B2 & B3 & B4).
  rewrite A4, B3. destruct c0; [split; reflexivity | | split; reflexivity].
  destruct c1; [split; reflexivity | split; reflexivity |].
  rewrite A3, B4. split; reflexivity.
Qed.

Lemma render_channel_number (now : number) (channel : VibeChannel.t) :
  exists n, VibeChannel.intensity (render_channel now channel) = VNum n.
Proof.
  unfold render_channel. destruct (drain now _ _) as [[| |?|n|?] commands];
    cbn; eauto.
Qed.

(** C7: [renderVibes] renders every channel, leaving each with a numeric
    intensity, and both returns and stores the sum of those intensities
    clamped to the unit interval; unless the sum is [NaN] the result lies
    between [0] and [1]. *)
Theorem renderVibes_clamped_sum {M : ThreeMath} (c : Controller.t) (now : number) :
  let rendered :=
    map (render_channel now) (VibeChannels.channels (Controller.vibeChannels c)) in
  let sum :=
    fold_left (fun s ch => (s + to_number (VibeChannel.intensity ch))%float)
      rendered 0%float in
  VibeChannels.channels (Controller.vibeChannels (fst (renderVibes c now))) = rendered /\
  Forall (fun ch => exists n, VibeChannel.intensity ch = VNum n) rendered /\
  snd (renderVibes c now) = clamp_unit sum /\
  VibeChannels.intensity (Controller.vibeChannels (fst (renderVibes c now)))
  = clamp_unit sum /\
  (is_NaN sum = false ->
   (0 <=? snd (renderVibes c now))%float = true /\
   (snd (renderVibes c now) <=? 1)%float = true).
Proof.
  intros rendered sum. unfold renderVibes. cbn [fst snd].
  fold rendered. unfold sum_intensities. fold sum.
  rewrite Math_clamp_unit.
  split; [reflexivity|]. split.
  - apply Forall_forall. intros ch Hch. subst rendered.
    apply list_elem_of_fmap in Hch as (ch0 & -> & _). apply render_channel_number.
  - split; [reflexivity|]. split; [reflexivity|]. apply clamp_unit_range.
Qed.

(** The spec's example: channels at [0.6] and [0.7] beside the unnamed
    one at [0] add up to more than [1] and render as [1]. *)
Lemma renderVibes_clamped_sum_witness :
  let c1 := fst (setVibe vive_adapter 0 (VStr "laser") (VNum 0.6)) in
  let c2 := fst (setVibe c1 0 (VStr "explosion") (VNum 0.7)) in
  snd (renderVibes c2 16) = 1%float
  /\ (0 <=? snd (renderVibes c2 16))%float = true
  /\ (snd (renderVibes c2 16) <=? 1)%float = true.
Proof.
  intros c1 c2.
  destruct (renderVibes_clamped_sum c2 16) as (_ & _ & Hsum & _ & Hrange).
  split; [rewrite Hsum; vm_compute; reflexivity|].
  apply Hrange. vm_compute. reflexivity.
Defined.

(** ** Disconnection *)

Ltac not_a_suffix H :=
  apply app_suffixes in H; simpl in H;
  repeat (destruct H as [H|H]; [discriminate H|]); contradiction.

Lemma poll_dpad_not_disconnected (pthr : number) (gp : Gamepad.t) (name : string)
    (l : list DPad.t) :
  Forall (fun e => ~ named_disconnected e) (snd (poll_each (poll_dpad pthr gp name) l)).
Proof.
  unfold poll_each. cbn [snd]. induction l as [|d l IH]; simpl; [constructor|].
  apply Forall_app. split; [|assumption].
  unfold poll_dpad. destruct (negb _); cbn [snd]; [|constructor].
  constructor; [|constructor]. unfold named_disconnected. cbn [Event.type].
  intros H. destruct (DPad.dir d), (truthy _); cbn in H; not_a_suffix H.
Qed.

Lemma poll_axis_not_disconnected (style : string) (thr pthr : number)
    (gp : Gamepad.t) (ax : Axis.t) :
  Forall (fun e => ~ named_disconnected e) (snd (poll_axis style thr pthr gp ax)).
Proof.
  destruct (guarded_pair thr gp ax) as [fresh|] eqn:G.
  - destruct (guarded_pair_Some _ _ _ _ G) as (x & y & H0 & H1 & Hx & Hy & ->).
    rewrite (poll_axis_guarded style thr pthr gp ax x y H0 H1 Hx Hy). cbn [snd].
    apply Forall_app. split.
    + destruct (pair_differs _ _); constructor; [|constructor].
      unfold named_disconnected. cbn [Event.type]. intros H. not_a_suffix H.
    + destruct (Axis.isThumbstick ax); [|constructor].
      apply poll_dpad_not_disconnected.
  - rewrite poll_axis_unguarded by assumption. constructor.
Qed.

Lemma poll_button_not_disconnected (raw : GamepadButton.t) (button : Button.t) :
  Forall (fun e => ~ named_disconnected e) (snd (poll_button raw button)).
Proof.
  unfold poll_button. cbn [snd].
  destruct (strict_ne (Button.value button) (GamepadButton.value raw));
    destruct (Button.isTouched button), (GamepadButton.touched raw);
    destruct (Button.isPressed button), (GamepadButton.pressed raw);
    destruct (Button.isPrimary button);
    cbn [eqb negb app];
    repeat (constructor; [unfold named_disconnected; cbn [Event.type]; intros H;
                          first [discriminate H | not_a_suffix H]|]);
    constructor.
Qed.

Section Disconnection.
Context {M : ThreeMath}.

Lemma pollForChanges_not_disconnected (c c1 : Controller.t) (gp : Gamepad.t)
    (events : list Event.t) :
  pollForChanges c gp = Normal (c1, events) ->
  Forall (fun e => ~ named_disconnected e) events.
Proof.
  intros Hpoll. rewrite (pollForChanges_events c c1 gp events Hpoll).
  apply Forall_app; split; [|apply Forall_app; split].
  - unfold poll_hand. destruct (negb _); cbn [snd]; [|constructor].
    constructor; [|constructor]. unfold named_disconnected. cbn [Event.type].
    discriminate.
  - apply Forall_concat, Forall_fmap, Forall_forall. intros ax _.
    apply poll_axis_not_disconnected.
  - apply Forall_concat. generalize (Gamepad.buttons gp).
    induction (Closure.buttons (Controller.closure c)) as [|b bs IH];
      intros [|raw raws]; cbn [zip_with]; constructor.
    + apply poll_button_not_disconnected.
    + apply IH.
Qed.

Lemma pollForChanges_spatial (c c1 : Controller.t) (gp : Gamepad.t)
    (events : list Event.t) :
  pollForChanges c gp = Normal (c1, events) ->
  spatial c1 = spatial c /\ Controller.gamepad c1 = Controller.gamepad c.
Proof.
  unfold pollForChanges.
  destruct (poll_hand (Closure.hand (Controller.closure c)) gp) as [hand1 e0].
  destruct (poll_each _ (Closure.axes (Controller.closure c))) as [axes1 e1].
  destruct (poll_buttons 0 gp (Closure.buttons (Controller.closure c)))
    as [[buttons1 e2]|]; [|cbn; discriminate].
  cbn -[poll_button]. intros [= <- <-]. split; reflexivity.
Qed.

Lemma applyVibes_spatial (c : Controller.t) (gp : Gamepad.t) (t1 t2 : number) :
  spatial (fst (applyVibes c gp t1 t2)) = spatial c.
Proof.
  unfold applyVibes.
  destruct (Gamepad.hapticActuators gp) as [[|[] ?]|]; try reflexivity.
  unfold renderVibes. destruct (_ || _); reflexivity.
Qed.

(** C3: [update] on an adapter that has posed and sits in the registry
    under its device's index, at a tick where the pose is absent (the
    pose object is [null] or [undefined], or its orientation and position
    are both [null]) and the change detection completes.  The call
    completes; what it adds to the effects ends with one ["disconnected"]
    notification on that adapter and holds no other; the registry entry
    is gone; and the adapter's transform, arm model and posed flag are what
    they were, nothing having been computed after the notification. *)
Theorem disconnected_when_pose_lost (host : Host.t) (this : nat) (w : World)
    (c c1 : Controller.t) (events : list Event.t) :
  let gamepad := Host.deref host (Controller.gamepad c) in
  heap w !! this = Some c ->
  Controller.hasPosed c = true ->
  read_pose (Gamepad.pose gamepad) = Absent ->
  controllers w !! Gamepad.index gamepad = Some this ->
  pollForChanges c gamepad = Normal (c1, events) ->
  exists w' before c',
    prototype_update host this w = Normal w' /\
    log w' = log w ++ before
                   ++ [Effect.Dispatched this (Event.mk "disconnected" Event.Self)] /\
    Forall (fun e => ~ is_disconnect_notification e) before /\
    controllers w' = delete (Gamepad.index gamepad) (controllers w) /\
    controllers w' !! Gamepad.index gamepad = None /\
    heap w' !! this = Some c' /\
    spatial c' = spatial c.
Proof.
  intros gamepad Hthis Hposed Habsent Hslot Hpoll.
  destruct (pollForChanges_spatial c c1 gamepad events Hpoll) as [Hsp1 Hgp1].
  assert (Hsp2 := applyVibes_spatial c1 gamepad
                    (Host.performance_now host (Controller.gamepad c)
                       Host.InRenderVibes)
                    (Host.performance_now host (Controller.gamepad c)
                       Host.InApplyVibes)).
  unfold prototype_update. rewrite Hthis. fold gamepad. rewrite Hpoll.
  cbn [mbind completion_bind JS.bind].
  destruct (applyVibes c1 gamepad _ _) as [c2 pulses]. cbn [fst] in Hsp2.
  rewrite Habsent.
  assert (Hposed2 : Controller.hasPosed c2 = true).
  { assert (E : spatial c2 = spatial c) by congruence.
    unfold spatial in E. injection E as _ E _. congruence. }
  rewrite Hposed2. unfold onGamepadDisconnect.
  cbn [controllers heap next log emit store]. rewrite Hslot.
  eexists. exists (map (Effect.Dispatched this) events
                   ++ map (fun p => Effect.Pulsed (Controller.gamepad c) p.1 p.2) pulses).
  exists c2. split; [reflexivity|]. cbn [controllers heap next log emit store].
  split; [rewrite <- !app_assoc; reflexivity|]. split.
  - apply Forall_app. split.
    + apply Forall_fmap. apply (pollForChanges_not_disconnected _ _ _ _) in Hpoll.
      eapply Forall_impl; [exact Hpoll|]. intros e He. exact He.
    + apply Forall_fmap. apply Forall_forall. intros p _ H. exact H.
  - split; [reflexivity|]. split; [apply lookup_delete_eq|].
    split; [apply lookup_insert_eq | congruence].
Qed.

End Disconnection.

Example poll_loop_registers :
  registry_view
    (update (one_device (vive_wand [0; 0]%float four_released)) empty_world)
  = Some (Some 0, Some true, [Effect.WindowDispatched "vr controller connected" 0]).
Proof. vm_compute. reflexivity. Qed.

(** The adapter is updated at a tick where the pose of its wand is gone. *)
Lemma disconnected_when_pose_lost_witness :
  exists w' before,
    prototype_update (one_device vive_switched_off) 0 vive_registered = Normal w' /\
    log w'
    = log vive_registered ++ before
        ++ [Effect.Dispatched 0 (Event.mk "disconnected" Event.Self)] /\
    Forall (fun e => ~ is_disconnect_notification e) before /\
    controllers w' !! 0 = None.
Proof.
  destruct (disconnected_when_pose_lost (one_device vive_switched_off) 0
              vive_registered posed_vive_adapter posed_vive_adapter []
              eq_refl eq_refl eq_refl eq_refl eq_refl)
    as (w' & before & c' & Hupdate & Hlog & Hnone & _ & Hgone & _).
  exists w', before. auto.
Defined.

(** The same tick, computed: the notification is the only effect and the
    registry is empty afterwards. *)
Example pose_lost_effects :
  registry_view
    (prototype_update (one_device vive_switched_off) 0 vive_registered)
  = Some (None, Some true,
          [Effect.Dispatched 0 (Event.mk "disconnected" Event.Self)]).
Proof. vm_compute. reflexivity. Qed.

(** ** Arm model: runs *)

Section ArmModelDeterminism.
Context {M : ThreeMath}.

(** [update()] reads the clock fields through the elapsed time only. *)
Lemma update_agrees (l : bool) (c lc hq : Quaternion) (hp ep wp : Vector3)
    (t1 lt1 t2 lt2 : option number) (r : Quaternion) (p : OrientationArmModel.Pose)
    (now1 now2 : number) :
  OrientationArmModel.elapsed now1 lt1 = OrientationArmModel.elapsed now2 lt2 ->
  ArmRun.same_but_clock
    (OrientationArmModel.update
       (OrientationArmModel.mk l c lc hq hp ep wp t1 lt1 r p) now1)
    (OrientationArmModel.update
       (OrientationArmModel.mk l c lc hq hp ep wp t2 lt2 r p) now2).
Proof.
  intros Helapsed. unfold OrientationArmModel.update.
  cbv beta iota delta [OrientationArmModel.isLeftHanded
    OrientationArmModel.controllerQ OrientationArmModel.lastControllerQ
    OrientationArmModel.headQ OrientationArmModel.headPos
    OrientationArmModel.elbowPos OrientationArmModel.wristPos
    OrientationArmModel.rootQ OrientationArmModel.pose
    OrientationArmModel.lastTime OrientationArmModel.time
    OrientationArmModel.getHeadYawOrientation_].
  rewrite Helapsed.
  destruct (Euler_setFromQuaternion_YXZ hq) as [[hx hy] hz].
  destruct (Euler_setFromQuaternion_YXZ c) as [[cx cy] cz].
  repeat split.
Qed.

Lemma update_lastTime (a : OrientationArmModel.t) (now : number) :
  OrientationArmModel.lastTime (OrientationArmModel.update a now) = Some now.
Proof.
  unfold OrientationArmModel.update.
  destruct (Euler_setFromQuaternion_YXZ (OrientationArmModel.controllerQ a))
    as [[cx cy] cz].
  reflexivity.
Qed.

(** One tick of two instances that agree but for their clocks, on the
    same input and with the same elapsed time. *)
Lemma tick_agrees (a1 a2 : OrientationArmModel.t) (i : ArmRun.Input)
    (now1 now2 : number) :
  ArmRun.same_but_clock a1 a2 ->
  OrientationArmModel.elapsed now1 (OrientationArmModel.lastTime a1)
  = OrientationArmModel.elapsed now2 (OrientationArmModel.lastTime a2) ->
  ArmRun.same_but_clock (ArmRun.tick a1 i now1) (ArmRun.tick a2 i now2) /\
  OrientationArmModel.lastTime (ArmRun.tick a1 i now1) = Some now1 /\
  OrientationArmModel.lastTime (ArmRun.tick a2 i now2) = Some now2.
Proof.
  intros Hsame Helapsed. split; [|split; apply update_lastTime].
  destruct a1 as [l1 c1 lc1 hq1 hp1 ep1 wp1 t1 lt1 r1 p1].
  destruct a2 as [l2 c2 lc2 hq2 hp2 ep2 wp2 t2 lt2 r2 p2].
  unfold ArmRun.same_but_clock in Hsame.
  cbn [OrientationArmModel.isLeftHanded
    OrientationArmModel.controllerQ OrientationArmModel.lastControllerQ
    OrientationArmModel.headQ OrientationArmModel.headPos
    OrientationArmModel.elbowPos OrientationArmModel.wristPos
    OrientationArmModel.rootQ OrientationArmModel.pose
    OrientationArmModel.lastTime] in Hsame, Helapsed.
  destruct Hsame as (-> & -> & -> & -> & -> & -> & -> & -> & ->).
  apply (update_agrees l2 (ArmRun.controllerQ i) c2 (ArmRun.headQ i)
           (ArmRun.headPos i) ep2 wp2 t1 lt1 t2 lt2 r2 p2 now1 now2 Helapsed).
Qed.

Lemma run_agrees (inputs : list ArmRun.Input) (clock1 clock2 : list number)
    (a1 a2 : OrientationArmModel.t) :
  ArmRun.same_but_clock a1 a2 ->
  ArmRun.elapsed_times (OrientationArmModel.lastTime a1) clock1
  = ArmRun.elapsed_times (OrientationArmModel.lastTime a2) clock2 ->
  ArmRun.run a1 (zip inputs clock1) = ArmRun.run a2 (zip inputs clock2).
Proof.
  revert clock1 clock2 a1 a2.
  induction inputs as [|i inputs IH]; intros clock1 clock2 a1 a2 Hsame Hclock;
    [reflexivity|].
  destruct clock1 as [|now1 clock1], clock2 as [|now2 clock2];
    try discriminate Hclock; [reflexivity|].
  cbn [ArmRun.elapsed_times] in Hclock. injection Hclock as Hnow Hrest.
  destruct (tick_agrees a1 a2 i now1 now2 Hsame Hnow) as (Hsame' & Hl1 & Hl2).
  cbn [zip zip_with ArmRun.run]. f_equal.
  - unfold OrientationArmModel.getPose. apply Hsame'.
  - apply IH; [assumption|]. rewrite Hl1, Hl2. assumption.
Qed.

End ArmModelDeterminism.

(** C9 (amended).  Two arm models, each freshly constructed, are fed the
    same sequence of head positions, head orientations and controller
    orientations, one [update()] after each.  If the elapsed times their
    updates compute, [this.time - this.lastTime], are the same, the first
    one being the clock reading itself since [lastTime] starts as [null],
    then [getPose()] returns the same orientation and position after
    each update. *)
Theorem arm_model_deterministic {M : ThreeMath} (inputs : list ArmRun.Input)
    (clock1 clock2 : list number) :
  ArmRun.elapsed_times None clock1 = ArmRun.elapsed_times None clock2 ->
  ArmRun.run OrientationArmModel.new (zip inputs clock1)
  = ArmRun.run OrientationArmModel.new (zip inputs clock2).
Proof.
  intros Hclock. apply run_agrees; [|exact Hclock].
  repeat split.
Qed.

(** Two runs over the same two inputs, the clock read half a second after
    its origin and sixteen milliseconds later in both. *)
Lemma arm_model_deterministic_witness :
  ArmRun.run (M := FloatThree.math) OrientationArmModel.new
    (zip [raised; raised] [500; 516]%float)
  = ArmRun.run OrientationArmModel.new
      (zip [raised; raised] [500; (500 + 16)]%float).
Proof.
  apply (arm_model_deterministic (M := FloatThree.math) [raised; raised]
           [500; 516]%float [500; (500 + 16)]%float).
  vm_compute. reflexivity.
Defined.

(** C9, as stated, fails: the same inputs and the same time between the
    update calls, sixteen milliseconds, but the first update half a second
    after the clock's origin in one run and a hundred seconds after it in
    the other.  The first poses differ: the elbow is still turning with
    the head in the first run and has followed it in the second. *)
Lemma arm_model_depends_on_first_clock :
  ArmRun.between [500; 516]%float = ArmRun.between [100000; 100016]%float /\
  ArmRun.run (M := FloatThree.math) OrientationArmModel.new
    (zip [raised; raised] [500; 516]%float)
  <> ArmRun.run OrientationArmModel.new
       (zip [raised; raised] [100000; 100016]%float).
Proof.
  split; [vm_compute; reflexivity|].
  intros H. apply (f_equal first_leans_left) in H.
  vm_compute in H. discriminate H.
Qed.

(** * Further properties *)

(** ** Lookup of buttons *)

Lemma lookup_map {A B} (f : A -> B) (l : list A) (j : nat) :
  map f l !! j = f <$> l !! j.
Proof. apply (list_lookup_fmap f l j). Qed.

Lemma distinct_NoDup (l : list string) : distinct l = true -> NoDup l.
Proof.
  induction l as [|x l IH]; cbn [distinct]; [constructor|].
  intros H. apply andb_true_iff in H as [Hx Hl]. constructor; [|auto].
  intros Hin. apply negb_true_iff in Hx.
  assert (existsb (String.eqb x) l = true); [|congruence].
  apply existsb_exists. exists x. split; [|apply String.eqb_refl].
  apply list_elem_of_In. assumption.
Qed.

Lemma getSupportedById_plain (id : string) (s : Supported.t) :
  getSupportedById id = Some s -> plain_names s = true.
Proof.
  intros H. apply getSupportedById_loop_In in H.
  assert (Hall : forallb plain_names (map snd supported) = true)
    by (vm_compute; reflexivity).
  rewrite forallb_forall in Hall. apply Hall. assumption.
Qed.

Lemma index_byName_names {A} (key : A -> string) (l : list A) :
  index_byName key l = index_byName (fun s => s) (map key l).
Proof.
  induction l as [|x l IH] using rev_ind; [reflexivity|].
  rewrite map_app. cbn [map]. rewrite !index_byName_snoc, IH, length_map.
  reflexivity.
Qed.

Lemma generic_name_not_primary (i : nat) : "button_" +:+ string_of_nat i <> "primary".
Proof. cbn. discriminate. Qed.

(** The names the constructor gives: those of the catalog entry, then the
    generic ones. *)
Lemma make_buttons_names (gp : Gamepad.t) (supported : option Supported.t)
    (buttons : list Button.t) (byName : gmap string nat) (p : string) :
  make_buttons gp supported = Normal (buttons, byName, p) ->
  byName = index_byName Button.name buttons /\
  length buttons = length (Gamepad.buttons gp) /\
  forall j y,
    buttons !! j = Some y ->
    Button.name y
    = match (match supported with
             | Some s => match Supported.buttons s with
                         | Some names => names !! j
                         | None => None
                         end
             | None => None
             end) with
      | Some n => n
      | None => "button_" +:+ string_of_nat j
      end.
Proof.
  unfold make_buttons. intros Hmake.
  set (raw := Gamepad.buttons gp) in *.
  assert (Hgeneric : forall renamed,
            renamed = imap make_button raw ->
            forall j y, renamed !! j = Some y ->
                        Button.name y = "button_" +:+ string_of_nat j).
  { intros renamed -> j y Hj. apply (imap_make_button_lookup raw j y Hj). }
  assert (Hmarked : forall renamed q j y,
            mark_primary renamed (index_byName Button.name renamed) q !! j = Some y ->
            exists y0, renamed !! j = Some y0 /\ Button.name y = Button.name y0).
  { intros renamed q j y Hj.
    assert (Hn := mark_primary_names renamed (index_byName Button.name renamed) q).
    assert (Hl : map Button.name (mark_primary renamed (index_byName Button.name renamed) q) !! j
                 = Some (Button.name y)) by (rewrite list_lookup_fmap, Hj; reflexivity).
    rewrite Hn, list_lookup_fmap in Hl.
    destruct (renamed !! j) as [y0|]; [|discriminate].
    exists y0. split; [reflexivity|]. cbn in Hl. congruence. }
  assert (Hindex : forall renamed q,
            index_byName Button.name renamed
            = index_byName Button.name
                (mark_primary renamed (index_byName Button.name renamed) q)).
  { intros renamed q.
    rewrite (index_byName_names Button.name renamed),
            (index_byName_names Button.name (mark_primary _ _ _)),
            mark_primary_names. reflexivity. }
  assert (Hlength : forall renamed q,
            length (mark_primary renamed (index_byName Button.name renamed) q)
            = length renamed).
  { intros renamed q.
    rewrite <- (length_map Button.name), mark_primary_names, length_map.
    reflexivity. }
  destruct supported as [[style axes [names|] primary]|];
    cbn [Supported.buttons].
  - destruct (rename_buttons 0 names (imap make_button raw)) as [renamed|] eqn:Hren;
      [|discriminate].
    cbn in Hmake.
    apply rename_buttons_spec in Hren as (_ & Hlen & Hren).
    assert (Hfinal : forall q j y,
              mark_primary renamed (index_byName Button.name renamed) q !! j = Some y ->
              Button.name y = match names !! j with
                              | Some n => n
                              | None => "button_" +:+ string_of_nat j
                              end).
    { intros q j y Hj. destruct (Hmarked _ _ _ _ Hj) as (y0 & Hy0 & ->).
      destruct (Hren j y0 Hy0) as (b0 & Hb0 & _ & Hname).
      rewrite Hname. destruct (decide (0 <= j)); [|lia]. rewrite Nat.sub_0_r.
      rewrite (Hgeneric _ eq_refl j b0 Hb0). reflexivity. }
    destruct primary as [q|]; injection Hmake as <- <- <-;
      (split; [apply Hindex|]); (split; [rewrite Hlength, Hlen; apply length_imap|]);
      apply Hfinal.
  - cbn in Hmake.
    assert (Hfinal : forall q j y,
              mark_primary (imap make_button raw)
                (index_byName Button.name (imap make_button raw)) q !! j = Some y ->
              Button.name y = "button_" +:+ string_of_nat j).
    { intros q j y Hj. destruct (Hmarked _ _ _ _ Hj) as (y0 & Hy0 & ->).
      apply (Hgeneric _ eq_refl j y0 Hy0). }
    destruct primary as [q|]; injection Hmake as <- <- <-;
      (split; [apply Hindex|]); (split; [rewrite Hlength; apply length_imap|]);
      apply Hfinal.
  - cbn in Hmake. injection Hmake as <- <- <-.
    split; [apply Hindex|]. split; [rewrite Hlength; apply length_imap|].
    intros j y Hj. destruct (Hmarked _ _ _ _ Hj) as (y0 & Hy0 & ->).
    apply (Hgeneric _ eq_refl j y0 Hy0).
Qed.
Section Lookup.
Context {M : ThreeMath}.

Lemma VRController_closure (h : nat) (gp : Gamepad.t) (c : Controller.t) :
  VRController h gp = Normal c ->
  exists byName,
    make_buttons gp (getSupportedById (Gamepad.id gp))
    = Normal (Closure.buttons (Controller.closure c), byName,
              Closure.buttonNamePrimary (Controller.closure c)) /\
    Closure.buttons_byName (Controller.closure c) = byName /\
    Closure.hand (Controller.closure c) = Gamepad.hand gp /\
    Closure.axes (Controller.closure c)
    = fst (make_axes 0.2 gp (getSupportedById (Gamepad.id gp))) /\
    Controller.style c
    = match getSupportedById (Gamepad.id gp) with
      | Some s => Supported.style s
      | None => ""
      end /\
    Controller.axisThreshold c = 0.2%float /\
    Controller.axisPressThreshold c = 0.6%float /\
    Controller.vibeChannels c = initial_vibeChannels /\
    Controller.hasPosed c = false /\
    Controller.armModel c = None.
Proof.
  unfold VRController.
  destruct (make_axes _ gp _) as [axes axes_byName].
  destruct (make_buttons gp _) as [[[buttons byName] p]|]; [|cbn; discriminate].
  cbn. intros [= <-]. exists byName. cbn. repeat split.
Qed.

Lemma VRController_buttons_indexed (h : nat) (gp : Gamepad.t) (c : Controller.t) :
  VRController h gp = Normal c -> buttons_indexed c.
Proof.
  intros Hc. apply VRController_closure in Hc as (byName & Hmake & HbyName & _).
  destruct (make_buttons_names _ _ _ _ _ Hmake) as (Hindex & _ & Hnames).
  unfold buttons_indexed. cbv zeta. rewrite HbyName.
  split; [assumption|].
  destruct (getSupportedById (Gamepad.id gp)) as [s|] eqn:Hs.
  - apply getSupportedById_plain in Hs. unfold plain_names in Hs.
    destruct (Supported.buttons s) as [names|].
    + apply andb_true_iff in Hs as [Hs Hprimary].
      apply andb_true_iff in Hs as [Hdistinct Hgeneric].
      apply distinct_NoDup in Hdistinct.
      rewrite forallb_forall in Hgeneric.
      apply negb_true_iff in Hprimary.
      assert (Hcat : forall j n, names !! j = Some n ->
                String.prefix "button_" n = false /\ n <> "primary").
      { intros j n Hj. split.
        - apply negb_true_iff, Hgeneric.
          apply list_elem_of_In, list_elem_of_lookup. exists j. assumption.
        - intros ->.
          assert (existsb (String.eqb "primary") names = true); [|congruence].
          apply existsb_exists. exists "primary". split; [|reflexivity].
          apply list_elem_of_In, list_elem_of_lookup. exists j. assumption. }
      split.
      * apply NoDup_alt. intros i j x Hi Hj.
        rewrite list_lookup_fmap in Hi, Hj.
        destruct (Closure.buttons (Controller.closure c) !! i) as [bi|] eqn:Hbi;
          [|discriminate].
        destruct (Closure.buttons (Controller.closure c) !! j) as [bj|] eqn:Hbj;
          [|discriminate].
        injection Hi as Hi. injection Hj as Hj.
        rewrite (Hnames i bi Hbi) in Hi. rewrite (Hnames j bj Hbj) in Hj.
        destruct (names !! i) as [ni|] eqn:Hni, (names !! j) as [nj|] eqn:Hnj.
        -- apply (proj1 (NoDup_alt names) Hdistinct i j x); congruence.
        -- exfalso. destruct (Hcat i ni Hni) as [Hp _].
           apply (generic_name_not ni j Hp). congruence.
        -- exfalso. destruct (Hcat j nj Hnj) as [Hp _].
           apply (generic_name_not nj i Hp). congruence.
        -- apply generic_name_inj. congruence.
      * intros Hin. apply list_elem_of_In, list_elem_of_lookup in Hin as [j Hj].
        rewrite list_lookup_fmap in Hj.
        destruct (Closure.buttons (Controller.closure c) !! j) as [bj|] eqn:Hbj;
          [|discriminate].
        injection Hj as Hj. rewrite (Hnames j bj Hbj) in Hj.
        destruct (names !! j) as [nj|] eqn:Hnj.
        -- destruct (Hcat j nj Hnj) as [_ Hne]. contradiction.
        -- apply (generic_name_not_primary j Hj).
    + split.
      * apply NoDup_alt. intros i j x Hi Hj.
        rewrite list_lookup_fmap in Hi, Hj.
        destruct (Closure.buttons (Controller.closure c) !! i) as [bi|] eqn:Hbi;
          [|discriminate].
        destruct (Closure.buttons (Controller.closure c) !! j) as [bj|] eqn:Hbj;
          [|discriminate].
        injection Hi as Hi. injection Hj as Hj.
        rewrite (Hnames i bi Hbi) in Hi. rewrite (Hnames j bj Hbj) in Hj.
        apply generic_name_inj. congruence.
      * intros Hin. apply list_elem_of_In, list_elem_of_lookup in Hin as [j Hj].
        rewrite list_lookup_fmap in Hj.
        destruct (Closure.buttons (Controller.closure c) !! j) as [bj|] eqn:Hbj;
          [|discriminate].
        injection Hj as Hj. rewrite (Hnames j bj Hbj) in Hj.
        apply (generic_name_not_primary j Hj).
  - split.
    + apply NoDup_alt. intros i j x Hi Hj.
      rewrite list_lookup_fmap in Hi, Hj.
      destruct (Closure.buttons (Controller.closure c) !! i) as [bi|] eqn:Hbi;
        [|discriminate].
      destruct (Closure.buttons (Controller.closure c) !! j) as [bj|] eqn:Hbj;
        [|discriminate].
      injection Hi as Hi. injection Hj as Hj.
      rewrite (Hnames i bi Hbi) in Hi. rewrite (Hnames j bj Hbj) in Hj.
      apply generic_name_inj. congruence.
    + intros Hin. apply list_elem_of_In, list_elem_of_lookup in Hin as [j Hj].
      rewrite list_lookup_fmap in Hj.
      destruct (Closure.buttons (Controller.closure c) !! j) as [bj|] eqn:Hbj;
        [|discriminate].
      injection Hj as Hj. rewrite (Hnames j bj Hbj) in Hj.
      apply (generic_name_not_primary j Hj).
Qed.

Lemma pollForChanges_tables (c c1 : Controller.t) (gp : Gamepad.t)
    (events : list Event.t) :
  pollForChanges c gp = Normal (c1, events) -> same_tables c c1.
Proof.
  unfold pollForChanges.
  destruct (poll_hand (Closure.hand (Controller.closure c)) gp) as [hand1 e0].
  destruct (poll_each _ (Closure.axes (Controller.closure c))) as [axes1 e1].
  destruct (poll_buttons 0 gp (Closure.buttons (Controller.closure c)))
    as [[buttons1 e2]|] eqn:Hb; [|cbn; discriminate].
  cbn -[poll_button]. intros [= <- <-].
  destruct (poll_buttons_flags _ _ _ _ _ Hb). repeat split; assumption.
Qed.

Lemma later_tables (c c' : Controller.t) : later c c' -> same_tables c c'.
Proof.
  assert (Htrans : forall c1 c2, same_tables c c1 ->
            Controller.closure c2 = Controller.closure c1 -> same_tables c c2).
  { intros c1 c2 H E. unfold same_tables. rewrite E. exact H. }
  induction 1 as [|c1 c2 gp events _ IH Hpoll|c1 now name intensity _ IH
                  |c1 o v _ IH|c1 now _ IH|c1 gp t1 t2 _ IH|c1 o p _ IH
                  |c1 o now _ IH|c1 m _ IH|c1 h _ IH].
  - repeat split.
  - apply pollForChanges_tables in Hpoll.
    destruct IH as (?&?&?&?), Hpoll as (?&?&?&?). repeat split; congruence.
  - apply (Htrans c1); [assumption|]. unfold setVibe.
    destruct name, intensity; try reflexivity; cbn [fst]; try reflexivity;
      destruct (find_channel 0 _ _); reflexivity.
  - apply (Htrans c1); [assumption | reflexivity].
  - apply (Htrans c1); [assumption | reflexivity].
  - apply (Htrans c1); [assumption|]. unfold applyVibes.
    destruct (Gamepad.hapticActuators gp) as [[|[] ?]|]; try reflexivity.
    unfold renderVibes. destruct (_ || _); reflexivity.
  - apply (Htrans c1); [assumption | reflexivity].
  - apply (Htrans c1); [assumption | reflexivity].
  - apply (Htrans c1); [assumption | reflexivity].
  - apply (Htrans c1); [assumption | reflexivity].
Qed.

Lemma same_tables_indexed (c c' : Controller.t) :
  same_tables c c' -> buttons_indexed c -> buttons_indexed c'.
Proof.
  intros (HbyName & _ & Hnames & _) (Hindex & Hnodup & Hprimary).
  unfold buttons_indexed. cbv zeta. rewrite HbyName, Hnames.
  split; [|split; assumption].
  rewrite Hindex, (index_byName_names Button.name (Closure.buttons (Controller.closure c))),
    (index_byName_names Button.name (Closure.buttons (Controller.closure c'))), Hnames.
  reflexivity.
Qed.

(** Lookup by name under the constructor's tables. *)
Lemma getButton_named (c : Controller.t) (i : nat) (b : Button.t) :
  buttons_indexed c ->
  Closure.buttons (Controller.closure c) !! i = Some b ->
  Closure.buttons_byName (Controller.closure c) !! Button.name b = Some i.
Proof.
  intros (Hindex & Hnodup & _) Hb. rewrite Hindex.
  assert (H := index_byName_lookup Button.name
                 (Closure.buttons (Controller.closure c)) (Button.name b)).
  destruct (index_byName Button.name _ !! Button.name b) as [j|].
  - destruct H as [(x & Hx & Hname) _]. f_equal.
    apply (proj1 (NoDup_alt _) Hnodup j i (Button.name b));
      rewrite list_lookup_fmap; [rewrite Hx | rewrite Hb]; cbn; congruence.
  - exfalso. apply (H i b Hb). reflexivity.
Qed.

End Lookup.
(** X1: [getButton( 'primary' )] on an adapter built for a device with at
    least one button returns a button, whatever was called on the adapter
    since: the only one whose [isPrimary] is [true], the one named
    [buttonNamePrimary]. *)
Theorem getButton_primary {M : ThreeMath} (h : nat) (gp : Gamepad.t)
    (c c' : Controller.t) :
  VRController h gp = Normal c ->
  Gamepad.buttons gp <> [] ->
  later c c' ->
  exists i b,
    getButton c' (VStr "primary") = ButtonLookup.Element b /\
    Closure.buttons (Controller.closure c') !! i = Some b /\
    Button.isPrimary b = true /\
    Button.name b = Closure.buttonNamePrimary (Controller.closure c') /\
    forall j b',
      Closure.buttons (Controller.closure c') !! j = Some b' ->
      Button.isPrimary b' = true -> j = i.
Proof.
  intros Hc Hsome Hlater.
  assert (Hindexed := VRController_buttons_indexed h gp c Hc).
  apply later_tables in Hlater.
  assert (Hindexed' := same_tables_indexed c c' Hlater Hindexed).
  destruct Hlater as (_ & Hp & Hnames & Hflags).
  apply VRController_closure in Hc as (byName & Hmake & _).
  assert (Hwf : match getSupportedById (Gamepad.id gp) with
                | Some s => wf_supported s = true
                | None => True
                end).
  { destruct (getSupportedById (Gamepad.id gp)) eqn:Hs; [|exact I].
    apply (getSupportedById_wf _ _ Hs). }
  destruct (make_buttons_primary gp _ _ _ _ Hwf Hmake Hsome)
    as (i & b & Hb & Hprimary & Honly & Hname & _).
  assert (Hat : forall j,
            Button.name <$> Closure.buttons (Controller.closure c') !! j
            = Button.name <$> Closure.buttons (Controller.closure c) !! j /\
            Button.isPrimary <$> Closure.buttons (Controller.closure c') !! j
            = Button.isPrimary <$> Closure.buttons (Controller.closure c) !! j).
  { intros j. rewrite <- !lookup_map, Hnames, Hflags. split; reflexivity. }
  destruct (Hat i) as [Hni Hfi]. rewrite Hb in Hni, Hfi.
  destruct (Closure.buttons (Controller.closure c') !! i) as [b'|] eqn:Hb';
    [|discriminate].
  cbn in Hni, Hfi. injection Hni as Hni. injection Hfi as Hfi.
  exists i, b'.
  assert (Hnamed := getButton_named c' i b' Hindexed' Hb').
  split.
  { unfold getButton. cbn [String.eqb Ascii.eqb Bool.eqb]. cbv zeta.
    rewrite Hp, <- Hname, <- Hni, Hnamed, Hb'. reflexivity. }
  split; [exact Hb'|]. split; [congruence|]. split; [congruence|].
  intros j y Hy Hyp.
  destruct (Hat j) as [_ Hfj]. rewrite Hy in Hfj.
  destruct (Closure.buttons (Controller.closure c) !! j) as [y0|] eqn:Hy0;
    [|discriminate].
  cbn in Hfj. injection Hfj as Hfj. apply (Honly j y0); congruence.
Qed.

Lemma getButton_primary_witness :
  exists i b,
    getButton vive_adapter (VStr "primary") = ButtonLookup.Element b /\
    Closure.buttons (Controller.closure vive_adapter) !! i = Some b /\
    Button.isPrimary b = true /\
    Button.name b = Closure.buttonNamePrimary (Controller.closure vive_adapter) /\
    forall j b',
      Closure.buttons (Controller.closure vive_adapter) !! j = Some b' ->
      Button.isPrimary b' = true -> j = i.
Proof.
  apply (getButton_primary 0 (vive_wand [0; 0]%float four_released)
           vive_adapter vive_adapter VRController_vive_wand).
  - discriminate.
  - apply later_now.
Defined.

(** X2: on an adapter built by the constructor, whatever was called on it
    since, the names of the buttons are pairwise different and
    [getButton( name )] returns the button of that name; a name no button
    has gives [undefined], unless [Object.prototype] has a property of
    that name, which is then what the getter returns. *)
Theorem getButton_by_name {M : ThreeMath} (h : nat) (gp : Gamepad.t)
    (c c' : Controller.t) :
  VRController h gp = Normal c ->
  later c c' ->
  let buttons := Closure.buttons (Controller.closure c') in
  (forall i b,
     buttons !! i = Some b ->
     getButton c' (VStr (Button.name b)) = ButtonLookup.Element b /\
     forall j b', buttons !! j = Some b' -> Button.name b' = Button.name b -> j = i) /\
  (forall name,
     name <> "primary" ->
     ~ In name (map Button.name buttons) ->
     getButton c' (VStr name)
     = if bool_decide (name ∈ Object_prototype)
       then ButtonLookup.Inherited name else ButtonLookup.Missing).
Proof.
  intros Hc Hlater buttons. subst buttons.
  assert (Hindexed := VRController_buttons_indexed h gp c Hc).
  apply later_tables in Hlater.
  assert (Hindexed' := same_tables_indexed c c' Hlater Hindexed).
  split.
  - intros i b Hb. split.
    + assert (Hnamed := getButton_named c' i b Hindexed' Hb).
      destruct Hindexed' as (_ & _ & Hprimary).
      unfold getButton.
      destruct (String.eqb (Button.name b) "primary") eqn:E.
      * exfalso. apply Hprimary. apply String.eqb_eq in E. rewrite <- E.
        apply list_elem_of_In, list_elem_of_lookup. exists i.
        rewrite lookup_map. rewrite Hb. reflexivity.
      * cbv zeta. rewrite Hnamed. rewrite Hb. reflexivity.
    + intros j b' Hb' Hname. destruct Hindexed' as (_ & Hnodup & _).
      apply (proj1 (NoDup_alt _) Hnodup j i (Button.name b));
        rewrite lookup_map; [rewrite Hb' | rewrite Hb]; cbn; congruence.
  - intros name Hne Hnot. destruct Hindexed' as (Hindex & _ & _).
    unfold getButton.
    destruct (String.eqb name "primary") eqn:E;
      [apply String.eqb_eq in E; contradiction|].
    cbv zeta. rewrite Hindex.
    assert (H := index_byName_lookup Button.name
                   (Closure.buttons (Controller.closure c')) name).
    destruct (index_byName Button.name _ !! name) as [j|]; [|reflexivity].
    exfalso. destruct H as [(x & Hx & Hname) _]. apply Hnot.
    apply list_elem_of_In, list_elem_of_lookup. exists j.
    rewrite lookup_map. rewrite Hx. cbn. congruence.
Qed.

Lemma getButton_by_name_witness :
  getButton vive_adapter (VStr "grip")
  = ButtonLookup.Element (Button.mk "grip" 0 false false false) /\
  getButton vive_adapter (VStr "toString") = ButtonLookup.Inherited "toString" /\
  getButton vive_adapter (VStr "fire") = ButtonLookup.Missing.
Proof.
  destruct (getButton_by_name 0 (vive_wand [0; 0]%float four_released)
              vive_adapter vive_adapter VRController_vive_wand (later_now _))
    as [Hfound Hmissing].
  split; [apply (Hfound 2 (Button.mk "grip" 0 false false false) eq_refl)|].
  split.
  - apply (Hmissing "toString"); [discriminate|].
    cbn. intros [H|[H|[H|[H|[]]]]]; discriminate H.
  - apply (Hmissing "fire"); [discriminate|].
    cbn. intros [H|[H|[H|[H|[]]]]]; discriminate H.
Defined.

Lemma find_seq_first (f : nat -> bool) (n s i : nat) :
  s <= i < s + n -> f i = true -> (forall j, s <= j < i -> f j = false) ->
  find f (seq s n) = Some i.
Proof.
  revert s. induction n as [|n IH]; intros s Hi Hfi Hbefore; [lia|].
  cbn [seq find]. destruct (decide (s = i)) as [->|Hne].
  - rewrite Hfi. reflexivity.
  - rewrite (Hbefore s) by lia. apply IH; [lia | assumption|].
    intros j Hj. apply Hbefore. lia.
Qed.

Lemma find_seq_none (f : nat -> bool) (n s : nat) :
  (forall j, s <= j < s + n -> f j = false) -> find f (seq s n) = None.
Proof.
  revert s. induction n as [|n IH]; intros s Hall; [reflexivity|].
  cbn [seq find]. rewrite (Hall s) by lia. apply IH. intros j Hj. apply Hall. lia.
Qed.

(** The numbers [0], [1], ..., [255] are pairwise different and each is
    equal to itself. *)
Lemma number_of_nat_small (i j : nat) :
  i < 256 -> j < 256 ->
  (number_of_nat i =? number_of_nat j)%float = Nat.eqb i j.
Proof.
  intros Hi Hj.
  assert (Hall :
    let numbers := map number_of_nat (seq 0 256) in
    forallb (fun i =>
      forallb (fun j =>
        Bool.eqb (nth i numbers 0 =? nth j numbers 0)%float (Nat.eqb i j))
        (seq 0 256)) (seq 0 256) = true) by (vm_compute; reflexivity).
  cbv zeta in Hall. rewrite forallb_forall in Hall.
  specialize (Hall i (proj2 (in_seq 256 0 i) (conj (Nat.le_0_l i) Hi))).
  rewrite forallb_forall in Hall.
  specialize (Hall j (proj2 (in_seq 256 0 j) (conj (Nat.le_0_l j) Hj))).
  apply Bool.eqb_prop in Hall.
  change 0%float with (number_of_nat 0) in Hall.
  rewrite !map_nth, !seq_nth in Hall by lia. exact Hall.
Qed.

(** X3: [getButton( index )] for a number returns the button at that
    index, and [undefined] for a number that is no index of the array
    (negative, fractional, [NaN], past the end); an argument that is
    neither a string nor a number gives [undefined].  (Adapters of up to
    256 buttons.) *)
Theorem getButton_by_index {M : ThreeMath} (c : Controller.t) :
  let buttons := Closure.buttons (Controller.closure c) in
  length buttons <= 256 ->
  (forall i b,
     buttons !! i = Some b ->
     getButton c (VNum (number_of_nat i)) = ButtonLookup.Element b) /\
  (forall index,
     (forall i, i < length buttons -> (number_of_nat i =? index)%float = false) ->
     getButton c (VNum index) = ButtonLookup.Missing) /\
  getButton c VUndefined = ButtonLookup.Missing /\
  getButton c VNull = ButtonLookup.Missing /\
  (forall flag, getButton c (VBool flag) = ButtonLookup.Missing).
Proof.
  intros buttons Hlen. subst buttons. repeat split.
  - intros i b Hb. unfold getButton, array_get.
    assert (Hi := lookup_lt_Some _ _ _ Hb).
    rewrite (find_seq_first _ _ 0 i).
    + cbn. rewrite Hb. reflexivity.
    + lia.
    + rewrite number_of_nat_small by lia. apply Nat.eqb_refl.
    + intros j Hj. rewrite number_of_nat_small by lia. apply Nat.eqb_neq. lia.
  - intros index Hnone. unfold getButton, array_get.
    rewrite find_seq_none; [reflexivity|]. intros j Hj. apply Hnone. lia.
Qed.

Lemma getButton_by_index_witness :
  getButton vive_adapter (VNum 1) = ButtonLookup.Element (Button.mk "trigger" 0 false false true) /\
  getButton vive_adapter (VNum 4) = ButtonLookup.Missing /\
  getButton vive_adapter (VNum (-1)) = ButtonLookup.Missing /\
  getButton vive_adapter (VNum 0.5) = ButtonLookup.Missing /\
  getButton vive_adapter (VNum nan) = ButtonLookup.Missing.
Proof.
  destruct (getButton_by_index vive_adapter) as (Hin & Hout & _).
  - cbn. lia.
  - split; [apply (Hin 1 _ eq_refl)|].
    repeat split; apply Hout; intros i Hi; cbn in Hi;
      destruct i as [|[|[|[|i]]]]; try lia; vm_compute; reflexivity.
Defined.
(** ** When the constructor fails *)

Lemma rename_buttons_fits (names : list string) (i : nat) (buttons : list Button.t) :
  i + length names <= length buttons ->
  exists buttons', rename_buttons i names buttons = Normal buttons'.
Proof.
  revert i buttons. induction names as [|n names IH]; intros i buttons Hfit;
    cbn [rename_buttons]; [eexists; reflexivity|].
  cbn [length] in Hfit.
  destruct (lookup_lt_is_Some_2 buttons i) as [b Hb]; [lia|]. rewrite Hb.
  apply IH. rewrite length_insert. lia.
Qed.

Lemma rename_buttons_short (names : list string) (i : nat) (buttons : list Button.t) :
  length buttons < i + length names ->
  i <= length buttons ->
  rename_buttons i names buttons = Throw (TypeError "buttons[ i ] is undefined").
Proof.
  revert i buttons. induction names as [|n names IH]; intros i buttons Hshort Hi;
    cbn [rename_buttons length] in *; [lia|].
  destruct (buttons !! i) as [b|] eqn:Hb; [|reflexivity].
  apply lookup_lt_Some in Hb.
  apply IH; rewrite length_insert; lia.
Qed.

(** X4: the constructor throws, a [TypeError], exactly when the
    identifier matches a catalog entry that names more buttons than the
    device reports; in every other case it returns an adapter. *)
Theorem constructor_throws_iff {M : ThreeMath} (h : nat) (gp : Gamepad.t) :
  (VRController h gp = Throw (TypeError "buttons[ i ] is undefined")
   <-> exists s names,
         getSupportedById (Gamepad.id gp) = Some s /\
         Supported.buttons s = Some names /\
         length (Gamepad.buttons gp) < length names) /\
  ((exists c, VRController h gp = Normal c)
   \/ VRController h gp = Throw (TypeError "buttons[ i ] is undefined")).
Proof.
  unfold VRController, make_buttons.
  destruct (make_axes _ gp _) as [axes axes_byName].
  destruct (getSupportedById (Gamepad.id gp)) as [[style axesMaps [names|] primary]|].
  - destruct (decide (length (Gamepad.buttons gp) < length names)) as [Hshort|Hfits].
    + rewrite rename_buttons_short by (rewrite length_imap; lia).
      cbn. split; [|right; reflexivity].
      split; [|reflexivity]. intros _. eexists _, names. repeat split. assumption.
    + destruct (rename_buttons_fits names 0 (imap make_button (Gamepad.buttons gp)))
        as [renamed ->]; [rewrite length_imap; lia|].
      cbn. split; [|left; destruct primary; eexists; reflexivity].
      split; [destruct primary; discriminate|].
      intros (s & names' & [= <-] & [= <-] & Hlt). contradiction.
  - cbn. split; [|left; destruct primary; eexists; reflexivity].
    split; [destruct primary; discriminate|].
    intros (s & names' & [= <-] & [=] & _).
  - cbn. split; [|left; eexists; reflexivity].
    split; [discriminate|]. intros (s & names' & [=] & _).
Qed.

(** A Gear VR controller, whose entry names a touchpad and a trigger,
    that reports one button only. *)
Example constructor_throws_gearvr :
  VRController (M := FloatThree.math) 0
    (Gamepad.mk "Gear VR Controller" 0 "" [0; 0]%float [released] None None)
  = Throw (TypeError "buttons[ i ] is undefined").
Proof. reflexivity. Qed.

(** ** The first poll of a new adapter *)

Lemma rename_buttons_state (names : list string) (i : nat)
    (buttons buttons' : list Button.t) :
  rename_buttons i names buttons = Normal buttons' ->
  map button_state buttons' = map button_state buttons.
Proof.
  revert i buttons. induction names as [|n names IH]; intros i buttons;
    cbn [rename_buttons]; [intros [= <-]; reflexivity|].
  destruct (buttons !! i) as [b|] eqn:Hb; [|discriminate].
  intros H. rewrite (IH _ _ H).
  apply list_eq. intros j. rewrite !lookup_map.
  destruct (decide (j = i)) as [->|Hne].
  - rewrite list_lookup_insert_eq by (apply lookup_lt_Some in Hb; lia).
    rewrite Hb. reflexivity.
  - rewrite list_lookup_insert_ne by congruence. reflexivity.
Qed.

Lemma make_buttons_state (gp : Gamepad.t) (supported : option Supported.t)
    (buttons : list Button.t) (byName : gmap string nat) (p : string) :
  make_buttons gp supported = Normal (buttons, byName, p) ->
  map button_state buttons = map raw_state (Gamepad.buttons gp).
Proof.
  unfold make_buttons. intros Hmake.
  assert (Hraw : map button_state (imap make_button (Gamepad.buttons gp))
                 = map raw_state (Gamepad.buttons gp)).
  { apply list_eq. intros j. rewrite !lookup_map, list_lookup_imap.
    destruct (Gamepad.buttons gp !! j); reflexivity. }
  assert (Hmark : forall renamed m q,
            map button_state (mark_primary renamed m q) = map button_state renamed).
  { intros renamed m q. unfold mark_primary. destruct (m !! q); [|reflexivity].
    apply alter_preserves. reflexivity. }
  destruct supported as [[style axes [names|] primary]|].
  - destruct (rename_buttons 0 names _) as [renamed|] eqn:Hren; [|discriminate].
    apply rename_buttons_state in Hren.
    cbn in Hmake. destruct primary; injection Hmake as <- <- <-;
      rewrite Hmark; congruence.
  - cbn in Hmake. destruct primary; injection Hmake as <- <- <-;
      rewrite Hmark; congruence.
  - cbn in Hmake. injection Hmake as <- <- <-. rewrite Hmark. congruence.
Qed.

Lemma poll_button_quiet (raw : GamepadButton.t) (b : Button.t) :
  button_state b = raw_state raw ->
  is_NaN (GamepadButton.value raw) = false ->
  poll_button raw b = (b, []).
Proof.
  unfold button_state, raw_state. intros [= Hv Ht Hp] Hnan.
  unfold poll_button. rewrite Hv, Ht, Hp.
  unfold strict_ne. unfold is_NaN in Hnan. apply negb_false_iff in Hnan.
  rewrite Hnan, !Bool.eqb_reflx. cbn.
  destruct b; cbn in *; congruence.
Qed.

Lemma poll_buttons_quiet (gp : Gamepad.t) (buttons : list Button.t) (i : nat) :
  map button_state buttons = map raw_state (drop i (Gamepad.buttons gp)) ->
  Forall (fun raw => is_NaN (GamepadButton.value raw) = false) (Gamepad.buttons gp) ->
  poll_buttons i gp buttons = Normal (buttons, []).
Proof.
  intros Hstate Hnan. revert i Hstate.
  induction buttons as [|b buttons IH]; intros i Hstate; [reflexivity|].
  cbn -[poll_button].
  destruct (drop i (Gamepad.buttons gp)) as [|raw rest] eqn:Hdrop; [discriminate|].
  assert (Hraw : Gamepad.buttons gp !! i = Some raw).
  { rewrite <- (Nat.add_0_r i), <- lookup_drop, Hdrop. reflexivity. }
  rewrite Hraw. injection Hstate as Hv Ht Hp Hrest.
  rewrite poll_button_quiet; [|unfold button_state, raw_state; congruence|].
  - rewrite IH; [reflexivity|].
    replace (drop (S i) (Gamepad.buttons gp)) with rest; [assumption|].
    change (S i) with (1 + i). rewrite Nat.add_comm, <- drop_drop, Hdrop. reflexivity.
  - rewrite Forall_forall in Hnan. apply Hnan.
    apply list_elem_of_lookup. exists i. assumption.
Qed.

Lemma poll_dpad_began (pthr : number) (gp : Gamepad.t) (name : string) (d : DPad.t) :
  DPad.isPressed d = false ->
  Forall dpad_press_began (snd (poll_dpad pthr gp name d)).
Proof.
  intros Hreleased. unfold poll_dpad. rewrite Hreleased.
  destruct (truthy _); cbn; [|constructor].
  constructor; [|constructor]. exists name, (DPad.dir d). reflexivity.
Qed.

Lemma poll_make_dpad_began (pthr : number) (gp : Gamepad.t) (name : string)
    (i0 i1 : nat) :
  Forall dpad_press_began
    (snd (poll_each (poll_dpad pthr gp name) (make_dpad i0 i1))).
Proof.
  unfold poll_each, make_dpad. cbn [snd map concat].
  repeat (apply Forall_app; split); try constructor;
    apply poll_dpad_began; reflexivity.
Qed.

(** The pair the constructor stores is the pair a poll of the same raw
    values compares with it. *)
Lemma filterPair_fresh (thr x y : number) :
  truthy x = true -> truthy y = true ->
  filterPair thr (Some x) (Some y)
  = (Some (fst (paired_deadzone thr x y)), Some (snd (paired_deadzone thr x y))).
Proof.
  intros Hx Hy. unfold filterPair, paired_deadzone. cbv zeta.
  rewrite (filterAxis_falsy thr x Hx), (filterAxis_falsy thr y Hy).
  destruct (thr <? Math_abs x)%float eqn:Ex, (thr <? Math_abs y)%float eqn:Ey;
    cbn [negb andb orb fst snd]; try reflexivity.
  rewrite (filterAxis_zero thr x Ex), (filterAxis_zero thr y Ey). reflexivity.
Qed.

Lemma make_supported_axis_fields (thr : number) (gp : Gamepad.t)
    (axesMap : AxesMap.t) :
  let ax := make_supported_axis thr gp axesMap in
  let isThumbstick := startsWith (AxesMap.name axesMap) "thumbstick" in
  let i0 := fst (AxesMap.indexes axesMap) in
  let i1 := snd (AxesMap.indexes axesMap) in
  Axis.name ax = AxesMap.name axesMap /\
  Axis.indexes ax = AxesMap.indexes axesMap /\
  Axis.isThumbstick ax = isThumbstick /\
  Axis.dpad ax = (if isThumbstick then make_dpad i0 i1 else []) /\
  Axis.value ax
  = if isThumbstick
    then filterPair thr (Gamepad.axes gp !! i0) (Gamepad.axes gp !! i1)
    else (Gamepad.axes gp !! i0, Gamepad.axes gp !! i1).
Proof.
  unfold make_supported_axis. cbv zeta.
  destruct (startsWith (AxesMap.name axesMap) "thumbstick").
  - destruct (filterPair _ _ _). repeat split.
  - repeat split.
Qed.

Lemma poll_supported_axis_began (style : string) (thr pthr : number)
    (gp : Gamepad.t) (axesMap : AxesMap.t) :
  Forall dpad_press_began
    (snd (poll_axis style thr pthr gp (make_supported_axis thr gp axesMap))).
Proof.
  destruct (make_supported_axis_fields thr gp axesMap)
    as (Hname & Hindexes & Hthumb & Hdpad & Hvalue).
  set (ax := make_supported_axis thr gp axesMap) in *.
  destruct (guarded_pair thr gp ax) as [fresh|] eqn:Hguard.
  - apply guarded_pair_Some in Hguard as (x & y & Hx & Hy & Tx & Ty & ->).
    rewrite (poll_axis_guarded style thr pthr gp ax x y Hx Hy Tx Ty). cbv zeta.
    cbn [snd].
    assert (Hstored : Axis.value ax
                      = (Some (fst (fresh_pair thr (Axis.isThumbstick ax) x y)),
                         Some (snd (fresh_pair thr (Axis.isThumbstick ax) x y)))).
    { rewrite Hvalue, Hthumb. rewrite Hindexes in Hx, Hy. rewrite Hx, Hy.
      unfold fresh_pair.
      destruct (startsWith (AxesMap.name axesMap) "thumbstick").
      - apply (filterPair_fresh thr x y Tx Ty).
      - reflexivity. }
    rewrite Hstored, (fresh_pair_settled thr (Axis.isThumbstick ax) x y Tx Ty).
    cbn [app]. rewrite Hthumb, Hdpad.
    destruct (startsWith (AxesMap.name axesMap) "thumbstick").
    + apply poll_make_dpad_began.
    + constructor.
  - rewrite (poll_axis_unguarded style thr pthr gp ax Hguard). constructor.
Qed.

Lemma poll_generic_axis_quiet (style : string) (thr pthr : number)
    (gp : Gamepad.t) (i : nat) :
  snd (poll_axis style thr pthr gp (make_generic_axis gp i)) = [].
Proof.
  set (ax := make_generic_axis gp i).
  destruct (guarded_pair thr gp ax) as [fresh|] eqn:Hguard.
  - apply guarded_pair_Some in Hguard as (x & y & Hx & Hy & Tx & Ty & ->).
    rewrite (poll_axis_guarded style thr pthr gp ax x y Hx Hy Tx Ty). cbv zeta.
    subst ax. unfold make_generic_axis in *. cbn [Axis.indexes fst snd] in Hx, Hy.
    cbn [Axis.isThumbstick Axis.value Axis.dpad Axis.name snd fst].
    rewrite Hx, Hy. unfold fresh_pair, pair_differs. cbn [fst snd strict_ne_opt].
    rewrite (truthy_strict_ne_refl x Tx), (truthy_strict_ne_refl y Ty). reflexivity.
  - rewrite (poll_axis_unguarded style thr pthr gp ax Hguard). reflexivity.
Qed.

(** X5: a poll of a new adapter against the state it was built from
    completes and dispatches no change of hand, axes or buttons, provided
    no raw button value is [NaN]; what it does dispatch are the
    ["... press began"] events of the d-pad directions a thumbstick is
    already held in. *)
Theorem first_poll_quiet {M : ThreeMath} (h : nat) (gp : Gamepad.t)
    (c : Controller.t) :
  VRController h gp = Normal c ->
  Forall (fun raw => is_NaN (GamepadButton.value raw) = false) (Gamepad.buttons gp) ->
  exists c' events,
    pollForChanges c gp = Normal (c', events) /\
    Forall dpad_press_began events /\
    Closure.hand (Controller.closure c') = Closure.hand (Controller.closure c) /\
    Closure.buttons (Controller.closure c') = Closure.buttons (Controller.closure c).
Proof.
  intros Hc Hnan.
  apply VRController_closure in Hc
    as (byName & Hmake & _ & Hhand & Haxes & _ & Hthr & _).
  apply make_buttons_state in Hmake.
  assert (Hpoll : poll_buttons 0 gp (Closure.buttons (Controller.closure c))
                  = Normal (Closure.buttons (Controller.closure c), [])).
  { apply poll_buttons_quiet; [rewrite drop_0|]; assumption. }
  destruct (pollForChanges c gp) as [[c' events]|] eqn:Hp.
  - exists c', events. split; [reflexivity|].
    assert (Hevents := pollForChanges_events c c' gp events Hp).
    assert (Hparts : Closure.hand (Controller.closure c')
                     = Closure.hand (Controller.closure c) /\
                     Closure.buttons (Controller.closure c')
                     = Closure.buttons (Controller.closure c)).
    { revert Hp. unfold pollForChanges. rewrite Hpoll.
      unfold poll_hand. rewrite Hhand, String.eqb_refl. cbn [negb].
      destruct (poll_each _ _) as [axes1 e1]. cbn. intros [= <- _].
      split; reflexivity. }
    split; [|exact Hparts].
    rewrite Hevents. apply Forall_app; split; [|apply Forall_app; split].
    + unfold poll_hand. rewrite Hhand, String.eqb_refl. constructor.
    + apply Forall_concat, Forall_fmap, Forall_forall. intros ax Hax.
      rewrite Haxes in Hax. rewrite Hthr. unfold make_axes in Hax.
      destruct (getSupportedById (Gamepad.id gp)) as [[style axesMaps names primary]|].
      * destruct axesMaps as [axesMaps|]; cbn [fst] in Hax.
        -- apply list_elem_of_fmap in Hax as (axesMap & -> & _).
           apply poll_supported_axis_began.
        -- apply list_elem_of_fmap in Hax as (i & -> & _). cbn.
           rewrite poll_generic_axis_quiet. constructor.
      * cbn [fst] in Hax. apply list_elem_of_fmap in Hax as (i & -> & _). cbn.
        rewrite poll_generic_axis_quiet. constructor.
    + replace (concat _) with (@nil Event.t); [constructor|].
      apply poll_buttons_events in Hpoll. rewrite drop_0 in Hpoll. exact Hpoll.
  - exfalso. revert Hp. unfold pollForChanges. rewrite Hpoll.
    destruct (poll_hand _ gp), (poll_each _ _). cbn. discriminate.
Qed.

Lemma first_poll_quiet_witness :
  exists c c' events,
    VRController (M := FloatThree.math) 1
      (touch_right [0.3; 0.7]%float six_released) = Normal c /\
    pollForChanges c (touch_right [0.3; 0.7]%float six_released)
    = Normal (c', events) /\
    Forall dpad_press_began events.
Proof.
  eexists.
  destruct (first_poll_quiet (M := FloatThree.math) 1
              (touch_right [0.3; 0.7]%float six_released) _ eq_refl)
    as (c' & events & Hpoll & Hbegan & _).
  - repeat constructor.
  - exists c', events. split; [reflexivity|]. split; assumption.
Defined.
(** ** What a poll leaves in the buttons *)

Lemma poll_buttons_fits (gp : Gamepad.t) (buttons : list Button.t) (i : nat) :
  i + length buttons <= length (Gamepad.buttons gp) ->
  exists buttons' events, poll_buttons i gp buttons = Normal (buttons', events).
Proof.
  revert i. induction buttons as [|b buttons IH]; intros i Hfit;
    cbn -[poll_button]; [eexists _, _; reflexivity|].
  cbn [length] in Hfit.
  destruct (lookup_lt_is_Some_2 (Gamepad.buttons gp) i) as [raw ->]; [lia|].
  destruct (poll_button raw b) as [b1 e1].
  destruct (IH (S i)) as (rest & e2 & ->); [lia|].
  cbn. eexists _, _. reflexivity.
Qed.

Lemma poll_buttons_short (gp : Gamepad.t) (buttons : list Button.t) (i : nat) :
  length (Gamepad.buttons gp) < i + length buttons ->
  i <= length (Gamepad.buttons gp) ->
  poll_buttons i gp buttons = Throw (TypeError "gamepad.buttons[ i ] is undefined").
Proof.
  revert i. induction buttons as [|b buttons IH]; intros i Hshort Hi;
    cbn -[poll_button]; cbn [length] in Hshort; [lia|].
  destruct (Gamepad.buttons gp !! i) as [raw|] eqn:Hraw; [|reflexivity].
  apply lookup_lt_Some in Hraw.
  destruct (poll_button raw b) as [b1 e1].
  rewrite IH by lia. reflexivity.
Qed.

Lemma poll_button_synced (raw : GamepadButton.t) (b : Button.t) :
  let b' := fst (poll_button raw b) in
  Button.name b' = Button.name b /\
  Button.isPrimary b' = Button.isPrimary b /\
  Button.isTouched b' = GamepadButton.touched raw /\
  Button.isPressed b' = GamepadButton.pressed raw /\
  same_number (Button.value b') (GamepadButton.value raw).
Proof.
  unfold poll_button, same_number, strict_ne. cbn [fst Button.name Button.isPrimary
    Button.isTouched Button.isPressed Button.value].
  split; [reflexivity|]. split; [reflexivity|].
  split; [destruct (Button.isTouched b), (GamepadButton.touched raw); reflexivity|].
  split; [destruct (Button.isPressed b), (GamepadButton.pressed raw); reflexivity|].
  destruct (Button.value b =? GamepadButton.value raw)%float eqn:E; cbn [negb];
    [right; exact E | left; reflexivity].
Qed.

Lemma poll_buttons_synced (gp : Gamepad.t) (buttons buttons' : list Button.t)
    (events : list Event.t) (i : nat) :
  poll_buttons i gp buttons = Normal (buttons', events) ->
  forall j b',
    buttons' !! j = Some b' ->
    exists raw b,
      Gamepad.buttons gp !! (i + j) = Some raw /\
      buttons !! j = Some b /\
      b' = fst (poll_button raw b).
Proof.
  revert i buttons' events. induction buttons as [|b buttons IH];
    intros i buttons' events; cbn -[poll_button].
  - intros [= <- <-] j b' Hj. rewrite lookup_nil in Hj. discriminate.
  - destruct (Gamepad.buttons gp !! i) as [raw|] eqn:Hraw; [|discriminate].
    destruct (poll_button raw b) as [b1 e1] eqn:Hb.
    destruct (poll_buttons (S i) gp buttons) as [[rest e2]|] eqn:Hrest;
      [|discriminate].
    cbn -[poll_button]. intros [= <- <-] [|j] b' Hj.
    + injection Hj as <-. exists raw, b. rewrite Nat.add_0_r, Hb.
      split; [assumption|]. split; reflexivity.
    + destruct (IH _ _ _ Hrest j b' Hj) as (raw' & b0 & Hraw' & Hb0 & ->).
      exists raw', b0. replace (i + S j) with (S i + j) by lia.
      split; [assumption|]. split; [assumption | reflexivity].
Qed.

(** X6: a poll throws, a [TypeError], exactly when the device reports
    fewer buttons than the adapter tracks.  When it completes, every
    tracked button is in step with its raw record: the touched and
    pressed flags are the raw ones and the value is the raw value (up to
    [===], which does not tell [0] from [-0]); names and primary flags
    are as before, and raw buttons beyond the tracked ones are ignored. *)
Theorem pollForChanges_buttons {M : ThreeMath} (c : Controller.t) (gp : Gamepad.t) :
  (pollForChanges c gp = Throw (TypeError "gamepad.buttons[ i ] is undefined")
   <-> length (Gamepad.buttons gp) < length (Closure.buttons (Controller.closure c))) /\
  ((exists c' events, pollForChanges c gp = Normal (c', events))
   <-> length (Closure.buttons (Controller.closure c)) <= length (Gamepad.buttons gp)) /\
  (forall c' events,
     pollForChanges c gp = Normal (c', events) ->
     length (Closure.buttons (Controller.closure c'))
     = length (Closure.buttons (Controller.closure c)) /\
     forall i b',
       Closure.buttons (Controller.closure c') !! i = Some b' ->
       exists raw b,
         Gamepad.buttons gp !! i = Some raw /\
         Closure.buttons (Controller.closure c) !! i = Some b /\
         Button.name b' = Button.name b /\
         Button.isPrimary b' = Button.isPrimary b /\
         Button.isTouched b' = GamepadButton.touched raw /\
         Button.isPressed b' = GamepadButton.pressed raw /\
         same_number (Button.value b') (GamepadButton.value raw)).
Proof.
  unfold pollForChanges.
  destruct (poll_hand (Closure.hand (Controller.closure c)) gp) as [hand1 e0].
  destruct (poll_each _ (Closure.axes (Controller.closure c))) as [axes1 e1].
  destruct (decide (length (Gamepad.buttons gp)
                    < length (Closure.buttons (Controller.closure c)))) as [Hshort|Hfits].
  - rewrite poll_buttons_short by (cbn; lia). cbn.
    split; [split; [intros _; assumption | reflexivity]|].
    split; [|discriminate].
    split; [intros (c' & events & [=]) | lia].
  - destruct (poll_buttons_fits gp (Closure.buttons (Controller.closure c)) 0)
      as (buttons' & e2 & Hpoll); [cbn; lia|].
    rewrite Hpoll. cbn -[poll_button].
    split; [split; [discriminate | lia]|].
    split; [split; [lia | intros _; eexists _, _; reflexivity]|].
    intros c' events [= <- <-]. cbn -[poll_button].
    split.
    { destruct (poll_buttons_flags _ _ _ _ _ Hpoll) as [_ Hnames].
      rewrite <- (length_map Button.name), Hnames, length_map. reflexivity. }
    intros i b' Hb'.
    destruct (poll_buttons_synced _ _ _ _ _ Hpoll i b' Hb') as (raw & b & Hraw & Hb & ->).
    exists raw, b. split; [assumption|]. split; [assumption|].
    apply poll_button_synced.
Qed.
(** ** Haptic channels *)

Lemma find_channel_Some (channels : list VibeChannel.t) (name : string) (i k : nat) :
  find_channel i channels name = Some k ->
  exists j ch,
    k = i + j /\ channels !! j = Some ch /\ VibeChannel.name ch = name /\
    forall j' ch', j' < j -> channels !! j' = Some ch' -> VibeChannel.name ch' <> name.
Proof.
  revert i. induction channels as [|ch channels IH]; intros i; cbn [find_channel];
    [discriminate|].
  destruct (String.eqb (VibeChannel.name ch) name) eqn:E.
  - intros [= <-]. exists 0, ch. apply String.eqb_eq in E.
    split; [lia|]. split; [reflexivity|]. split; [assumption|]. intros; lia.
  - intros H. destruct (IH _ H) as (j & ch0 & -> & Hj & Hname & Hfirst).
    exists (S j), ch0. split; [lia|]. split; [assumption|]. split; [assumption|].
    intros [|j'] ch' Hlt Hch'.
    + injection Hch' as <-. apply String.eqb_neq. assumption.
    + apply (Hfirst j' ch'); [lia | assumption].
Qed.

Lemma find_channel_None (channels : list VibeChannel.t) (name : string) (i : nat) :
  find_channel i channels name = None ->
  forall j ch, channels !! j = Some ch -> VibeChannel.name ch <> name.
Proof.
  revert i. induction channels as [|ch channels IH]; intros i; cbn [find_channel].
  - intros _ j ch' Hj. rewrite lookup_nil in Hj. discriminate.
  - destruct (String.eqb (VibeChannel.name ch) name) eqn:E; [discriminate|].
    intros H [|j] ch' Hj.
    + injection Hj as <-. apply String.eqb_neq. assumption.
    + apply (IH _ H j ch' Hj).
Qed.

(** ** Scheduled commands *)

Lemma last_cons {A} (x d : A) (l : list A) : List.last (x :: l) d = List.last l x.
Proof.
  revert x d. induction l as [|y l IH]; intros x d; [reflexivity|].
  change (List.last (y :: l) d = List.last (y :: l) x). rewrite !IH. reflexivity.
Qed.

Lemma drain_due (now : number) (intensity : JS.value)
    (commands : list (number * JS.value)) :
  exists due,
    commands = due ++ snd (drain now intensity commands) /\
    Forall (fun cmd => (fst cmd <? now)%float = true) due /\
    match snd (drain now intensity commands) with
    | [] => True
    | cmd :: _ => (fst cmd <? now)%float = false
    end /\
    fst (drain now intensity commands) = List.last (map snd due) intensity.
Proof.
  revert intensity. induction commands as [|[at_time v] commands IH]; intros intensity.
  - exists []. cbn. repeat split. constructor.
  - cbn [drain]. destruct (at_time <? now)%float eqn:E.
    + destruct (IH v) as (due & Hsplit & Hdue & Hnext & Hlast).
      exists ((at_time, v) :: due). split; [cbn; congruence|].
      split; [constructor; assumption|]. split; [assumption|].
      rewrite Hlast. cbn [map snd]. rewrite last_cons. reflexivity.
    + exists []. cbn. repeat split; [constructor | assumption].
Qed.

(** X8: rendering a channel applies its scheduled commands in queue
    order for as long as the one at the front is due ([now] later than
    its time) and stops at the first that is not, even when a due one is
    queued behind it; the channel's intensity is the value of the last
    command applied, or [0] when that is not a number. *)
Theorem render_channel_due (now : number) (channel : VibeChannel.t) :
  exists due,
    VibeChannel.commands channel
    = due ++ VibeChannel.commands (render_channel now channel) /\
    Forall (fun cmd => (fst cmd <? now)%float = true) due /\
    match VibeChannel.commands (render_channel now channel) with
    | [] => True
    | cmd :: _ => (fst cmd <? now)%float = false
    end /\
    VibeChannel.name (render_channel now channel) = VibeChannel.name channel /\
    VibeChannel.intensity (render_channel now channel)
    = (if typeof_number (List.last (map snd due) (VibeChannel.intensity channel))
       then List.last (map snd due) (VibeChannel.intensity channel)
       else VNum 0).
Proof.
  destruct (drain_due now (VibeChannel.intensity channel) (VibeChannel.commands channel))
    as (due & Hsplit & Hdue & Hnext & Hlast).
  exists due. unfold render_channel.
  destruct (drain now _ _) as [intensity commands]. cbn [fst snd] in *.
  cbn [VibeChannel.commands VibeChannel.name VibeChannel.intensity].
  rewrite Hlast. repeat split; assumption.
Qed.

(** A command behind one that is not yet due waits, due or not. *)
Example render_channel_head_of_line :
  render_channel 100
    (VibeChannel.mk "engine" (VNum 0.2) [(500, VNum 0.8); (50, VNum 0.1)]%float)
  = VibeChannel.mk "engine" (VNum 0.2) [(500, VNum 0.8); (50, VNum 0.1)]%float.
Proof. reflexivity. Qed.

Section Haptics.
Context {M : ThreeMath}.

Lemma setVibe_string (c : Controller.t) (now : number) (name : string)
    (intensity : JS.value) :
  exists i,
    snd (setVibe c now (VStr name) intensity) = Some (Scheduler.mk i now) /\
    i <= length (channels_of c) /\
    (forall j ch, j < i -> channels_of c !! j = Some ch -> VibeChannel.name ch <> name) /\
    (i < length (channels_of c) ->
     exists ch, channels_of c !! i = Some ch /\ VibeChannel.name ch = name) /\
    length (channels_of (fst (setVibe c now (VStr name) intensity)))
    = Nat.max (length (channels_of c)) (S i) /\
    (forall j, j <> i ->
       channels_of (fst (setVibe c now (VStr name) intensity)) !! j
       = channels_of c !! j) /\
    channels_of (fst (setVibe c now (VStr name) intensity)) !! i
    = Some (VibeChannel.mk name
              (if typeof_number intensity then intensity
               else match channels_of c !! i with
                    | Some ch => VibeChannel.intensity ch
                    | None => VNum 0
                    end)
              []).
Proof.
  unfold channels_of, setVibe. cbv zeta.
  set (channels := VibeChannels.channels (Controller.vibeChannels c)).
  destruct (find_channel 0 channels name) as [i|] eqn:Hfind.
  + apply find_channel_Some in Hfind as (j & ch & -> & Hch & Hname & Hfirst).
    cbn [Nat.add]. exists j. assert (Hj := lookup_lt_Some _ _ _ Hch).
    split; [reflexivity|]. split; [lia|].
    split; [exact Hfirst|].
    split; [intros _; exists ch; split; assumption|].
    destruct (typeof_number intensity); cbn [fst Controller.with_vibeChannels
      Controller.vibeChannels VibeChannels.channels];
      rewrite ?length_alter; (split; [lia|]); split.
    * intros j' Hne. rewrite !list_lookup_alter_ne by congruence. reflexivity.
    * rewrite !list_lookup_alter_eq, Hch. cbn. rewrite Hname. reflexivity.
    * intros j' Hne. rewrite !list_lookup_alter_ne by congruence. reflexivity.
    * rewrite !list_lookup_alter_eq, Hch. cbn. rewrite Hname. reflexivity.
  + assert (Hnone := find_channel_None _ _ _ Hfind).
    exists (length channels). split; [reflexivity|]. split; [lia|].
    split; [intros j ch _ Hch; apply (Hnone j ch Hch)|].
    split; [lia|].
    destruct (typeof_number intensity); cbn [fst Controller.with_vibeChannels
      Controller.vibeChannels VibeChannels.channels];
      rewrite ?length_alter, length_app; cbn [length]; (split; [lia|]); split.
    * intros j' Hne. rewrite list_lookup_alter_ne by congruence.
      destruct (decide (j' < length channels)).
      -- apply lookup_app_l. assumption.
      -- rewrite lookup_app_r by lia.
         rewrite (lookup_ge_None_2 channels) by lia.
         destruct (j' - length channels) as [|d] eqn:E; [lia | reflexivity].
    * rewrite list_lookup_alter_eq, list_lookup_middle by reflexivity.
      reflexivity.
    * intros j' Hne.
      destruct (decide (j' < length channels)).
      -- apply lookup_app_l. assumption.
      -- rewrite lookup_app_r by lia.
         rewrite (lookup_ge_None_2 channels) by lia.
         destruct (j' - length channels) as [|d] eqn:E; [lia | reflexivity].
    * rewrite list_lookup_middle by reflexivity.
      rewrite (lookup_ge_None_2 channels) by lia. reflexivity.
Qed.

End Haptics.
(** X7: [setVibe( name, intensity )] with a string name selects the first
    channel of that name, or appends a new one when there is none, drops
    the commands scheduled on it, and sets its intensity when the second
    argument is a number (a new channel starts at [0], a selected one
    keeps its intensity otherwise); no other channel changes.  The
    scheduler it returns starts at the clock reading.  [setVibe( x )] with
    a number alone is [setVibe( '', x )], and a call whose first argument
    is neither returns [undefined] and changes nothing. *)
Theorem setVibe_channel {M : ThreeMath} (c : Controller.t) (now : number) :
  (forall (name : string) (intensity : JS.value),
     exists i,
       snd (setVibe c now (VStr name) intensity) = Some (Scheduler.mk i now) /\
       i <= length (channels_of c) /\
       (forall j ch, j < i -> channels_of c !! j = Some ch -> VibeChannel.name ch <> name) /\
       (i < length (channels_of c) ->
        exists ch, channels_of c !! i = Some ch /\ VibeChannel.name ch = name) /\
       length (channels_of (fst (setVibe c now (VStr name) intensity)))
       = Nat.max (length (channels_of c)) (S i) /\
       (forall j, j <> i ->
          channels_of (fst (setVibe c now (VStr name) intensity)) !! j
          = channels_of c !! j) /\
       channels_of (fst (setVibe c now (VStr name) intensity)) !! i
       = Some (VibeChannel.mk name
                 (if typeof_number intensity then intensity
                  else match channels_of c !! i with
                       | Some ch => VibeChannel.intensity ch
                       | None => VNum 0
                       end)
                 [])) /\
  (forall x, setVibe c now (VNum x) VUndefined = setVibe c now (VStr "") (VNum x)) /\
  (forall name intensity,
     match name with
     | VStr _ => False
     | VNum _ => intensity <> VUndefined
     | _ => True
     end ->
     setVibe c now name intensity = (c, None)).
Proof.
  split; [|split].
  - intros name intensity. apply setVibe_string.
  - reflexivity.
  - intros name intensity H. unfold setVibe.
    destruct name; try contradiction; try reflexivity.
    destruct intensity; try reflexivity. contradiction.
Qed.
Section HapticsMore.
Context {M : ThreeMath}.

(** X9: [setVibe( name ).wait( d ).set( v )] at clock reading [t] queues
    [v] on the channel for the time [t + d]: a [renderVibes] at a reading
    later than that makes [v] the channel's intensity and empties the
    queue; one at any other reading keeps the intensity the channel had
    and the command. *)
Theorem schedule_round_trip (c : Controller.t) (t d now v : number) (name : string) :
  exists i old,
    snd (setVibe c t (VStr name) VUndefined) = Some (Scheduler.mk i t) /\
    channels_of (fst (setVibe c t (VStr name) VUndefined)) !! i
    = Some (VibeChannel.mk name old []) /\
    channels_of
      (fst (renderVibes
              (Scheduler_set (fst (setVibe c t (VStr name) VUndefined))
                 (Scheduler_wait (Scheduler.mk i t) d) (VNum v))
              now)) !! i
    = Some (if (t + d <? now)%float
            then VibeChannel.mk name (VNum v) []
            else VibeChannel.mk name (if typeof_number old then old else VNum 0)
                   [((t + d)%float, VNum v)]).
Proof.
  destruct (setVibe_string c t name VUndefined)
    as (i & Hreturn & _ & _ & _ & _ & _ & Hselected).
  cbn [typeof_number] in Hselected.
  eexists i, _. split; [exact Hreturn|]. split; [exact Hselected|].
  unfold channels_of in *. unfold renderVibes, Scheduler_set, Scheduler_wait.
  cbn [fst Controller.with_vibeChannels Controller.vibeChannels VibeChannels.channels
       Scheduler.channel Scheduler.cursor].
  rewrite lookup_map, list_lookup_alter_eq, Hselected.
  cbn [fmap option_fmap option_map VibeChannel.name VibeChannel.intensity
       VibeChannel.commands app].
  unfold render_channel.
  cbn [VibeChannel.name VibeChannel.intensity VibeChannel.commands drain].
  destruct (t + d <? now)%float; reflexivity.
Qed.

Lemma render_channel_idle (now : number) (ch : VibeChannel.t) :
  VibeChannel.commands ch = [] ->
  typeof_number (VibeChannel.intensity ch) = true ->
  render_channel now ch = ch.
Proof.
  destruct ch as [name intensity commands]. cbn. intros -> H.
  unfold render_channel. cbn. rewrite H. reflexivity.
Qed.

Lemma render_channel_typeof (now : number) (ch : VibeChannel.t) :
  typeof_number (VibeChannel.intensity (render_channel now ch)) = true.
Proof. destruct (render_channel_number now ch) as [n ->]. reflexivity. Qed.

Lemma renderVibes_idle (c : Controller.t) (now : number) :
  Forall (fun ch => VibeChannel.commands ch = []) (channels_of c) ->
  Forall (fun ch => typeof_number (VibeChannel.intensity ch) = true) (channels_of c) ->
  channels_of (fst (renderVibes c now)) = channels_of c /\
  snd (renderVibes c now)
  = Math_min 1 (Math_max 0 (sum_intensities (channels_of c))).
Proof.
  intros Hidle Hnum. unfold renderVibes, channels_of in *. cbn.
  assert (H : map (render_channel now)
                (VibeChannels.channels (Controller.vibeChannels c))
              = VibeChannels.channels (Controller.vibeChannels c)).
  { induction (VibeChannels.channels (Controller.vibeChannels c)) as [|ch l IH];
      [reflexivity|].
    apply Forall_cons in Hidle as [H1 Hidle]. apply Forall_cons in Hnum as [H2 Hnum].
    cbn [map]. rewrite render_channel_idle, IH by assumption. reflexivity. }
  rewrite H. split; reflexivity.
Qed.

Lemma applyVibes_pulsed (c : Controller.t) (gp : Gamepad.t) (t1 t2 r duration : number) :
  snd (applyVibes c gp t1 t2) = [(r, duration)] ->
  duration = VIBE_TIME_MAX /\
  exists rest,
    Gamepad.hapticActuators gp = Some (true :: rest) /\
    VibeChannels.prior (Controller.vibeChannels (fst (applyVibes c gp t1 t2))) = r /\
    VibeChannels.lastCommanded (Controller.vibeChannels (fst (applyVibes c gp t1 t2)))
    = Some t2 /\
    Forall (fun ch => typeof_number (VibeChannel.intensity ch) = true)
      (channels_of (fst (applyVibes c gp t1 t2))) /\
    r = Math_min 1
          (Math_max 0 (sum_intensities (channels_of (fst (applyVibes c gp t1 t2))))).
Proof.
  unfold applyVibes.
  destruct (Gamepad.hapticActuators gp) as [[|[] rest]|]; try discriminate.
  assert (Hnum : Forall (fun ch => typeof_number (VibeChannel.intensity ch) = true)
                   (channels_of (fst (renderVibes c t1)))).
  { unfold renderVibes, channels_of. cbn.
    apply Forall_fmap, Forall_forall. intros ch _. apply render_channel_typeof. }
  assert (Hr : snd (renderVibes c t1)
               = Math_min 1
                   (Math_max 0 (sum_intensities (channels_of (fst (renderVibes c t1))))))
    by reflexivity.
  destruct (renderVibes c t1) as [c1 r1]. cbn [fst snd] in *. cbv zeta.
  destruct (strict_ne r1 _ || _); [|discriminate].
  cbn [fst snd]. intros [= <- <-]. split; [reflexivity|].
  exists rest. split; [reflexivity|]. split; [reflexivity|]. split; [reflexivity|].
  split; assumption.
Qed.

(** X10: [applyVibes] on a device without a first actuator does nothing,
    not even rendering.  With one, an adapter fresh from the constructor
    sends no pulse.  Once a pulse of intensity [r] went out at [t2], and
    with nothing scheduled, the next call sends [r] again exactly when more
    than half of [VIBE_TIME_MAX] has passed since [t2] (or [r] is [NaN]),
    and nothing otherwise; every pulse lasts [VIBE_TIME_MAX]. *)
Theorem applyVibes_heartbeat (c : Controller.t) (gp : Gamepad.t)
    (t1 t2 t3 t4 : number) :
  (match Gamepad.hapticActuators gp with
   | Some (true :: _) => True
   | _ => applyVibes c gp t1 t2 = (c, [])
   end) /\
  (Controller.vibeChannels c = initial_vibeChannels ->
   snd (applyVibes c gp t1 t2) = []) /\
  (forall r duration,
     snd (applyVibes c gp t1 t2) = [(r, duration)] ->
     Forall (fun ch => VibeChannel.commands ch = [])
       (channels_of (fst (applyVibes c gp t1 t2))) ->
     duration = VIBE_TIME_MAX /\
     snd (applyVibes (fst (applyVibes c gp t1 t2)) gp t3 t4)
     = if is_NaN r || (VIBE_TIME_MAX / 2 <? t4 - t2)%float
       then [(r, VIBE_TIME_MAX)] else []).
Proof.
  split; [|split].
  - unfold applyVibes. destruct (Gamepad.hapticActuators gp) as [[|[] ?]|]; auto.
  - intros Hfresh. unfold applyVibes.
    destruct (Gamepad.hapticActuators gp) as [[|[] ?]|]; try reflexivity.
    unfold renderVibes. rewrite Hfresh. reflexivity.
  - intros r duration Hpulse Hidle.
    destruct (applyVibes_pulsed c gp t1 t2 r duration Hpulse)
      as (Hduration & rest & Hact & Hprior & Hlast & Hnum & Hr).
    split; [assumption|].
    set (c2 := fst (applyVibes c gp t1 t2)) in *.
    unfold applyVibes. rewrite Hact.
    destruct (renderVibes_idle c2 t3 Hidle Hnum) as [Hchannels Hsum].
    assert (Hvibes : VibeChannels.prior
                       (Controller.vibeChannels (fst (renderVibes c2 t3))) = r /\
                     VibeChannels.lastCommanded
                       (Controller.vibeChannels (fst (renderVibes c2 t3))) = Some t2).
    { split; [rewrite <- Hprior | rewrite <- Hlast]; reflexivity. }
    destruct (renderVibes c2 t3) as [c3 r3]. cbn [fst snd] in *.
    destruct Hvibes as [Hprior3 Hlast3]. cbv zeta. rewrite Hprior3, Hlast3.
    rewrite Hsum, <- Hr. unfold strict_ne, is_NaN.
    destruct (negb (r =? r)%float || _); reflexivity.
Qed.

Lemma pollForChanges_vibes (c c1 : Controller.t) (gp : Gamepad.t)
    (events : list Event.t) :
  pollForChanges c gp = Normal (c1, events) ->
  Controller.vibeChannels c1 = Controller.vibeChannels c.
Proof.
  unfold pollForChanges.
  destruct (poll_hand (Closure.hand (Controller.closure c)) gp) as [hand1 e0].
  destruct (poll_each _ (Closure.axes (Controller.closure c))) as [axes1 e1].
  destruct (poll_buttons 0 gp (Closure.buttons (Controller.closure c)))
    as [[buttons1 e2]|]; [|cbn; discriminate].
  cbn -[poll_button]. intros [= <- <-]. reflexivity.
Qed.

Lemma channels_ok_same (c c' : Controller.t) :
  channels_of c' = channels_of c -> channels_ok c -> channels_ok c'.
Proof. unfold channels_ok. intros ->. auto. Qed.

Lemma renderVibes_ok (c : Controller.t) (now : number) :
  channels_ok c -> channels_ok (fst (renderVibes c now)).
Proof.
  intros (Hnodup & (ch & rest & Hfirst & Hname) & _).
  assert (Hnames : forall l, map VibeChannel.name (map (render_channel now) l)
                             = map VibeChannel.name l).
  { intros l. rewrite map_map. apply map_ext. intros x.
    unfold render_channel. destruct (drain _ _ _). reflexivity. }
  unfold channels_ok, channels_of, renderVibes in *. cbn.
  split; [rewrite Hnames; assumption|]. split.
  - rewrite Hfirst. cbn [map]. eexists _, _. split; [reflexivity|].
    unfold render_channel. destruct (drain _ _ _). cbn. assumption.
  - apply Forall_fmap, Forall_forall. intros x _. apply render_channel_typeof.
Qed.

Lemma setVibe_ok (c : Controller.t) (now : number) (name intensity : JS.value) :
  channels_ok c -> channels_ok (fst (setVibe c now name intensity)).
Proof.
  intros Hok.
  assert (Hstring : forall (s : string) v,
            channels_ok (fst (setVibe c now (VStr s) v))).
  { intros s v. destruct Hok as (Hnodup & (ch0 & rest & Hfirst & Hname0) & Hnum).
    destruct (setVibe_string c now s v)
      as (i & _ & Hi & Hbefore & Hfound & Hlen & Hother & Hsel).
    set (c' := fst (setVibe c now (VStr s) v)) in *.
    assert (Hnames : forall j ch',
              channels_of c' !! j = Some ch' ->
              (j = i /\ VibeChannel.name ch' = s)
              \/ (j <> i /\ channels_of c !! j = Some ch')).
    { intros j ch' Hj. destruct (decide (j = i)) as [->|Hne].
      - left. rewrite Hsel in Hj. injection Hj as <-. split; reflexivity.
      - right. rewrite (Hother j Hne) in Hj. split; assumption. }
    assert (Hfresh : forall j ch, j <> i -> channels_of c !! j = Some ch ->
                                  VibeChannel.name ch <> s).
    { intros j ch Hne Hj Hs.
      destruct (decide (i < length (channels_of c))) as [Hlt|Hge].
      - destruct (Hfound Hlt) as (chi & Hchi & Hnamei).
        apply Hne. apply (proj1 (NoDup_alt _) Hnodup j i s);
          rewrite lookup_map; [rewrite Hj | rewrite Hchi]; cbn; congruence.
      - apply (Hbefore j ch); [|assumption..].
        apply lookup_lt_Some in Hj. lia. }
    split; [|split].
    - apply NoDup_alt. intros j k x Hj Hk. rewrite lookup_map in Hj, Hk.
      destruct (channels_of c' !! j) as [chj|] eqn:Ej; [|discriminate].
      destruct (channels_of c' !! k) as [chk|] eqn:Ek; [|discriminate].
      injection Hj as Hj. injection Hk as Hk.
      destruct (Hnames j chj Ej) as [[-> Hsj]|[Hnej Hcj]],
               (Hnames k chk Ek) as [[-> Hsk]|[Hnek Hck]].
      + reflexivity.
      + exfalso. apply (Hfresh k chk Hnek Hck). congruence.
      + exfalso. apply (Hfresh j chj Hnej Hcj). congruence.
      + apply (proj1 (NoDup_alt _) Hnodup j k x);
          rewrite lookup_map; [rewrite Hcj | rewrite Hck]; cbn; congruence.
    - assert (H0 : exists ch, channels_of c' !! 0 = Some ch /\ VibeChannel.name ch = "").
      { destruct (decide (0 = i)) as [<-|Hne].
        - rewrite Hsel. eexists. split; [reflexivity|]. cbn.
          destruct (Hfound ltac:(rewrite Hfirst; cbn; lia)) as (ch & Hch & Hs).
          rewrite Hfirst in Hch. injection Hch as <-. congruence.
        - rewrite (Hother 0) by congruence. rewrite Hfirst. exists ch0.
          split; [reflexivity | assumption]. }
      destruct H0 as (ch & Hch & Hs). destruct (channels_of c') as [|x l]; [discriminate|].
      injection Hch as ->. eexists _, _. split; [reflexivity | assumption].
    - apply Forall_forall. intros ch' Hin.
      apply list_elem_of_lookup in Hin as [j Hj].
      destruct (decide (j = i)) as [->|Hne].
      + rewrite Hsel in Hj. injection Hj as <-. cbn.
        destruct (typeof_number v) eqn:Ev; [assumption|].
        destruct (channels_of c !! i) as [chi|] eqn:Hchi; [|reflexivity].
        rewrite Forall_forall in Hnum. apply Hnum.
        apply list_elem_of_lookup. exists i. assumption.
      + rewrite (Hother j Hne) in Hj. rewrite Forall_forall in Hnum. apply Hnum.
        apply list_elem_of_lookup. exists j. assumption. }
  destruct name; try exact Hok.
  - destruct intensity; try exact Hok. apply (Hstring "" (VNum n)).
  - apply Hstring.
Qed.

Lemma Scheduler_set_ok (c : Controller.t) (o : Scheduler.t) (v : JS.value) :
  channels_ok c -> channels_ok (Scheduler_set c o v).
Proof.
  intros (Hnodup & (ch & rest & Hfirst & Hname) & Hnum).
  unfold channels_ok, channels_of, Scheduler_set in *. cbn.
  split; [|split].
  - rewrite alter_preserves by reflexivity. assumption.
  - rewrite Hfirst. destruct (Scheduler.channel o); cbn; eexists _, _;
      (split; [reflexivity | assumption]).
  - apply Forall_forall. intros x Hin. apply list_elem_of_lookup in Hin as [j Hj].
    rewrite Forall_forall in Hnum.
    destruct (decide (j = Scheduler.channel o)) as [->|Hne].
    + rewrite list_lookup_alter_eq in Hj.
      destruct (_ !! Scheduler.channel o) as [y|] eqn:Hy; [|discriminate].
      injection Hj as <-. cbn. apply Hnum. apply list_elem_of_lookup. eauto.
    + rewrite list_lookup_alter_ne in Hj by congruence.
      apply Hnum. apply list_elem_of_lookup. eauto.
Qed.

Lemma applyVibes_ok (c : Controller.t) (gp : Gamepad.t) (t1 t2 : number) :
  channels_ok c -> channels_ok (fst (applyVibes c gp t1 t2)).
Proof.
  intros Hok. unfold applyVibes.
  destruct (Gamepad.hapticActuators gp) as [[|[] ?]|]; try exact Hok.
  assert (H := renderVibes_ok c t1 Hok).
  destruct (renderVibes c t1) as [c1 r]. cbn [fst] in H.
  destruct (_ || _); [|exact H]. exact H.
Qed.

End HapticsMore.

Lemma applyVibes_heartbeat_witness :
  snd (applyVibes vive_humming vive_with_actuator 10 10) = [(0.5, 5000)]%float /\
  snd (applyVibes (fst (applyVibes vive_humming vive_with_actuator 10 10))
         vive_with_actuator 1000 1000) = [] /\
  snd (applyVibes (fst (applyVibes vive_humming vive_with_actuator 10 10))
         vive_with_actuator 3000 3000) = [(0.5, 5000)]%float.
Proof.
  assert (Hfirst : snd (applyVibes vive_humming vive_with_actuator 10 10)
                   = [(0.5, 5000)]%float) by reflexivity.
  split; [exact Hfirst|].
  split.
  - destruct (applyVibes_heartbeat (M := FloatThree.math) vive_humming
                vive_with_actuator 10 10 1000 1000) as (_ & _ & H).
    destruct (H _ _ Hfirst) as [_ ->]; [repeat constructor | reflexivity].
  - destruct (applyVibes_heartbeat (M := FloatThree.math) vive_humming
                vive_with_actuator 10 10 3000 3000) as (_ & _ & H).
    destruct (H _ _ Hfirst) as [_ ->]; [repeat constructor | reflexivity].
Defined.

(** X11: on an adapter built by the constructor, whatever was called on
    it since, the channel names are pairwise different, the first channel
    is the default one (named by the empty string) and the intensity of
    every channel is a number. *)
Theorem vibe_channels_invariant {M : ThreeMath} (h : nat) (gp : Gamepad.t)
    (c c' : Controller.t) :
  VRController h gp = Normal c -> later c c' -> channels_ok c'.
Proof.
  intros Hc Hlater.
  apply VRController_closure in Hc as (_ & _ & _ & _ & _ & _ & _ & _ & Hvibes & _).
  induction Hlater as [|c1 c2 gp' events _ IH Hpoll|c1 now name intensity _ IH
                       |c1 o v _ IH|c1 now _ IH|c1 gp' t1 t2 _ IH|c1 o p _ IH
                       |c1 o now _ IH|c1 m _ IH|c1 hd _ IH].
  - unfold channels_ok, channels_of. rewrite Hvibes. cbn.
    split; [repeat constructor; intros H; inversion H|].
    split; [eexists _, _; split; reflexivity|]. repeat constructor.
  - apply (channels_ok_same c1); [|assumption].
    unfold channels_of. rewrite (pollForChanges_vibes _ _ _ _ Hpoll). reflexivity.
  - apply setVibe_ok. assumption.
  - apply Scheduler_set_ok. assumption.
  - apply renderVibes_ok. assumption.
  - apply applyVibes_ok. assumption.
  - exact IH.
  - exact IH.
  - exact IH.
  - exact IH.
Qed.

Lemma vibe_channels_invariant_witness :
  channels_ok
    (fst (setVibe (fst (setVibe vive_adapter 0 (VStr "laser") (VNum 0.2)))
            5 (VStr "explosion") (VNum 0.9))).
Proof.
  apply (vibe_channels_invariant 0 (vive_wand [0; 0]%float four_released)
           vive_adapter _ VRController_vive_wand).
  apply later_setVibe, later_setVibe, later_now.
Defined.

(** ** The pose part of [update] *)

Section PoseUpdate.
Context {M : ThreeMath}.

Lemma pollForChanges_frame (c c1 : Controller.t) (gp : Gamepad.t)
    (events : list Event.t) :
  pollForChanges c gp = Normal (c1, events) -> frame c1 = frame c.
Proof.
  unfold pollForChanges.
  destruct (poll_hand (Closure.hand (Controller.closure c)) gp) as [hand1 e0].
  destruct (poll_each _ (Closure.axes (Controller.closure c))) as [axes1 e1].
  destruct (poll_buttons 0 gp (Closure.buttons (Controller.closure c)))
    as [[buttons1 e2]|]; [|cbn; discriminate].
  cbn -[poll_button]. intros [= <- <-]. reflexivity.
Qed.

Lemma applyVibes_frame (c : Controller.t) (gp : Gamepad.t) (t1 t2 : number) :
  frame (fst (applyVibes c gp t1 t2)) = frame c /\
  Controller.gamepad (fst (applyVibes c gp t1 t2)) = Controller.gamepad c.
Proof.
  unfold applyVibes.
  destruct (Gamepad.hapticActuators gp) as [[|[] ?]|]; try (split; reflexivity).
  unfold renderVibes. destruct (_ || _); split; reflexivity.
Qed.

(** [update] as its three steps. *)
Lemma prototype_update_steps (host : Host.t) (this : nat) (w : World)
    (c c1 : Controller.t) (events : list Event.t) :
  heap w !! this = Some c ->
  pollForChanges c (Host.deref host (Controller.gamepad c)) = Normal (c1, events) ->
  let gamepad := Host.deref host (Controller.gamepad c) in
  let c2 := fst (after_poll_and_vibes host this w c1 events) in
  let w2 := snd (after_poll_and_vibes host this w c1 events) in
  prototype_update host this w
  = match read_pose (Gamepad.pose gamepad) with
    | Absent =>
        if Controller.hasPosed c2 then onGamepadDisconnect (Some gamepad) 0 w2
        else Normal w2
    | WithPosition orientation position =>
        Normal (store this (update_6dof c2 orientation position) w2)
    | OrientationOnly orientation =>
        Normal (store this
                  (update_3dof c2 orientation
                     (Host.performance_now host (Controller.gamepad c)
                        Host.InArmModel)) w2)
    end /\
  spatial c2 = spatial c /\ frame c2 = frame c /\
  Controller.gamepad c2 = Controller.gamepad c.
Proof.
  intros Hthis Hpoll gamepad c2 w2. fold gamepad in Hpoll.
  destruct (pollForChanges_spatial c c1 _ events Hpoll) as [Hsp1 Hgp1].
  assert (Hfr1 := pollForChanges_frame c c1 _ events Hpoll).
  subst c2 w2. unfold after_poll_and_vibes. cbv zeta. rewrite Hgp1. cbn [fst snd].
  fold gamepad.
  assert (Hsp2 := applyVibes_spatial c1 gamepad
                    (Host.performance_now host (Controller.gamepad c)
                       Host.InRenderVibes)
                    (Host.performance_now host (Controller.gamepad c)
                       Host.InApplyVibes)).
  destruct (applyVibes_frame c1 gamepad
              (Host.performance_now host (Controller.gamepad c) Host.InRenderVibes)
              (Host.performance_now host (Controller.gamepad c) Host.InApplyVibes))
    as [Hfr2 Hgp2].
  split; [|split; [congruence | split; congruence]].
  unfold prototype_update. rewrite Hthis. fold gamepad. rewrite Hpoll.
  cbn [mbind completion_bind JS.bind].
  destruct (applyVibes c1 gamepad _ _) as [c2 pulses]. cbn [fst snd].
  assert (Hw : emit (map (fun p => Effect.Pulsed (Controller.gamepad c) p.1 p.2) pulses)
                 (store this c2
                    (emit (map (Effect.Dispatched this) events) (store this c1 w)))
               = mkWorld (<[this := c2]> (heap w)) (next w) (controllers w)
                   (log w ++ map (Effect.Dispatched this) events
                          ++ map (fun p => Effect.Pulsed (Controller.gamepad c) p.1 p.2)
                               pulses)).
  { unfold emit, store. cbn. rewrite insert_insert_eq, <- app_assoc. reflexivity. }
  rewrite Hw. reflexivity.
Qed.

End PoseUpdate.
Section PoseCases.
Context {M : ThreeMath}.

Lemma spatial_inv (a b : Controller.t) :
  spatial a = spatial b ->
  Controller.object3D a = Controller.object3D b /\
  Controller.hasPosed a = Controller.hasPosed b /\
  Controller.armModel a = Controller.armModel b.
Proof. unfold spatial. intros [= -> -> ->]. repeat split. Qed.

Lemma frame_inv (a b : Controller.t) :
  frame a = frame b ->
  Controller.standingMatrix a = Controller.standingMatrix b /\
  Controller.head a = Controller.head b.
Proof. unfold frame. intros [= -> ->]. repeat split. Qed.

(** X12: [update] on an adapter that has never posed, at a tick where the
    pose is absent, completes and disconnects nothing: the registry is as
    it was, no ["disconnected"] notification is among the effects, and
    the adapter's transform, posed flag and arm model are untouched. *)
Theorem never_posed_stays_registered (host : Host.t) (this : nat) (w : World)
    (c c1 : Controller.t) (events : list Event.t) :
  let gamepad := Host.deref host (Controller.gamepad c) in
  heap w !! this = Some c ->
  Controller.hasPosed c = false ->
  read_pose (Gamepad.pose gamepad) = Absent ->
  pollForChanges c gamepad = Normal (c1, events) ->
  exists w' c' added,
    prototype_update host this w = Normal w' /\
    controllers w' = controllers w /\
    heap w' = <[this := c']> (heap w) /\
    spatial c' = spatial c /\
    log w' = log w ++ added /\
    Forall (fun e => ~ is_disconnect_notification e) added.
Proof.
  intros gamepad Hthis Hposed Habsent Hpoll.
  destruct (prototype_update_steps host this w c c1 events Hthis Hpoll)
    as (Hrun & Hspatial & _).
  fold gamepad in Hrun. rewrite Habsent in Hrun.
  assert (Hposed2 : Controller.hasPosed
                      (fst (after_poll_and_vibes host this w c1 events)) = false).
  { destruct (spatial_inv _ _ Hspatial) as (_ & E & _). congruence. }
  rewrite Hposed2 in Hrun.
  eexists _, _, _. split; [exact Hrun|]. unfold after_poll_and_vibes. cbn.
  split; [reflexivity|]. split; [reflexivity|]. split; [exact Hspatial|].
  split; [reflexivity|].
  apply Forall_app. split.
  - apply Forall_fmap. apply (pollForChanges_not_disconnected _ _ _ _) in Hpoll.
    eapply Forall_impl; [exact Hpoll|]. intros e He. exact He.
  - apply Forall_fmap. apply Forall_forall. intros p _ H. exact H.
Qed.

(** X13: [update] at a tick where the pose has a position.  The adapter
    takes that position and, when there is one, the orientation,
    otherwise keeping the orientation it had; its matrix is the standing
    matrix times the matrix composed of the three; it counts as posed, is
    made visible if this is its first pose; its arm model, if it has one,
    is left as it was. *)
Theorem update_with_position (host : Host.t) (this : nat) (w : World)
    (c c1 : Controller.t) (events : list Event.t)
    (orientation : option (list number)) (position : list number) :
  let gamepad := Host.deref host (Controller.gamepad c) in
  heap w !! this = Some c ->
  read_pose (Gamepad.pose gamepad) = WithPosition orientation position ->
  pollForChanges c gamepad = Normal (c1, events) ->
  exists w' c',
    prototype_update host this w = Normal w' /\
    heap w' !! this = Some c' /\
    controllers w' = controllers w /\
    Controller.hasPosed c' = true /\
    Controller.armModel c' = Controller.armModel c /\
    let before := Controller.object3D c in
    let after := Controller.object3D c' in
    Controller.position after = Vector3_fromArray position /\
    Controller.quaternion after
    = match orientation with
      | Some a => Quaternion_fromArray a
      | None => Controller.quaternion before
      end /\
    Controller.scale after = Controller.scale before /\
    Controller.matrix after
    = Matrix4_multiplyMatrices (Controller.standingMatrix c)
        (Matrix4_compose (Controller.position after) (Controller.quaternion after)
           (Controller.scale after)) /\
    Controller.matrixWorldNeedsUpdate after = true /\
    Controller.visible after
    = (if Controller.hasPosed c then Controller.visible before else true).
Proof.
  intros gamepad Hthis Hpose Hpoll.
  destruct (prototype_update_steps host this w c c1 events Hthis Hpoll)
    as (Hrun & Hspatial & Hframe & _).
  fold gamepad in Hrun. rewrite Hpose in Hrun.
  remember (fst (after_poll_and_vibes host this w c1 events)) as c2 eqn:Hc2.
  clear Hc2.
  destruct (spatial_inv _ _ Hspatial) as (Hobject & Hposed & Harm).
  destruct (frame_inv _ _ Hframe) as (Hstanding & _).
  eexists _, _. split; [exact Hrun|]. cbn [store heap controllers].
  split; [apply lookup_insert_eq|]. split; [reflexivity|].
  unfold update_6dof, place, adopt_orientation. cbn.
  rewrite Hobject, Hposed, Harm, Hstanding. repeat split.
Qed.

(** X14: [update] at a tick where the pose has an orientation and no
    position.  The arm model, created at the first such tick and kept
    from then on, is fed the head's position and orientation and the
    controller's orientation and updated once; the adapter takes the raw
    orientation, its matrix is the standing matrix times the matrix
    composed of the arm model's pose, and its [position] is not
    written. *)
Theorem update_with_orientation_only (host : Host.t) (this : nat) (w : World)
    (c c1 : Controller.t) (events : list Event.t) (orientation : list number) :
  let gamepad := Host.deref host (Controller.gamepad c) in
  heap w !! this = Some c ->
  read_pose (Gamepad.pose gamepad) = OrientationOnly orientation ->
  pollForChanges c gamepad = Normal (c1, events) ->
  exists w' c' arm,
    prototype_update host this w = Normal w' /\
    heap w' !! this = Some c' /\
    controllers w' = controllers w /\
    Controller.hasPosed c' = true /\
    Controller.armModel c' = Some arm /\
    arm = ArmRun.tick
            (match Controller.armModel c with
             | Some a => a
             | None => OrientationArmModel.new
             end)
            (ArmRun.mkInput (Controller.head_position (Controller.head c))
               (Controller.head_quaternion (Controller.head c))
               (Quaternion_fromArray orientation))
            (Host.performance_now host (Controller.gamepad c) Host.InArmModel) /\
    let before := Controller.object3D c in
    let after := Controller.object3D c' in
    Controller.position after = Controller.position before /\
    Controller.quaternion after = Quaternion_fromArray orientation /\
    Controller.scale after = Controller.scale before /\
    Controller.matrix after
    = Matrix4_multiplyMatrices (Controller.standingMatrix c)
        (Matrix4_compose
           (OrientationArmModel.position (OrientationArmModel.getPose arm))
           (OrientationArmModel.orientation (OrientationArmModel.getPose arm))
           (Controller.scale after)) /\
    Controller.matrixWorldNeedsUpdate after = true /\
    Controller.visible after
    = (if Controller.hasPosed c then Controller.visible before else true).
Proof.
  intros gamepad Hthis Hpose Hpoll.
  destruct (prototype_update_steps host this w c c1 events Hthis Hpoll)
    as (Hrun & Hspatial & Hframe & _).
  fold gamepad in Hrun. rewrite Hpose in Hrun.
  remember (fst (after_poll_and_vibes host this w c1 events)) as c2 eqn:Hc2.
  clear Hc2.
  destruct (spatial_inv _ _ Hspatial) as (Hobject & Hposed & Harm).
  destruct (frame_inv _ _ Hframe) as (Hstanding & Hhead).
  eexists _, _, _. split; [exact Hrun|]. cbn [store heap controllers].
  split; [apply lookup_insert_eq|]. split; [reflexivity|].
  unfold update_3dof, place, adopt_orientation, ArmRun.tick.
  cbn [Controller.hasPosed Controller.armModel Controller.with_spatial
       Controller.object3D Controller.position Controller.quaternion Controller.scale
       Controller.matrix Controller.matrixWorldNeedsUpdate Controller.visible
       Controller.standingMatrix ArmRun.headPos ArmRun.headQ ArmRun.controllerQ].
  rewrite Hobject, Hposed, Harm, Hstanding, Hhead. repeat split.
Qed.

End PoseCases.

Lemma never_posed_stays_registered_witness :
  exists w' added,
    prototype_update (one_device vive_switched_off) 0 vive_connected = Normal w' /\
    controllers w' = controllers vive_connected /\
    log w' = log vive_connected ++ added /\
    Forall (fun e => ~ is_disconnect_notification e) added.
Proof.
  destruct (never_posed_stays_registered (one_device vive_switched_off) 0
              vive_connected vive_adapter vive_adapter []
              eq_refl eq_refl eq_refl eq_refl)
    as (w' & c' & added & Hupdate & Hregistry & _ & _ & Hlog & Hnone).
  exists w', added. auto.
Defined.

Lemma update_with_position_witness :
  exists w' c',
    prototype_update (one_device (vive_wand [0; 0]%float four_released)) 0
      vive_connected = Normal w' /\
    heap w' !! 0 = Some c' /\
    Controller.hasPosed c' = true /\
    Controller.armModel c' = None /\
    Controller.visible (Controller.object3D c') = true.
Proof.
  destruct (update_with_position
              (one_device (vive_wand [0; 0]%float four_released)) 0
              vive_connected vive_adapter vive_adapter []
              (Some [0; 0; 0; 1]%float) [0; 1; 0]%float
              eq_refl eq_refl eq_refl)
    as (w' & c' & Hupdate & Hheap & _ & Hposed & Harm & _ & _ & _ & _ & _ & Hvisible).
  exists w', c'. auto.
Defined.

Lemma update_with_orientation_only_witness :
  exists w' c' arm,
    prototype_update (one_device vive_orientation_only) 0 vive_connected
    = Normal w' /\
    heap w' !! 0 = Some c' /\
    Controller.armModel c' = Some arm /\
    Controller.position (Controller.object3D c')
    = Controller.position (Controller.object3D vive_adapter).
Proof.
  destruct (update_with_orientation_only (one_device vive_orientation_only) 0
              vive_connected vive_adapter vive_adapter []
              [0; 0; 0; 1]%float eq_refl eq_refl eq_refl)
    as (w' & c' & arm & Hupdate & Hheap & _ & _ & Harm & _ & Hposition & _).
  exists w', c', arm. auto.
Defined.

(** ** The registry *)

Lemma omap_cons {A B} (f : A -> option B) (x : A) (l : list A) :
  omap f (x :: l) = match f x with Some y => y :: omap f l | None => omap f l end.
Proof. reflexivity. Qed.

Lemma omap_ext_in {A B} (f g : A -> option B) (l : list A) :
  (forall x, x ∈ l -> f x = g x) -> omap f l = omap g l.
Proof.
  induction l as [|x l IH]; intros H; [reflexivity|].
  cbn. rewrite (H x) by (left). rewrite IH; [reflexivity|].
  intros y Hy. apply H. right. assumption.
Qed.

Lemma registry_bound_spec (m : gmap nat nat) (i : nat) :
  is_Some (m !! i) -> i < registry_bound m.
Proof.
  unfold registry_bound. revert i.
  apply (map_fold_weak_ind
           (fun bound (m : gmap nat nat) => forall i, is_Some (m !! i) -> i < bound)).
  - intros i [x Hx]. rewrite lookup_empty in Hx. discriminate.
  - intros k x m' r _ IH i Hi. destruct (decide (i = k)) as [->|Hne]; [lia|].
    rewrite lookup_insert_ne in Hi by congruence. specialize (IH i Hi). lia.
Qed.

Lemma registry_keys_spec (m : gmap nat nat) (i : nat) :
  i ∈ registry_keys m <-> is_Some (m !! i).
Proof.
  unfold registry_keys. rewrite list_elem_of_filter, elem_of_seq. split.
  - intros [H _]. exact H.
  - intros H. split; [exact H|]. apply registry_bound_spec in H. lia.
Qed.

Lemma registry_keys_NoDup (m : gmap nat nat) : NoDup (registry_keys m).
Proof. apply NoDup_filter, NoDup_seq. Qed.

Section Registry.
Context {M : ThreeMath}.

Lemma clear_loop_aligned (host : Host.t) (keys : list nat) (w : World) :
  NoDup keys ->
  (forall k, k ∈ keys ->
     exists adapter c,
       controllers w !! k = Some adapter /\
       heap w !! adapter = Some c /\
       Gamepad.index (Host.deref host (Controller.gamepad c)) = k) ->
  exists w',
    clear_loop host keys w = Normal w' /\
    heap w' = heap w /\ next w' = next w /\
    (forall j, controllers w' !! j
               = if decide (j ∈ keys) then None else controllers w !! j) /\
    log w' = log w ++ map disconnected_on (omap (fun k => controllers w !! k) keys).
Proof.
  revert w. induction keys as [|k keys IH]; intros w Hnodup Hkeys.
  - exists w. cbn. split; [reflexivity|]. split; [reflexivity|].
    split; [reflexivity|]. split; [|rewrite app_nil_r; reflexivity].
    intros j. destruct (decide (j ∈ [])) as [H|_]; [inversion H | reflexivity].
  - apply NoDup_cons in Hnodup as [Hk Hnodup].
    destruct (Hkeys k ltac:(left)) as (adapter & c & Hslot & Hheap & Hindex).
    cbn [clear_loop]. rewrite Hslot, Hheap. unfold onGamepadDisconnect.
    rewrite Hindex, Hslot. cbn [mbind completion_bind JS.bind emit heap next
      controllers log].
    set (w1 := mkWorld (heap w) (next w) (delete k (controllers w))
                 (log w ++ [Effect.Dispatched adapter
                              (Event.mk "disconnected" Event.Self)])).
    destruct (IH w1 Hnodup) as (w' & Hloop & Hheap' & Hnext' & Hreg' & Hlog').
    { intros k' Hk'. destruct (Hkeys k' ltac:(right; exact Hk'))
        as (a' & c' & Hslot' & Hheap1 & Hindex').
      exists a', c'. cbn. split; [|split; assumption].
      rewrite lookup_delete_ne; [assumption|]. intros ->. contradiction. }
    exists w'. split; [exact Hloop|]. split; [exact Hheap'|]. split; [exact Hnext'|].
    split.
    + intros j. rewrite Hreg'. subst w1. cbn [controllers].
      destruct (decide (j ∈ keys)) as [Hin|Hout].
      * destruct (decide (j ∈ k :: keys)) as [_|Hno]; [reflexivity|].
        exfalso. apply Hno. right. assumption.
      * destruct (decide (j = k)) as [->|Hne].
        -- rewrite lookup_delete_eq.
           destruct (decide (k ∈ k :: keys)) as [_|Hno]; [reflexivity|].
           exfalso. apply Hno. left.
        -- rewrite lookup_delete_ne by congruence.
           destruct (decide (j ∈ k :: keys)) as [Hin|_]; [|reflexivity].
           apply elem_of_cons in Hin as [->|Hin]; contradiction.
    + rewrite Hlog'. subst w1. cbn [log controllers]. rewrite omap_cons, Hslot. cbn [map].
      rewrite <- app_assoc. cbn [app]. do 3 f_equal.
      apply omap_ext_in. intros k' Hk'.
      apply lookup_delete_ne. intros ->. contradiction.
Qed.

(** X16: [THREE.VRController.clear], on a registry in which every adapter
    sits under the index its device reports, dispatches ["disconnected"]
    once on each registered adapter, in ascending order of the slots, and
    leaves the registry empty; the adapter objects themselves are not
    touched.  On an empty registry it does nothing. *)
Theorem clear_disconnects_all (host : Host.t) (w : World) :
  registry_aligned host w ->
  exists w',
    clear host w = Normal w' /\
    controllers w' = ∅ /\
    heap w' = heap w /\
    log w'
    = log w ++ map disconnected_on
                 (omap (fun i => controllers w !! i) (registry_keys (controllers w))) /\
    (forall i adapter,
       controllers w !! i = Some adapter ->
       In (disconnected_on adapter)
         (map disconnected_on
            (omap (fun i => controllers w !! i) (registry_keys (controllers w))))) /\
    (controllers w = ∅ -> w' = w).
Proof.
  intros Haligned. unfold clear.
  destruct (clear_loop_aligned host (registry_keys (controllers w)) w)
    as (w' & Hloop & Hheap & Hnext & Hreg & Hlog).
  { apply registry_keys_NoDup. }
  { intros k Hk. apply registry_keys_spec in Hk as [adapter Hslot].
    destruct (Haligned k adapter Hslot) as (c & Hc & Hindex).
    exists adapter, c. repeat split; assumption. }
  exists w'. split; [exact Hloop|]. split.
  { apply map_eq. intros j. rewrite Hreg, lookup_empty.
    destruct (decide (j ∈ registry_keys (controllers w))) as [_|Hout]; [reflexivity|].
    destruct (controllers w !! j) as [a|] eqn:Hj; [|reflexivity].
    exfalso. apply Hout. apply registry_keys_spec. eexists. exact Hj. }
  split; [exact Hheap|]. split; [exact Hlog|]. split.
  - intros i adapter Hslot. apply in_map. apply list_elem_of_In.
    apply list_elem_of_omap. exists i. split; [|assumption].
    apply registry_keys_spec. eexists. exact Hslot.
  - intros Hempty. revert Hloop. rewrite Hempty. cbn. intros [= <-]. reflexivity.
Qed.

End Registry.

Lemma clear_disconnects_all_witness :
  exists w',
    clear (one_device (vive_wand [0; 0]%float four_released)) vive_registered
    = Normal w' /\
    controllers w' = ∅ /\
    log w' = [disconnected_on 0].
Proof.
  destruct (clear_disconnects_all
              (one_device (vive_wand [0; 0]%float four_released)) vive_registered)
    as (w' & Hclear & Hempty & _ & Hlog & _).
  - intros i adapter Hslot. unfold vive_registered in Hslot.
    cbn [controllers] in Hslot.
    destruct (decide (i = 0)) as [->|Hne].
    + rewrite lookup_singleton_eq in Hslot. injection Hslot as <-.
      exists posed_vive_adapter. split; reflexivity.
    + rewrite lookup_singleton_ne in Hslot by congruence. discriminate.
  - exists w'. split; [exact Hclear|]. split; [exact Hempty|]. exact Hlog.
Defined.
Section Unplugged.
Context {M : ThreeMath}.

Lemma update_slots_no_handles (host : Host.t) (gamepads : list Host.slot)
    (i : nat) (w : World) :
  Forall (fun slot => forall h, slot <> Host.Handle h) gamepads ->
  exists w',
    update_slots host i gamepads w = Normal w' /\
    heap w' = heap w /\ next w' = next w /\
    (forall j,
       controllers w' !! j
       = if decide (i <= j)
         then match gamepads !! (j - i) with
              | Some Host.Null => None
              | _ => controllers w !! j
              end
         else controllers w !! j) /\
    log w'
    = log w ++ concat (imap (fun k slot =>
                               match slot, controllers w !! (i + k) with
                               | Host.Null, Some adapter => [disconnected_on adapter]
                               | _, _ => []
                               end) gamepads).
Proof.
  revert i w. induction gamepads as [|slot rest IH]; intros i w Hnone.
  - exists w. cbn. rewrite app_nil_r. repeat split.
    intros j. destruct (decide (i <= j)); [rewrite lookup_nil|]; reflexivity.
  - apply Forall_cons in Hnone as [Hslot Hnone].
    cbn [update_slots]. rewrite imap_cons. cbn [concat]. rewrite Nat.add_0_r.
    assert (Hshift : forall (w1 : World),
              (forall j, j <> i -> controllers w1 !! j = controllers w !! j) ->
              imap (fun k slot =>
                      match slot, controllers w1 !! (S i + k) with
                      | Host.Null, Some adapter => [disconnected_on adapter]
                      | _, _ => []
                      end) rest
              = imap ((fun k slot =>
                         match slot, controllers w !! (i + k) with
                         | Host.Null, Some adapter => [disconnected_on adapter]
                         | _, _ => []
                         end) ∘ S) rest).
    { intros w1 Hsame. apply imap_ext. intros k s _. cbn.
      rewrite Hsame by lia. replace (i + S k) with (S (i + k)) by lia. reflexivity. }
    destruct slot as [| |h]; [| |exfalso; apply (Hslot h); reflexivity].
    + destruct (controllers w !! i) as [adapter|] eqn:Hi.
      * unfold onGamepadDisconnect. rewrite Hi.
        cbn [mbind completion_bind JS.bind emit heap next controllers log].
        set (w1 := mkWorld (heap w) (next w) (delete i (controllers w))
                     (log w ++ [Effect.Dispatched adapter
                                  (Event.mk "disconnected" Event.Self)])).
        destruct (IH (S i) w1 Hnone) as (w' & Hrun & Hheap & Hnext & Hreg & Hlog).
        exists w'. split; [exact Hrun|]. split; [exact Hheap|]. split; [exact Hnext|].
        split.
        -- intros j. rewrite Hreg. subst w1. cbn [controllers].
           destruct (decide (S i <= j)), (decide (i <= j)); try lia.
           ++ replace (j - i) with (S (j - S i)) by lia. cbn [lookup list_lookup].
              rewrite lookup_delete_ne by lia. reflexivity.
           ++ assert (j = i) as -> by lia. rewrite Nat.sub_diag. cbn.
              apply lookup_delete_eq.
           ++ apply lookup_delete_ne. lia.
        -- rewrite Hlog. subst w1. cbn [log]. rewrite <- app_assoc. cbn [app].
           do 3 f_equal. apply (Hshift (mkWorld _ _ _ _)). intros j Hj.
           apply lookup_delete_ne. congruence.
      * cbn [mbind completion_bind JS.bind].
        destruct (IH (S i) w Hnone) as (w' & Hrun & Hheap & Hnext & Hreg & Hlog).
        exists w'. split; [exact Hrun|]. split; [exact Hheap|]. split; [exact Hnext|].
        split.
        -- intros j. rewrite Hreg.
           destruct (decide (S i <= j)), (decide (i <= j)); try lia; try reflexivity.
           ++ replace (j - i) with (S (j - S i)) by lia. reflexivity.
           ++ assert (j = i) as -> by lia. rewrite Nat.sub_diag. cbn. assumption.
        -- rewrite Hlog. cbn [app]. do 2 f_equal. apply (Hshift w). reflexivity.
    + cbn [mbind completion_bind JS.bind].
      destruct (IH (S i) w Hnone) as (w' & Hrun & Hheap & Hnext & Hreg & Hlog).
      exists w'. split; [exact Hrun|]. split; [exact Hheap|]. split; [exact Hnext|].
      split.
      * intros j. rewrite Hreg.
        destruct (decide (S i <= j)), (decide (i <= j)); try lia; try reflexivity.
        -- replace (j - i) with (S (j - S i)) by lia. reflexivity.
        -- assert (j = i) as -> by lia. rewrite Nat.sub_diag. reflexivity.
      * rewrite Hlog. cbn [app]. do 2 f_equal. apply (Hshift w). reflexivity.
Qed.

(** X15: [THREE.VRController.update] when the host lists no device.
    Without [navigator.getGamepads] it does nothing.  When every slot is
    [null] or [undefined], it completes; each [null] slot that holds an
    adapter gets one ["disconnected"] on that adapter and is emptied, in
    slot order, while an [undefined] slot is passed over, its adapter
    staying registered; no adapter object is touched. *)
Theorem update_without_devices (host : Host.t) (w : World) :
  (Host.getGamepads host = None -> update host w = Normal w) /\
  (forall gamepads,
     Host.getGamepads host = Some gamepads ->
     Forall (fun slot => forall h, slot <> Host.Handle h) gamepads ->
     exists w',
       update host w = Normal w' /\
       heap w' = heap w /\
       (forall i,
          controllers w' !! i
          = match gamepads !! i with
            | Some Host.Null => None
            | _ => controllers w !! i
            end) /\
       log w'
       = log w ++ concat (imap (fun i slot =>
                                  match slot, controllers w !! i with
                                  | Host.Null, Some adapter => [disconnected_on adapter]
                                  | _, _ => []
                                  end) gamepads)).
Proof.
  split.
  - intros Hnone. unfold update. rewrite Hnone. reflexivity.
  - intros gamepads Hsome Hslots. unfold update. rewrite Hsome.
    destruct (update_slots_no_handles host gamepads 0 w Hslots)
      as (w' & Hrun & Hheap & _ & Hreg & Hlog).
    exists w'. split; [exact Hrun|]. split; [exact Hheap|]. split.
    + intros i. rewrite Hreg. destruct (decide (0 <= i)); [|lia].
      rewrite Nat.sub_0_r. reflexivity.
    + exact Hlog.
Qed.

End Unplugged.

(** The wand's slot turns [null], a second slot is [undefined]. *)
Example update_without_devices_run :
  registry_view
    (update (Host.mk (Some [Host.Null; Host.Undefined])
               (fun _ => vive_switched_off) (fun _ _ => 16%float))
       vive_registered)
  = Some (None, Some true, [disconnected_on 0]).
Proof. vm_compute. reflexivity. Qed.

(** ** Connections *)

Lemma connections_app (a b : list Effect.t) :
  connections (a ++ b) = connections a ++ connections b.
Proof. apply omap_app. Qed.

Lemma connections_dispatched (this : nat) (events : list Event.t) :
  connections (map (Effect.Dispatched this) events) = [].
Proof. induction events; [reflexivity | assumption]. Qed.

Lemma connections_pulsed (h : nat) (pulses : list (number * number)) :
  connections (map (fun p => Effect.Pulsed h (fst p) (snd p)) pulses) = [].
Proof. induction pulses; [reflexivity | assumption]. Qed.

Lemma unregistered_ext (m m' : gmap nat nat) (i : nat) (gamepads : list Host.slot) :
  (forall j, i <= j -> m' !! j = m !! j) ->
  unregistered m' i gamepads = unregistered m i gamepads.
Proof.
  revert i. induction gamepads as [|slot rest IH]; intros i H; [reflexivity|].
  cbn [unregistered]. rewrite (H i) by lia. rewrite IH; [reflexivity|].
  intros j Hj. apply H. lia.
Qed.

Section Connections.
Context {M : ThreeMath}.

Lemma onGamepadConnect_effects (host : Host.t) (h : nat) (w w' : World) :
  onGamepadConnect host h w = Normal w' ->
  exists c pulse,
    heap w' = <[next w := c]> (heap w) /\
    next w' = S (next w) /\
    controllers w'
    = <[Gamepad.index (Host.deref host h) := next w]> (controllers w) /\
    Controller.gamepad c = h /\
    log w' = log w ++ pulse
                   ++ [Effect.WindowDispatched "vr controller connected" (next w)] /\
    connections pulse = [].
Proof.
  unfold onGamepadConnect, VRController.
  destruct (make_axes _ _ _) as [axes axes_byName].
  destruct (make_buttons _ _) as [[[buttons byName] p]|]; [|cbn; discriminate].
  cbn [mbind completion_bind JS.bind].
  destruct (Gamepad.hapticActuators (Host.deref host h)) as [[|[] ?]|];
    cbn; try discriminate; intros [= <-]; cbn.
  - eexists _, []. repeat split.
  - eexists _, [_]. rewrite <- app_assoc. repeat split.
  - eexists _, []. repeat split.
Qed.

Lemma prototype_update_effects (host : Host.t) (this : nat) (w w' : World) :
  prototype_update host this w = Normal w' ->
  exists c added,
    heap w !! this = Some c /\
    log w' = log w ++ added /\
    connections added = [] /\
    (controllers w' = controllers w
     \/ controllers w'
        = delete (Gamepad.index (Host.deref host (Controller.gamepad c)))
            (controllers w)).
Proof.
  intros Hrun.
  destruct (heap w !! this) as [c|] eqn:Hthis;
    [|unfold prototype_update in Hrun; rewrite Hthis in Hrun; discriminate].
  destruct (pollForChanges c (Host.deref host (Controller.gamepad c)))
    as [[c1 events]|] eqn:Hpoll;
    [|unfold prototype_update in Hrun; rewrite Hthis, Hpoll in Hrun; discriminate].
  destruct (prototype_update_steps host this w c c1 events Hthis Hpoll)
    as (Hsteps & _).
  rewrite Hsteps in Hrun. clear Hsteps.
  unfold after_poll_and_vibes in Hrun. cbv zeta in Hrun. cbn [fst snd] in Hrun.
  set (pulses := snd (applyVibes c1 _ _ _)) in *.
  set (c2 := fst (applyVibes c1 _ _ _)) in *.
  assert (Hquiet : connections
                     (map (Effect.Dispatched this) events
                      ++ map (fun p => Effect.Pulsed (Controller.gamepad c1)
                                         (fst p) (snd p)) pulses) = []).
  { rewrite connections_app, connections_dispatched, connections_pulsed.
    reflexivity. }
  exists c.
  destruct (read_pose _) as [|o p|o].
  - destruct (Controller.hasPosed c2).
    + unfold onGamepadDisconnect in Hrun. cbn [controllers] in Hrun.
      destruct (controllers w !! _) as [adapter|]; [|discriminate].
      injection Hrun as <-. cbn.
      eexists. split; [reflexivity|]. split; [rewrite <- !app_assoc; reflexivity|].
      split; [|right; reflexivity].
      rewrite !connections_app, connections_dispatched, connections_pulsed.
      reflexivity.
    + injection Hrun as <-. cbn. eexists. split; [reflexivity|].
      split; [reflexivity|]. split; [exact Hquiet | left; reflexivity].
  - injection Hrun as <-. cbn. eexists. split; [reflexivity|].
    split; [reflexivity|]. split; [exact Hquiet | left; reflexivity].
  - injection Hrun as <-. cbn. eexists. split; [reflexivity|].
    split; [reflexivity|]. split; [exact Hquiet | left; reflexivity].
Qed.

End Connections.
Section ConnectedOnce.
Context {M : ThreeMath}.

Lemma aligned_after_update (host : Host.t) (this : nat) (w w' : World) :
  registry_aligned host w ->
  prototype_update host this w = Normal w' ->
  registry_aligned host w'.
Proof.
  intros Haligned Hrun.
  destruct (prototype_update_heap host this w w' Hrun)
    as (c & c' & Hthis & Hsame & Hheap & _).
  destruct (prototype_update_effects host this w w' Hrun)
    as (c0 & added & Hthis0 & _ & _ & Hreg).
  intros j b Hj.
  assert (Hold : controllers w !! j = Some b).
  { destruct Hreg as [Hreg|Hreg]; rewrite Hreg in Hj; [exact Hj|].
    apply lookup_delete_Some in Hj as [_ Hj]. exact Hj. }
  destruct (Haligned j b Hold) as (cb & Hcb & Hindex).
  rewrite Hheap. destruct (decide (this = b)) as [->|Hne].
  - rewrite lookup_insert_eq. exists c'. split; [reflexivity|].
    destruct Hsame as (_ & Hgamepad & _). rewrite Hgamepad. congruence.
  - rewrite lookup_insert_ne by assumption. exists cb. split; assumption.
Qed.

Lemma aligned_after_disconnect (host : Host.t) (gamepad : option Gamepad.t)
    (i : nat) (w w' : World) :
  registry_aligned host w ->
  onGamepadDisconnect gamepad i w = Normal w' ->
  registry_aligned host w'.
Proof.
  intros Haligned. unfold onGamepadDisconnect.
  destruct (controllers w !! _); [|discriminate]. intros [= <-] j b Hj.
  cbn in Hj. apply lookup_delete_Some in Hj as [_ Hj].
  apply (Haligned j b Hj).
Qed.

Lemma update_slots_connections (host : Host.t) (gamepads : list Host.slot)
    (i : nat) (w w' : World) :
  wf_world w ->
  registry_aligned host w ->
  (forall k h, gamepads !! k = Some (Host.Handle h) ->
               Gamepad.index (Host.deref host h) = i + k) ->
  update_slots host i gamepads w = Normal w' ->
  (forall j, j < i -> controllers w' !! j = controllers w !! j) /\
  exists added,
    log w' = log w ++ added /\
    connections added
    = seq (next w) (length (unregistered (controllers w) i gamepads)) /\
    next w' = next w + length (unregistered (controllers w) i gamepads).
Proof.
  revert i w. induction gamepads as [|slot rest IH]; intros i w Hwf Haligned Hslots;
    cbn [update_slots unregistered].
  - intros [= <-]. split; [reflexivity|]. exists []. cbn.
    rewrite app_nil_r, Nat.add_0_r. repeat split.
  - assert (Hrest : forall k h, rest !! k = Some (Host.Handle h) ->
                                Gamepad.index (Host.deref host h) = S i + k).
    { intros k h Hk. rewrite (Hslots (S k) h Hk). lia. }
    destruct slot as [| |h].
    + (* a null slot *)
      destruct (controllers w !! i) as [adapter|] eqn:Hi.
      * destruct (onGamepadDisconnect None i w) as [w1|] eqn:Hd; [|cbn; discriminate].
        cbn [mbind completion_bind JS.bind]. intros Hrun.
        destruct (onGamepadDisconnect_keeps _ _ _ _ Hwf Hd) as [Hwf1 _].
        assert (Haligned1 := aligned_after_disconnect host _ _ _ _ Haligned Hd).
        unfold onGamepadDisconnect in Hd. rewrite Hi in Hd. injection Hd as <-.
        destruct (IH _ _ Hwf1 Haligned1 Hrest Hrun) as (Hbelow & added & Hlog & Hconn & Hnext).
        cbn [controllers next log emit heap] in *.
        rewrite (unregistered_ext (controllers w) (delete i (controllers w)))
          in Hconn, Hnext by (intros j Hj; apply lookup_delete_ne; lia).
        split.
        { intros j Hj. rewrite Hbelow by lia. apply lookup_delete_ne. lia. }
        eexists. split; [rewrite Hlog, <- app_assoc; reflexivity|].
        split; [|exact Hnext]. rewrite connections_app. exact Hconn.
      * cbn [mbind completion_bind JS.bind]. intros Hrun.
        destruct (IH _ _ Hwf Haligned Hrest Hrun) as (Hbelow & added & Hlog & Hconn & Hnext).
        split; [intros j Hj; apply Hbelow; lia|].
        exists added. repeat split; assumption.
    + (* an undefined slot *)
      cbn [mbind completion_bind JS.bind]. intros Hrun.
      destruct (IH _ _ Hwf Haligned Hrest Hrun) as (Hbelow & added & Hlog & Hconn & Hnext).
      split; [intros j Hj; apply Hbelow; lia|].
      destruct (controllers w !! i); exists added; repeat split; assumption.
    + (* a device *)
      assert (Hindex : Gamepad.index (Host.deref host h) = i).
      { rewrite (Hslots 0 h eq_refl). lia. }
      destruct (controllers w !! i) as [adapter|] eqn:Hi.
      * cbn [mbind completion_bind JS.bind]. rewrite Hi.
        destruct (prototype_update host adapter w) as [w2|] eqn:Hupdate;
          [|cbn; discriminate].
        cbn [mbind completion_bind JS.bind]. intros Hrun.
        destruct (prototype_update_keeps _ _ _ _ Hwf Hupdate) as [Hwf2 _].
        assert (Haligned2 := aligned_after_update host _ _ _ Haligned Hupdate).
        destruct (prototype_update_heap host _ _ _ Hupdate)
          as (c & c' & Hthis & _ & _ & Hnext2).
        destruct (prototype_update_effects host _ _ _ Hupdate)
          as (c0 & added2 & Hthis0 & Hlog2 & Hconn2 & Hreg2).
        assert (Hc0 : Gamepad.index (Host.deref host (Controller.gamepad c0)) = i).
        { destruct (Haligned i adapter Hi) as (cb & Hcb & Hib). congruence. }
        rewrite Hc0 in Hreg2.
        assert (Hsame : forall j, j <> i -> controllers w2 !! j = controllers w !! j).
        { intros j Hj. destruct Hreg2 as [->| ->]; [reflexivity|].
          apply lookup_delete_ne. congruence. }
        destruct (IH _ _ Hwf2 Haligned2 Hrest Hrun)
          as (Hbelow & added & Hlog & Hconn & Hnext).
        rewrite (unregistered_ext (controllers w) (controllers w2))
          in Hconn, Hnext by (intros j Hj; apply Hsame; lia).
        rewrite Hnext2 in Hconn, Hnext.
        split.
        { intros j Hj. rewrite Hbelow by lia. apply Hsame. lia. }
        eexists. split; [rewrite Hlog, Hlog2, <- app_assoc; reflexivity|].
        split; [|exact Hnext]. rewrite connections_app, Hconn2. exact Hconn.
      * destruct (onGamepadConnect host h w) as [w1|] eqn:Hconnect;
          [|cbn; discriminate].
        cbn [mbind completion_bind JS.bind].
        destruct (onGamepadConnect_keeps _ _ _ _ Hwf Hconnect) as [Hwf1 _].
        destruct (onGamepadConnect_effects _ _ _ _ Hconnect)
          as (c & pulse & Hheap1 & Hnext1 & Hreg1 & Hgamepad & Hlog1 & Hpulse).
        rewrite Hindex in Hreg1.
        assert (Haligned1 : registry_aligned host w1).
        { intros j b Hj. rewrite Hreg1 in Hj. rewrite Hheap1.
          destruct (decide (j = i)) as [->|Hne].
          - rewrite lookup_insert_eq in Hj. injection Hj as <-.
            rewrite lookup_insert_eq. exists c. split; [reflexivity|]. congruence.
          - rewrite lookup_insert_ne in Hj by congruence.
            destruct (Haligned j b Hj) as (cb & Hcb & Hib).
            exists cb. split; [|assumption].
            rewrite lookup_insert_ne; [assumption|].
            intros <-. rewrite (Hwf (next w)) in Hcb by lia. discriminate. }
        rewrite Hreg1, lookup_insert_eq.
        destruct (prototype_update host (next w) w1) as [w2|] eqn:Hupdate;
          [|cbn; discriminate].
        cbn [mbind completion_bind JS.bind]. intros Hrun.
        destruct (prototype_update_keeps _ _ _ _ Hwf1 Hupdate) as [Hwf2 _].
        assert (Haligned2 := aligned_after_update host _ _ _ Haligned1 Hupdate).
        destruct (prototype_update_heap host _ _ _ Hupdate)
          as (c1 & c' & Hthis & _ & _ & Hnext2).
        destruct (prototype_update_effects host _ _ _ Hupdate)
          as (c0 & added2 & Hthis0 & Hlog2 & Hconn2 & Hreg2).
        assert (Hc0 : Gamepad.index (Host.deref host (Controller.gamepad c0)) = i).
        { rewrite Hheap1, lookup_insert_eq in Hthis0. injection Hthis0 as <-.
          congruence. }
        rewrite Hc0 in Hreg2.
        assert (Hsame : forall j, j <> i -> controllers w2 !! j = controllers w !! j).
        { intros j Hj. destruct Hreg2 as [->| ->].
          - rewrite Hreg1. apply lookup_insert_ne. congruence.
          - rewrite lookup_delete_ne by congruence.
            rewrite Hreg1. apply lookup_insert_ne. congruence. }
        destruct (IH _ _ Hwf2 Haligned2 Hrest Hrun)
          as (Hbelow & added & Hlog & Hconn & Hnext).
        rewrite (unregistered_ext (controllers w) (controllers w2))
          in Hconn, Hnext by (intros j Hj; apply Hsame; lia).
        rewrite Hnext2, Hnext1 in Hconn, Hnext.
        split.
        { intros j Hj. rewrite Hbelow by lia. apply Hsame. lia. }
        eexists. split; [rewrite Hlog, Hlog2, Hlog1, <- !app_assoc; reflexivity|].
        cbn [length]. split; [|lia].
        rewrite !connections_app, Hpulse, Hconn2, Hconn. reflexivity.
Qed.

(** X17: one run of [THREE.VRController.update] that completes, with
    every device sitting in the slot its [index] names and every
    registered adapter under the index of its device.  It announces
    ["vr controller connected"] once for each slot that holds a device and
    had no adapter, in slot order and each time with a newly created
    adapter, and for no other slot: a device that already has its adapter
    is not announced again. *)
Theorem connected_once (host : Host.t) (gamepads : list Host.slot) (w w' : World) :
  wf_world w ->
  registry_aligned host w ->
  Host.getGamepads host = Some gamepads ->
  slots_aligned host gamepads ->
  update host w = Normal w' ->
  exists added,
    log w' = log w ++ added /\
    connections added
    = seq (next w) (length (unregistered (controllers w) 0 gamepads)) /\
    next w' = next w + length (unregistered (controllers w) 0 gamepads).
Proof.
  intros Hwf Haligned Hgamepads Hslots. unfold update. rewrite Hgamepads.
  intros Hrun.
  destruct (update_slots_connections host gamepads 0 w w' Hwf Haligned) as [_ H];
    [intros k h Hk; apply (Hslots k h Hk) | exact Hrun | exact H].
Qed.

End ConnectedOnce.

Lemma connected_once_witness :
  exists w' added,
    update (one_device (vive_wand [0; 0]%float four_released))
      (empty_world (M := FloatThree.math)) = Normal w' /\
    log w' = added /\
    connections added = [0].
Proof.
  assert (Hrun : exists w',
            update (one_device (vive_wand [0; 0]%float four_released))
              (empty_world (M := FloatThree.math)) = Normal w')
    by (eexists; reflexivity).
  destruct Hrun as [w' Hrun].
  destruct (connected_once (M := FloatThree.math)
              (one_device (vive_wand [0; 0]%float four_released))
              [Host.Handle 0] empty_world w' empty_world_wf)
    as (added & Hlog & Hconn & _).
  - intros i adapter Hslot. unfold empty_world in Hslot. cbn [controllers] in Hslot.
    rewrite lookup_empty in Hslot. discriminate.
  - reflexivity.
  - intros [|i] h Hslot; [reflexivity|]. destruct i; discriminate.
  - exact Hrun.
  - exists w', added. split; [exact Hrun|]. split; [exact Hlog | exact Hconn].
Defined.
(** ** The arm model: what it passes through and what it ignores *)

Section ArmModelMore.
Context {M : ThreeMath}.

Lemma update_setLeftHanded (a : OrientationArmModel.t) (flag : bool) (now : number) :
  OrientationArmModel.update (OrientationArmModel.setLeftHanded a flag) now
  = OrientationArmModel.setLeftHanded (OrientationArmModel.update a now) flag.
Proof.
  destruct a as [l c lc hq hp ep wp t lt r p].
  unfold OrientationArmModel.update, OrientationArmModel.setLeftHanded,
    OrientationArmModel.getHeadYawOrientation_.
  cbv beta iota delta [OrientationArmModel.isLeftHanded
    OrientationArmModel.controllerQ OrientationArmModel.lastControllerQ
    OrientationArmModel.headQ OrientationArmModel.headPos
    OrientationArmModel.elbowPos OrientationArmModel.wristPos
    OrientationArmModel.rootQ OrientationArmModel.pose
    OrientationArmModel.lastTime OrientationArmModel.time].
  destruct (Euler_setFromQuaternion_YXZ hq) as [[hx hy] hz].
  destruct (Euler_setFromQuaternion_YXZ c) as [[cx cy] cz].
  reflexivity.
Qed.

Lemma tick_setLeftHanded (a : OrientationArmModel.t) (flag : bool)
    (i : ArmRun.Input) (now : number) :
  ArmRun.tick (OrientationArmModel.setLeftHanded a flag) i now
  = OrientationArmModel.setLeftHanded (ArmRun.tick a i now) flag.
Proof. unfold ArmRun.tick. rewrite <- update_setLeftHanded. reflexivity. Qed.

Lemma update_orientation (a : OrientationArmModel.t) (now : number) :
  OrientationArmModel.orientation
    (OrientationArmModel.getPose (OrientationArmModel.update a now))
  = OrientationArmModel.controllerQ a.
Proof.
  unfold OrientationArmModel.update, OrientationArmModel.getPose.
  destruct (Euler_setFromQuaternion_YXZ (OrientationArmModel.controllerQ a))
    as [[cx cy] cz].
  reflexivity.
Qed.

(** X18: the arm model hands the controller's orientation through
    unchanged (the pose it returns after an update has the orientation
    last given to [setControllerOrientation]; only the position is
    computed), and [setLeftHanded] has no effect on any pose: the flag is
    stored and never read. *)
Theorem arm_model_passes_orientation (a : OrientationArmModel.t) :
  (forall (i : ArmRun.Input) (now : number),
     OrientationArmModel.orientation
       (OrientationArmModel.getPose (ArmRun.tick a i now))
     = ArmRun.controllerQ i) /\
  (forall (flag : bool) (ticks : list (ArmRun.Input * number)),
     ArmRun.run (OrientationArmModel.setLeftHanded a flag) ticks
     = ArmRun.run a ticks) /\
  (forall (flag : bool),
     OrientationArmModel.isLeftHanded (OrientationArmModel.setLeftHanded a flag)
     = flag).
Proof.
  split; [|split].
  - intros i now. unfold ArmRun.tick. rewrite update_orientation. reflexivity.
  - intros flag ticks. revert a.
    induction ticks as [|[i now] ticks IH]; intros a; [reflexivity|].
    cbn [ArmRun.run]. rewrite tick_setLeftHanded, IH. reflexivity.
  - reflexivity.
Qed.

End ArmModelMore.

(** ** The hand *)

Lemma poll_axis_no_hand (style : string) (thr pthr : number) (gp : Gamepad.t)
    (ax : Axis.t) :
  Forall carries_no_hand (snd (poll_axis style thr pthr gp ax)).
Proof.
  destruct (guarded_pair thr gp ax) as [fresh|] eqn:G.
  - destruct (guarded_pair_Some _ _ _ _ G) as (x & y & H0 & H1 & Hx & Hy & ->).
    rewrite (poll_axis_guarded style thr pthr gp ax x y H0 H1 Hx Hy). cbn [snd].
    apply Forall_app. split.
    + destruct (pair_differs _ _); constructor; [|constructor].
      intros hand. discriminate.
    + destruct (Axis.isThumbstick ax); [|constructor].
      apply Forall_forall. intros e He hand.
      apply list_elem_of_In in He.
      rewrite (poll_dpad_payload _ _ _ _ e He). discriminate.
  - rewrite poll_axis_unguarded by assumption. constructor.
Qed.

Lemma poll_button_no_hand (raw : GamepadButton.t) (button : Button.t) :
  Forall carries_no_hand (snd (poll_button raw button)).
Proof.
  unfold poll_button. cbn [snd].
  repeat (apply Forall_app; split);
    match goal with
    | |- Forall _ (if ?b then _ else _) => destruct b; [|constructor]
    end;
    (constructor; [intros hand; discriminate|]);
    destruct (Button.isPrimary button); repeat constructor; intros hand; discriminate.
Qed.

Lemma poll_buttons_no_hand (raws : list GamepadButton.t) (buttons : list Button.t) :
  Forall carries_no_hand
    (concat (zip_with (fun raw b => snd (poll_button raw b)) raws buttons)).
Proof.
  apply Forall_concat. revert raws.
  induction buttons as [|b bs IH]; intros [|raw raws]; cbn [zip_with]; constructor.
  - apply poll_button_no_hand.
  - apply IH.
Qed.

(** X19: after a poll, [getHand()] is the hand the device reports.
    ["hand changed"] is dispatched exactly when that differs from the hand
    held before; it then comes first, carries the new hand, and no other
    event of the poll carries a hand. *)
Theorem hand_tracking {M : ThreeMath} (c c' : Controller.t) (gp : Gamepad.t)
    (events : list Event.t) :
  pollForChanges c gp = Normal (c', events) ->
  getHand c' = Gamepad.hand gp /\
  (getHand c <> Gamepad.hand gp ->
   exists rest,
     events = Event.mk "hand changed" (Event.Hand (Gamepad.hand gp)) :: rest /\
     Forall carries_no_hand rest) /\
  (getHand c = Gamepad.hand gp -> Forall carries_no_hand events).
Proof.
  intros Hpoll.
  assert (Hevents := pollForChanges_events c c' gp events Hpoll).
  assert (Hrest : Forall carries_no_hand
                    (concat (map (fun ax => snd (poll_axis (Controller.style c)
                                                   (Controller.axisThreshold c)
                                                   (Controller.axisPressThreshold c) gp ax))
                               (Closure.axes (Controller.closure c)))
                     ++ concat (zip_with (fun raw b => snd (poll_button raw b))
                                  (Gamepad.buttons gp)
                                  (Closure.buttons (Controller.closure c))))).
  { apply Forall_app. split.
    - apply Forall_concat, Forall_fmap, Forall_forall. intros ax _.
      apply poll_axis_no_hand.
    - apply poll_buttons_no_hand. }
  assert (Hhand : getHand c' = fst (poll_hand (Closure.hand (Controller.closure c)) gp)).
  { revert Hpoll. unfold pollForChanges, getHand.
    destruct (poll_hand (Closure.hand (Controller.closure c)) gp) as [hand1 e0].
    destruct (poll_each _ (Closure.axes (Controller.closure c))) as [axes1 e1].
    destruct (poll_buttons 0 gp (Closure.buttons (Controller.closure c)))
      as [[buttons1 e2]|]; [|cbn; discriminate].
    cbn -[poll_button]. intros [= <- _]. reflexivity. }
  rewrite Hevents, Hhand. unfold getHand, poll_hand.
  destruct (String.eqb (Closure.hand (Controller.closure c)) (Gamepad.hand gp)) eqn:E;
    cbn [negb fst snd app].
  - apply String.eqb_eq in E. split; [assumption|]. split; [contradiction|].
    intros _. exact Hrest.
  - apply String.eqb_neq in E. split; [reflexivity|]. split; [|contradiction].
    intros _. eexists. split; [reflexivity | exact Hrest].
Qed.

Lemma hand_tracking_witness :
  exists c' rest,
    pollForChanges vive_adapter
      (Gamepad.mk "OpenVR Gamepad" 0 "left" [0; 0]%float four_released
         (Some tracked_pose) None)
    = Normal (c', Event.mk "hand changed" (Event.Hand "left") :: rest) /\
    getHand c' = "left".
Proof.
  assert (Hrun : exists c' events,
            pollForChanges vive_adapter
              (Gamepad.mk "OpenVR Gamepad" 0 "left" [0; 0]%float four_released
                 (Some tracked_pose) None)
            = Normal (c', events)) by (eexists _, _; reflexivity).
  destruct Hrun as (c' & events & Hrun).
  destruct (hand_tracking vive_adapter c' _ events Hrun) as (Hhand & Hchanged & _).
  destruct Hchanged as (rest & -> & _); [discriminate|].
  exists c', rest. split; [exact Hrun | exact Hhand].
Defined.

(** ** The emulated d-pad *)

Lemma opposite_thresholds (v : number) :
  (v <? -0.6)%float && (0.6 <? v)%float = false.
Proof.
  rewrite !FloatAxioms.ltb_spec. unfold SpecFloat.SFltb.
  eassert (Hn : FloatOps.Prim2SF (-0.6) = _) by (vm_compute; reflexivity).
  eassert (Hp : FloatOps.Prim2SF 0.6 = _) by (vm_compute; reflexivity).
  rewrite Hn, Hp.
  destruct (FloatOps.Prim2SF v) as [[]|[]| |[] m e];
    unfold SpecFloat.SFcompare; cbv beta iota; try reflexivity.
  apply andb_false_r.
Qed.

Lemma poll_dpad_truthy (pthr : number) (gp : Gamepad.t) (name : string)
    (d : DPad.direction) (index : nat) (old : bool) (v : number) :
  Gamepad.axes gp !! index = Some v ->
  truthy v = true ->
  let new := match d with
             | DPad.right | DPad.down => (pthr <? v)%float
             | DPad.left | DPad.up => (v <? - pthr)%float
             end in
  poll_dpad pthr gp name (DPad.mk d index old)
  = (DPad.mk d index new, dpad_press name d old new).
Proof.
  intros Hv Htruthy new. subst new. unfold poll_dpad, dpad_press.
  cbn [DPad.dir DPad.index DPad.isPressed]. rewrite Hv.
  destruct d;
    match goal with
    | |- context [if ?test then v else 0%float] =>
        destruct test; [rewrite Htruthy|change (truthy 0) with false]
    end;
    destruct old; reflexivity.
Qed.

(** X21: the d-pad a thumbstick emulates.  At a poll where both raw
    values pass the guard, up is pressed exactly when Y is below the
    negated press threshold, down when Y is above the threshold, left and
    right likewise on X, and each direction whose flag flips dispatches
    its ["press began"] or ["press ended"], in that order, after the axes
    event; with the constructor's threshold [0.6] two opposite directions
    are never pressed together.  At a poll where a raw value is [0],
    [NaN] or missing nothing moves: a direction that was pressed stays
    pressed and no ["press ended"] is dispatched. *)
Theorem dpad_follows_thresholds (style : string) (thr pthr : number)
    (gp : Gamepad.t) (ax : Axis.t) (up down left right : bool) :
  Axis.isThumbstick ax = true ->
  Axis.dpad ax
  = dpad_of (fst (Axis.indexes ax)) (snd (Axis.indexes ax)) up down left right ->
  (forall x y,
     Gamepad.axes gp !! fst (Axis.indexes ax) = Some x ->
     Gamepad.axes gp !! snd (Axis.indexes ax) = Some y ->
     truthy x = true -> truthy y = true ->
     Axis.dpad (fst (poll_axis style thr pthr gp ax))
     = dpad_of (fst (Axis.indexes ax)) (snd (Axis.indexes ax))
         (y <? - pthr)%float (pthr <? y)%float (x <? - pthr)%float (pthr <? x)%float /\
     (exists changes,
        snd (poll_axis style thr pthr gp ax)
        = changes
          ++ dpad_press (Axis.name ax) DPad.up up (y <? - pthr)%float
          ++ dpad_press (Axis.name ax) DPad.down down (pthr <? y)%float
          ++ dpad_press (Axis.name ax) DPad.left left (x <? - pthr)%float
          ++ dpad_press (Axis.name ax) DPad.right right (pthr <? x)%float /\
        (changes = [] \/ exists a b,
           changes = [Event.mk (Axis.name ax +:+ " axes changed") (Event.Axes a b)])) /\
     (pthr = 0.6%float ->
      (y <? - pthr)%float && (pthr <? y)%float = false /\
      (x <? - pthr)%float && (pthr <? x)%float = false)) /\
  (guarded_pair thr gp ax = None -> poll_axis style thr pthr gp ax = (ax, [])).
Proof.
  intros Hthumb Hdpad. split.
  - intros x y Hx Hy Tx Ty.
    rewrite (poll_axis_guarded style thr pthr gp ax x y Hx Hy Tx Ty). cbv zeta.
    rewrite Hthumb, Hdpad. unfold poll_each, dpad_of. cbn [fst snd map concat Axis.dpad].
    rewrite (poll_dpad_truthy pthr gp (Axis.name ax) DPad.up _ up y Hy Ty),
      (poll_dpad_truthy pthr gp (Axis.name ax) DPad.down _ down y Hy Ty),
      (poll_dpad_truthy pthr gp (Axis.name ax) DPad.left _ left x Hx Tx),
      (poll_dpad_truthy pthr gp (Axis.name ax) DPad.right _ right x Hx Tx).
    cbn [fst snd]. split; [reflexivity|]. split.
    + eexists. split; [rewrite app_nil_r; reflexivity|].
      destruct (pair_differs _ _); [right; eexists _, _; reflexivity | left; reflexivity].
    + intros ->. split; [exact (opposite_thresholds y) | exact (opposite_thresholds x)].
  - apply poll_axis_unguarded.
Qed.

Lemma dpad_follows_thresholds_witness :
  Axis.dpad
    (fst (poll_axis "oculus-touch-right" 0.2 0.6
            (touch_right [0.3; 0.7]%float six_released) thumbstick_at_rest))
  = dpad_of 0 1 false true false false.
Proof.
  destruct (dpad_follows_thresholds "oculus-touch-right" 0.2 0.6
              (touch_right [0.3; 0.7]%float six_released) thumbstick_at_rest
              false false false false eq_refl eq_refl) as (Hpoll & _).
  destruct (Hpoll 0.3 0.7 eq_refl eq_refl eq_refl eq_refl)%float as [Hflags _].
  exact Hflags.
Defined.

(** ** The primary alias *)

Lemma string_length_append (a b : string) :
  String.length (a +:+ b) = String.length a + String.length b.
Proof.
  induction a as [|x a IH]; [reflexivity|].
  rewrite append_cons. cbn [String.length]. rewrite IH. reflexivity.
Qed.

Lemma append_inj_r (a b c : string) : a +:+ c = b +:+ c -> a = b.
Proof.
  revert b. induction a as [|x a IH]; intros [|y b] H.
  - reflexivity.
  - exfalso. apply (f_equal String.length) in H.
    rewrite !string_length_append in H. cbn in H. lia.
  - exfalso. apply (f_equal String.length) in H.
    rewrite !string_length_append in H. cbn in H. lia.
  - rewrite !append_cons in H. injection H as -> H. f_equal. apply IH. assumption.
Qed.

Lemma report_In (changed primary : bool) (own alias e : Event.t) :
  In e (report changed primary own alias)
  <-> changed = true /\ (e = own \/ (primary = true /\ e = alias)).
Proof.
  unfold report. destruct changed, primary; cbn; intuition congruence.
Qed.

Lemma poll_button_reports (raw : GamepadButton.t) (b : Button.t) :
  snd (poll_button raw b)
  = report (strict_ne (Button.value b) (GamepadButton.value raw))
      (Button.isPrimary b)
      (button_event (Button.name b) (Change.Value (GamepadButton.value raw)))
      (button_event "primary" (Change.Value (GamepadButton.value raw)))
    ++ report (negb (eqb (Button.isTouched b) (GamepadButton.touched raw)))
         (Button.isPrimary b)
         (button_event (Button.name b) (Change.Touch (GamepadButton.touched raw)))
         (button_event "primary" (Change.Touch (GamepadButton.touched raw)))
    ++ report (negb (eqb (Button.isPressed b) (GamepadButton.pressed raw)))
         (Button.isPrimary b)
         (button_event (Button.name b) (Change.Press (GamepadButton.pressed raw)))
         (button_event "primary" (Change.Press (GamepadButton.pressed raw))).
Proof.
  unfold poll_button, report, button_event. cbn [snd Change.suffix Change.detail].
  destruct (strict_ne _ _), (Button.isTouched b), (GamepadButton.touched raw),
    (Button.isPressed b), (GamepadButton.pressed raw), (Button.isPrimary b);
    reflexivity.
Qed.

Lemma negb_eqb_true (a b : bool) : negb (eqb a b) = true <-> a <> b.
Proof. destruct a, b; cbn; split; congruence. Qed.

(** The events of one button, by what changed. *)
Lemma poll_button_In (raw : GamepadButton.t) (b : Button.t) (e : Event.t) :
  In e (snd (poll_button raw b))
  <-> exists k,
        fires raw b k /\
        (e = button_event (Button.name b) k
         \/ (Button.isPrimary b = true /\ e = button_event "primary" k)).
Proof.
  rewrite poll_button_reports, !in_app_iff, !report_In, !negb_eqb_true. split.
  - intros [(Hc & He)|[(Hc & He)|(Hc & He)]].
    + exists (Change.Value (GamepadButton.value raw)). split; [split; auto | exact He].
    + exists (Change.Touch (GamepadButton.touched raw)). split; [split; auto | exact He].
    + exists (Change.Press (GamepadButton.pressed raw)). split; [split; auto | exact He].
  - intros ([v|a|a] & [Hc ->] & He); auto.
Qed.

Ltac suffix_clash H :=
  first
    [ discriminate H
    | apply append_inj_r in H; first [contradiction | congruence | discriminate H]
    | symmetry in H; apply append_inj_r in H;
      first [contradiction | congruence | discriminate H]
    | apply app_suffixes in H; simpl in H;
      repeat (destruct H as [H|H]; [discriminate H|]); contradiction
    | symmetry in H; apply app_suffixes in H; simpl in H;
      repeat (destruct H as [H|H]; [discriminate H|]); contradiction ].

Lemma button_event_not_alias (name : string) (k k0 : Change.t) :
  name <> "primary" -> button_event name k <> button_event "primary" k0.
Proof.
  intros Hne H. unfold button_event in H. injection H as Htype Hdetail.
  destruct k as [v|[]|[]], k0 as [v0|[]|[]]; try discriminate Hdetail;
    cbn [Change.suffix action] in Htype; suffix_clash Htype.
Qed.

Lemma button_event_inj (p name : string) (k k0 : Change.t) :
  In p primary_names ->
  button_event p k0 = button_event name k -> name = p /\ k = k0.
Proof.
  intros Hp H. unfold button_event in H. injection H as Htype Hdetail.
  assert (Hsame : Change.suffix k = Change.suffix k0 -> name = p /\ k = k0).
  { intros Hs. rewrite Hs in Htype. apply append_inj_r in Htype. split; [congruence|].
    destruct k as [v|[]|[]], k0 as [v0|[]|[]]; try discriminate Hdetail;
      try discriminate Hs; try reflexivity.
    cbn in Hdetail. congruence. }
  destruct k as [v|[]|[]], k0 as [v0|[]|[]]; try discriminate Hdetail;
    try (apply Hsame; reflexivity);
    exfalso; cbn [Change.suffix action] in Htype;
    cbn in Hp; repeat (destruct Hp as [<-|Hp]; [suffix_clash Htype|]); contradiction.
Qed.

Lemma primary_event_not_alias (p : string) (k k0 : Change.t) :
  In p primary_names -> button_event p k0 <> button_event "primary" k.
Proof.
  intros Hp. apply button_event_not_alias.
  cbn in Hp. repeat (destruct Hp as [<-|Hp]; [discriminate|]). contradiction.
Qed.

Lemma dpad_event_not_button (p name : string) (d : DPad.direction) (began : bool)
    (k : Change.t) :
  In p ("primary" :: primary_names) ->
  Event.mk (name +:+ " " +:+ DPad.direction_name d +:+ " press " +:+ action began)
    Event.NoDetail
  <> button_event p k.
Proof.
  intros Hp H. unfold button_event in H. injection H as Htype Hdetail.
  destruct k as [v|[]|[]]; try discriminate Hdetail;
    destruct d, began; cbn [Change.suffix action DPad.direction_name] in Htype;
    cbn in Hp; repeat (destruct Hp as [<-|Hp]; [suffix_clash Htype|]); contradiction.
Qed.

Lemma in_concat_zip_with {A B C} (f : A -> B -> list C) (l : list A) (k : list B)
    (e : C) :
  In e (concat (zip_with f l k))
  <-> exists j a b, l !! j = Some a /\ k !! j = Some b /\ In e (f a b).
Proof.
  revert k. induction l as [|a l IH]; intros [|b k]; cbn [zip_with concat].
  - split; [contradiction | intros (j & ? & ? & H & _); rewrite lookup_nil in H; discriminate].
  - split; [contradiction | intros (j & ? & ? & H & _); rewrite lookup_nil in H; discriminate].
  - split; [contradiction | intros (j & ? & ? & _ & H & _); rewrite lookup_nil in H; discriminate].
  - rewrite in_app_iff, IH. split.
    + intros [H|(j & a' & b' & Ha & Hb & H)].
      * exists 0, a, b. repeat split; assumption.
      * exists (S j), a', b'. repeat split; assumption.
    + intros ([|j] & a' & b' & Ha & Hb & H).
      * injection Ha as <-. injection Hb as <-. left. assumption.
      * right. exists j, a', b'. repeat split; assumption.
Qed.

Lemma alias_inj (k k0 : Change.t) :
  button_event "primary" k = button_event "primary" k0 -> k = k0.
Proof.
  unfold button_event. intros [= Htype Hdetail].
  destruct k as [v|[]|[]], k0 as [v0|[]|[]]; try discriminate Hdetail;
    try discriminate Htype; try reflexivity.
  cbn in Hdetail. congruence.
Qed.

Lemma poll_dpad_shape (pthr : number) (gp : Gamepad.t) (name : string)
    (l : list DPad.t) (e : Event.t) :
  In e (snd (poll_each (poll_dpad pthr gp name) l)) ->
  exists d began,
    e = Event.mk (name +:+ " " +:+ DPad.direction_name d +:+ " press " +:+ action began)
          Event.NoDetail.
Proof.
  unfold poll_each. cbn [snd]. induction l as [|x l IH]; cbn [map concat];
    [contradiction|].
  rewrite in_app_iff. intros [H|H]; [|apply IH; assumption].
  unfold poll_dpad in H. destruct (negb _); cbn [snd] in H; [|contradiction].
  destruct H as [<-|[]]. eexists _, _. reflexivity.
Qed.

Lemma poll_axis_shape (style : string) (thr pthr : number) (gp : Gamepad.t)
    (ax : Axis.t) (e : Event.t) :
  In e (snd (poll_axis style thr pthr gp ax)) ->
  (exists a b, Event.payload e = Event.Axes a b)
  \/ exists name d began,
       e = Event.mk (name +:+ " " +:+ DPad.direction_name d +:+ " press "
                     +:+ action began) Event.NoDetail.
Proof.
  destruct (guarded_pair thr gp ax) as [fresh|] eqn:G.
  - destruct (guarded_pair_Some _ _ _ _ G) as (x & y & H0 & H1 & Hx & Hy & ->).
    rewrite (poll_axis_guarded style thr pthr gp ax x y H0 H1 Hx Hy). cbn [snd].
    rewrite in_app_iff. intros [H|H].
    + destruct (pair_differs _ _); [|contradiction].
      destruct H as [<-|[]]. left. eexists _, _. reflexivity.
    + destruct (Axis.isThumbstick ax); [|contradiction].
      right. exists (Axis.name ax). apply (poll_dpad_shape _ _ _ _ _ H).
  - rewrite poll_axis_unguarded by assumption. contradiction.
Qed.

Section PrimaryAlias.
Context {M : ThreeMath}.

Lemma primary_name_known (h : nat) (gp : Gamepad.t) (c : Controller.t) :
  VRController h gp = Normal c ->
  In (Closure.buttonNamePrimary (Controller.closure c)) primary_names.
Proof.
  intros Hc. apply VRController_closure in Hc as (byName & Hmake & _).
  unfold make_buttons in Hmake.
  destruct (getSupportedById (Gamepad.id gp)) as [s|] eqn:Hs.
  - apply getSupportedById_loop_In in Hs.
    assert (Hall : forallb (fun s => match Supported.primary s with
                                     | Some q => existsb (String.eqb q) primary_names
                                     | None => true
                                     end) (map snd supported) = true)
      by (vm_compute; reflexivity).
    rewrite forallb_forall in Hall. specialize (Hall s Hs).
    destruct s as [style axes names [q|]]; cbn [Supported.primary] in Hall.
    + assert (Hq : In q primary_names).
      { apply existsb_exists in Hall as (x & Hx & E).
        apply String.eqb_eq in E. subst x. exact Hx. }
      destruct names as [names|]; cbn in Hmake.
      * destruct (rename_buttons 0 names _); [|discriminate].
        cbn in Hmake. injection Hmake as _ _ <-. exact Hq.
      * injection Hmake as _ _ <-. exact Hq.
    + assert (Hd : In (if decide (1 < length (Gamepad.buttons gp))
                       then "button_1" else "button_0") primary_names).
      { destruct (decide _); cbn; auto 10. }
      destruct names as [names|]; cbn in Hmake.
      * destruct (rename_buttons 0 names _); [|discriminate].
        cbn in Hmake. injection Hmake as _ _ <-. exact Hd.
      * injection Hmake as _ _ <-. exact Hd.
  - cbn in Hmake. injection Hmake as _ _ <-. destruct (decide _); cbn; auto 10.
Qed.

(** The primary button of an adapter built for a device with a button,
    whatever was called on the adapter since. *)
Lemma later_primary (h : nat) (gp : Gamepad.t) (c c' : Controller.t) :
  VRController h gp = Normal c ->
  Gamepad.buttons gp <> [] ->
  later c c' ->
  buttons_indexed c' /\
  Closure.buttonNamePrimary (Controller.closure c')
  = Closure.buttonNamePrimary (Controller.closure c) /\
  exists i b,
    Closure.buttons (Controller.closure c') !! i = Some b /\
    Button.isPrimary b = true /\
    Button.name b = Closure.buttonNamePrimary (Controller.closure c') /\
    forall j b',
      Closure.buttons (Controller.closure c') !! j = Some b' ->
      Button.isPrimary b' = true -> j = i.
Proof.
  intros Hc Hsome Hlater.
  assert (Hindexed := VRController_buttons_indexed h gp c Hc).
  apply later_tables in Hlater.
  assert (Hindexed' := same_tables_indexed c c' Hlater Hindexed).
  destruct Hlater as (_ & Hp & Hnames & Hflags).
  apply VRController_closure in Hc as (byName & Hmake & _).
  assert (Hwf : match getSupportedById (Gamepad.id gp) with
                | Some s => wf_supported s = true
                | None => True
                end).
  { destruct (getSupportedById (Gamepad.id gp)) eqn:Hs; [|exact I].
    apply (getSupportedById_wf _ _ Hs). }
  destruct (make_buttons_primary gp _ _ _ _ Hwf Hmake Hsome)
    as (i & b & Hb & Hprimary & Honly & Hname & _).
  assert (Hat : forall j,
            Button.name <$> Closure.buttons (Controller.closure c') !! j
            = Button.name <$> Closure.buttons (Controller.closure c) !! j /\
            Button.isPrimary <$> Closure.buttons (Controller.closure c') !! j
            = Button.isPrimary <$> Closure.buttons (Controller.closure c) !! j).
  { intros j. rewrite <- !lookup_map, Hnames, Hflags. split; reflexivity. }
  split; [exact Hindexed'|]. split; [exact Hp|].
  destruct (Hat i) as [Hni Hfi]. rewrite Hb in Hni, Hfi.
  destruct (Closure.buttons (Controller.closure c') !! i) as [b'|] eqn:Hb';
    [|discriminate].
  cbn in Hni, Hfi. injection Hni as Hni. injection Hfi as Hfi.
  exists i, b'. split; [exact Hb'|]. split; [congruence|]. split; [congruence|].
  intros j y Hy Hyp.
  destruct (Hat j) as [_ Hfj]. rewrite Hy in Hfj.
  destruct (Closure.buttons (Controller.closure c) !! j) as [y0|] eqn:Hy0;
    [|discriminate].
  cbn in Hfj. injection Hfj as Hfj. apply (Honly j y0); congruence.
Qed.

(** X20: on an adapter built for a device with at least one button,
    whatever was called on it since, a poll dispatches
    ["primary <change>"] exactly when it dispatches ["<name> <change>"]
    for the name of the primary button, with the same payload; and it
    does so exactly when the raw record of the primary button differs
    from the tracked state in that respect.  ([<change>] is
    ["value changed"], ["touch began"], ["touch ended"], ["press began"] or
    ["press ended"].) *)
Theorem primary_alias (h : nat) (gp0 gp : Gamepad.t) (c c1 c2 : Controller.t)
    (events : list Event.t) (k : Change.t) :
  VRController h gp0 = Normal c ->
  Gamepad.buttons gp0 <> [] ->
  later c c1 ->
  pollForChanges c1 gp = Normal (c2, events) ->
  (In (button_event "primary" k) events
   <-> In (button_event (Closure.buttonNamePrimary (Controller.closure c1)) k) events) /\
  (In (button_event "primary" k) events
   <-> exists i b raw,
         Closure.buttons (Controller.closure c1) !! i = Some b /\
         Button.isPrimary b = true /\
         Gamepad.buttons gp !! i = Some raw /\
         fires raw b k).
Proof.
  intros Hc Hsome Hlater Hpoll.
  assert (Hknown := primary_name_known h gp0 c Hc).
  destruct (later_primary h gp0 c c1 Hc Hsome Hlater)
    as ((_ & Hnodup & Hfree) & Hp & i & bi & Hbi & Hprimary & Hname & Honly).
  rewrite <- Hp in Hknown.
  set (p := Closure.buttonNamePrimary (Controller.closure c1)) in *.
  rewrite (pollForChanges_events c1 c2 gp events Hpoll).
  set (hand_events := snd (poll_hand _ gp)).
  set (axes_events := concat (map _ _)).
  set (raws := Gamepad.buttons gp).
  set (tracked := Closure.buttons (Controller.closure c1)) in *.
  assert (Hhand : forall q, ~ In (button_event q k) hand_events).
  { intros q. subst hand_events. unfold poll_hand.
    destruct (negb _); cbn [snd]; [|intros []].
    intros [H|[]]. unfold button_event in H. injection H as _ H.
    destruct k; discriminate H. }
  assert (Haxes : forall q, In q ("primary" :: primary_names) ->
                            ~ In (button_event q k) axes_events).
  { intros q Hq Hin. subst axes_events. apply in_concat in Hin as (l & Hl & Hin).
    apply in_map_iff in Hl as (ax & <- & _).
    apply poll_axis_shape in Hin as [(a & b & Hpay)|(name & d & began & He)].
    - destruct k; discriminate Hpay.
    - symmetry in He. apply (dpad_event_not_button q name d began k Hq He). }
  assert (Hbuttons : forall e,
            In e (hand_events ++ axes_events
                  ++ concat (zip_with (fun raw b => snd (poll_button raw b)) raws tracked))
            <-> In e hand_events \/ In e axes_events
                \/ exists j raw b k',
                     raws !! j = Some raw /\ tracked !! j = Some b /\
                     fires raw b k' /\
                     (e = button_event (Button.name b) k'
                      \/ (Button.isPrimary b = true /\ e = button_event "primary" k'))).
  { intros e. rewrite !in_app_iff, in_concat_zip_with. split.
    - intros [H|[H|(j & raw & b & Hr & Hb & H)]]; auto.
      apply poll_button_In in H as (k' & Hf & H). right. right.
      exists j, raw, b, k'. auto.
    - intros [H|[H|(j & raw & b & k' & Hr & Hb & Hf & H)]]; auto.
      right. right. exists j, raw, b. split; [assumption|]. split; [assumption|].
      apply poll_button_In. exists k'. auto. }
  assert (Hnot_primary : forall j b, tracked !! j = Some b -> Button.name b <> "primary").
  { intros j b Hb E. apply Hfree. rewrite <- E.
    apply list_elem_of_In, list_elem_of_lookup. exists j.
    rewrite lookup_map. fold tracked. rewrite Hb. reflexivity. }
  assert (Halias : In (button_event "primary" k)
                     (hand_events ++ axes_events
                      ++ concat (zip_with (fun raw b => snd (poll_button raw b))
                                   raws tracked))
                   <-> exists raw, raws !! i = Some raw /\ fires raw bi k).
  { rewrite Hbuttons. split.
    - intros [H|[H|(j & raw & b & k' & Hr & Hb & Hf & [H|[Hpb H]])]].
      + exfalso. apply (Hhand _ H).
      + exfalso. apply (Haxes "primary"); [left; reflexivity | exact H].
      + exfalso. symmetry in H.
        apply (button_event_not_alias _ _ _ (Hnot_primary j b Hb) H).
      + apply alias_inj in H. subst k'. pose proof (Honly j b Hb Hpb) as Hj. subst j.
        exists raw. split; [assumption|]. congruence.
    - intros (raw & Hr & Hf). right. right. exists i, raw, bi, k.
      split; [assumption|]. split; [assumption|]. split; [assumption|].
      right. split; [assumption | reflexivity]. }
  assert (Hown : In (button_event p k)
                   (hand_events ++ axes_events
                    ++ concat (zip_with (fun raw b => snd (poll_button raw b))
                                 raws tracked))
                 <-> exists raw, raws !! i = Some raw /\ fires raw bi k).
  { rewrite Hbuttons. split.
    - intros [H|[H|(j & raw & b & k' & Hr & Hb & Hf & [H|[Hpb H]])]].
      + exfalso. apply (Hhand _ H).
      + exfalso. apply (Haxes p); [right; exact Hknown | exact H].
      + apply (button_event_inj p _ _ _ Hknown) in H as [Hn ->].
        assert (j = i) as ->.
        { apply (proj1 (NoDup_alt _) Hnodup j i p);
            rewrite lookup_map; fold tracked; [rewrite Hb | rewrite Hbi]; cbn; congruence. }
        exists raw. split; [assumption|]. congruence.
      + exfalso. apply (primary_event_not_alias p k' k Hknown H).
    - intros (raw & Hr & Hf). right. right. exists i, raw, bi, k.
      split; [assumption|]. split; [assumption|]. split; [assumption|].
      left. rewrite Hname. reflexivity. }
  split.
  - rewrite Halias, Hown. reflexivity.
  - rewrite Halias. split.
    + intros (raw & Hr & Hf). exists i, bi, raw. auto.
    + intros (j & b & raw & Hb & Hpb & Hr & Hf).
      pose proof (Honly j b Hb Hpb) as Hj. subst j. exists raw. split; [assumption|]. congruence.
Qed.

End PrimaryAlias.

Lemma primary_alias_witness :
  exists c2 events,
    pollForChanges vive_adapter
      (vive_wand [0; 0]%float
         [released; GamepadButton.mk 1 true true; released; released])
    = Normal (c2, events) /\
    In (button_event "primary" (Change.Press true)) events /\
    In (button_event "trigger" (Change.Press true)) events.
Proof.
  assert (Hrun : exists c2 events,
            pollForChanges vive_adapter
              (vive_wand [0; 0]%float
                 [released; GamepadButton.mk 1 true true; released; released])
            = Normal (c2, events)) by (eexists _, _; reflexivity).
  destruct Hrun as (c2 & events & Hrun).
  destruct (primary_alias (M := FloatThree.math) 0
              (vive_wand [0; 0]%float four_released) _ vive_adapter vive_adapter c2
              events (Change.Press true) VRController_vive_wand
              ltac:(discriminate) (later_now _) Hrun) as [Hsame Hfires].
  assert (Halias : In (button_event "primary" (Change.Press true)) events).
  { apply Hfires. exists 1, (Button.mk "trigger" 0 false false true),
      (GamepadButton.mk 1 true true).
    repeat split; discriminate. }
  exists c2, events. split; [exact Hrun|]. split; [exact Halias|].
  apply Hsame in Halias. exact Halias.
Defined.
